(** * DB2 to Snowflake table converter: extractor and transpiler

    A shallow embedding of [scripts/01_split_db2_ddl.py] (the extractor,
    module [Split], and its [main], module [SplitMain]) and
    [scripts/02_convert_to_snowflake.py] (the transpiler, module [Convert]),
    the properties of the specification stated over it, and further
    properties of the two scripts.

    - Text is a list of characters with code points below 256, ASCII and
      the Latin-1 supplement, which is the domain of this development.  The
      character classes and the case mapping are those of Python on these
      code points; [str.upper] is modelled with the sharp s, which it turns
      into two characters.  The micro sign and the y with diaeresis, whose
      upper case lies above 255, are kept as they are.
    - The string methods the scripts call are in module [Py], one function
      per method.
    - The patterns are values of [Re.regex], written after the source
      pattern by pattern, and run by a backtracking matcher that tries the
      alternatives in the order of Python's [re]; [Re.matches] says what a
      pattern can match, and the matcher is proved to find a match exactly
      when there is one.
    - The issues file is an append-only list of issues, threaded through the
      transpiler as the state of the computations [Convert.Log].
    - Reading and writing files, the time stamp and the logging are outside:
      the functions take the text read and return the text handed to the
      write.  [SplitMain] takes, for each file, whether it can be read and
      whether it can be written. *)

From Stdlib Require Import Ascii String Bool Arith ZArith Lia List.
Import ListNotations.
Open Scope list_scope.
Open Scope bool_scope.

Set Implicit Arguments.

(** Python [str]. *)
Definition str := list ascii.

(** A string literal of the source. *)
Definition lit (s : string) : str := list_ascii_of_string s.

(* ================================================================= *)
(** ** The Python string operations used by the two scripts *)

Module Py.

Definition nl : ascii := ascii_of_nat 10.

(** The code point of the character lies between the two bounds. *)
Definition in_range (lo hi : nat) (c : ascii) : bool :=
  let n := nat_of_ascii c in (lo <=? n) && (n <=? hi).

(** [str.isspace] on one character: TAB, LF, VT, FF, CR, the four
    separators U+001C-U+001F, the space, U+0085 and the no-break space
    U+00A0.  [str.strip], [str.split] and the class [\s] use it. *)
Definition isspace (c : ascii) : bool :=
  in_range 9 13 c || in_range 28 32 c ||
  Ascii.eqb c (ascii_of_nat 133) || Ascii.eqb c (ascii_of_nat 160).

(** The letters with an upper case of one character below 256: [a]-[z] and
    U+00E0-U+00FE without the division sign. *)
Definition islower (c : ascii) : bool :=
  in_range 97 122 c || in_range 224 246 c || in_range 248 254 c.

(** The letters with a lower case: [A]-[Z] and U+00C0-U+00DE without the
    multiplication sign. *)
Definition isupper (c : ascii) : bool :=
  in_range 65 90 c || in_range 192 214 c || in_range 216 222 c.

(** [str.isalnum] on one character: the digits and letters of ASCII, and of
    U+0080-U+00FF the letters, the superscript digits and the fractions. *)
Definition isalnum (c : ascii) : bool :=
  in_range 48 57 c || in_range 65 90 c || in_range 97 122 c ||
  Ascii.eqb c (ascii_of_nat 170) || in_range 178 179 c ||
  Ascii.eqb c (ascii_of_nat 181) || in_range 185 186 c || in_range 188 190 c ||
  in_range 192 214 c || in_range 216 246 c || in_range 248 255 c.

(** The regex class [\w]. *)
Definition isword (c : ascii) : bool := isalnum c || Ascii.eqb c "_"%char.

Definition to_upper (c : ascii) : ascii :=
  if islower c then ascii_of_nat (nat_of_ascii c - 32) else c.

(** The lower case of one character, by which [re.IGNORECASE] compares. *)
Definition to_lower (c : ascii) : ascii :=
  if isupper c then ascii_of_nat (nat_of_ascii c + 32) else c.

(** The sharp s, U+00DF. *)
Definition sharp_s : ascii := ascii_of_nat 223.

(** The upper case of one character: two characters for the sharp s. *)
Definition upper_char (c : ascii) : str :=
  if Ascii.eqb c sharp_s then ["S"%char; "S"%char] else [to_upper c].

(** [s.upper()] *)
Definition upper (s : str) : str := flat_map upper_char s.

Fixpoint drop_while (p : ascii -> bool) (s : str) : str :=
  match s with
  | [] => []
  | c :: s' => if p c then drop_while p s' else s
  end.

Fixpoint take_while (p : ascii -> bool) (s : str) : str :=
  match s with
  | [] => []
  | c :: s' => if p c then c :: take_while p s' else []
  end.

(** [s.lstrip()], [s.rstrip()], [s.strip()] *)
Definition lstrip (s : str) : str := drop_while isspace s.
Definition rstrip (s : str) : str := rev (drop_while isspace (rev s)).
Definition strip (s : str) : str := rstrip (lstrip s).

(** [s.startswith(p)] *)
Fixpoint startswith (p s : str) : bool :=
  match p, s with
  | [], _ => true
  | _ :: _, [] => false
  | a :: p', b :: s' => Ascii.eqb a b && startswith p' s'
  end.

(** [s.endswith(p)] *)
Definition endswith (p s : str) : bool := startswith (rev p) (rev s).

(** [s.find(sub)]: the lowest index at which [sub] occurs; [None] stands for
    Python's [-1]. *)
Fixpoint find (sub s : str) : option nat :=
  if startswith sub s then Some 0
  else match s with
       | [] => None
       | _ :: s' => option_map S (find sub s')
       end.

(** [sub in s] *)
Definition contains (sub s : str) : bool :=
  match find sub s with Some _ => true | None => false end.

(** [s[a:b]] for non-negative [a] and [b]; empty when [b <= a]. *)
Definition slice (a b : nat) (s : str) : str := firstn (b - a) (skipn a s).

(** [s.count(c)] for a one-character [c]. *)
Definition count (c : ascii) (s : str) : nat :=
  length (filter (Ascii.eqb c) s).

(** [s.split(sep)] for a one-character separator. *)
Fixpoint split (sep : ascii) (s : str) : list str :=
  match s with
  | [] => [[]]
  | c :: s' =>
      if Ascii.eqb c sep then [] :: split sep s'
      else match split sep s' with
           | l :: ls => (c :: l) :: ls
           | [] => [[c]]
           end
  end.

(** [s.split()]: the maximal runs of non-whitespace characters. *)
Fixpoint split_ws (s : str) : list str :=
  match s with
  | [] => []
  | c :: s' =>
      if isspace c then split_ws s'
      else match s' with
           | [] => [[c]]
           | c' :: _ =>
               if isspace c' then [c] :: split_ws s'
               else match split_ws s' with
                    | t :: ts => (c :: t) :: ts
                    | [] => [[c]]
                    end
           end
  end.

(** [sep.join(parts)] *)
Fixpoint join (sep : str) (parts : list str) : str :=
  match parts with
  | [] => []
  | [p] => p
  | p :: ps => p ++ sep ++ join sep ps
  end.

(** [s.replace(old, new)] for a non-empty [old]: the occurrences are replaced
    from the left and do not overlap.  [skip] counts the characters of the
    occurrence being replaced that are still to be passed over. *)
Fixpoint replace_go (old new : str) (skip : nat) (s : str) : str :=
  match s with
  | [] => []
  | c :: s' =>
      match skip with
      | S n => replace_go old new n s'
      | O =>
          if startswith old s then new ++ replace_go old new (length old - 1) s'
          else c :: replace_go old new 0 s'
      end
  end.

Definition replace (old new s : str) : str := replace_go old new 0 s.

(** Truthiness of a string: non-empty. *)
Definition truthy (s : str) : bool :=
  match s with [] => false | _ :: _ => true end.

Definition str_eqb (a b : str) : bool :=
  if list_eq_dec ascii_dec a b then true else false.

End Py.

(* ================================================================= *)
(** ** The fragment of Python's [re] the two scripts use

    A backtracking matcher in continuation-passing style: alternatives are
    tried in the order of Python's engine (greedy repetition tries one more
    iteration first, lazy repetition tries to stop first), so that the first
    success is the match Python reports. *)

Module Re.

Inductive regex : Type :=
| Eps : regex
| Chr : ascii -> regex                 (* a literal character *)
| Cls : (ascii -> bool) -> regex       (* a character class *)
| Seq : regex -> regex -> regex
| Alt : regex -> regex -> regex
| Star : bool -> regex -> regex        (* [true]: greedy [r*]; [false]: lazy [r*?] *)
| Grp : nat -> regex -> regex          (* capturing group number [n] *)
| Wb : regex.                          (* [\b] *)

(** [r+] *)
Definition Plus (r : regex) : regex := Seq r (Star true r).
(** [(?:r)?] *)
Definition Opt (r : regex) : regex := Alt r Eps.
(** A literal word. *)
Fixpoint Lit (s : str) : regex :=
  match s with
  | [] => Eps
  | [c] => Chr c
  | c :: s' => Seq (Chr c) (Lit s')
  end.

(** [\s], [\w], [.] under [re.DOTALL], and a negated set [[^...]]. *)
Definition space : regex := Cls Py.isspace.
Definition word : regex := Cls Py.isword.
Definition any : regex := Cls (fun _ => true).
Definition notin (excl : ascii -> bool) : regex := Cls (fun c => negb (excl c)).

(** The matcher's position: the character before it, the text after it, and
    the groups captured so far. *)
Record mstate : Type := MState {
  m_prev : option ascii;
  m_rest : str;
  m_caps : list (nat * str)
}.

Definition advance (c : ascii) (rest : str) (st : mstate) : mstate :=
  MState (Some c) rest (m_caps st).

(** Literal comparison, case-insensitive under [re.IGNORECASE]. *)
Definition chr_eq (ic : bool) (a b : ascii) : bool :=
  if ic then Ascii.eqb (Py.to_lower a) (Py.to_lower b) else Ascii.eqb a b.

Definition isword_opt (o : option ascii) : bool :=
  match o with Some c => Py.isword c | None => false end.

(** The text consumed between two positions of one scan. *)
Definition consumed (st st' : mstate) : str :=
  firstn (length (m_rest st) - length (m_rest st')) (m_rest st).

Definition set_cap (n : nat) (t : str) (st : mstate) : mstate :=
  MState (m_prev st) (m_rest st) ((n, t) :: m_caps st).

Section Matcher.
Variable A : Type.
Variable ic : bool.

(** An iteration of a repetition counts only if it consumed something. *)
Definition progress (st0 st1 : mstate) : bool :=
  length (m_rest st1) <? length (m_rest st0).

(** The repetition of [body]; [fuel] bounds the number of iterations and is
    set above the length of the text, which no run can reach since every
    iteration consumes a character. *)
Fixpoint star_loop (body : mstate -> (mstate -> option A) -> option A)
  (greedy : bool) (k : mstate -> option A) (fuel : nat) (st0 : mstate)
  {struct fuel} : option A :=
  match fuel with
  | O => k st0
  | S fuel' =>
      let again := fun st1 =>
        if progress st0 st1 then star_loop body greedy k fuel' st1 else None in
      if greedy then
        match body st0 again with
        | Some x => Some x
        | None => k st0
        end
      else
        match k st0 with
        | Some x => Some x
        | None => body st0 again
        end
  end.

Fixpoint m (r : regex) (st : mstate) (k : mstate -> option A) {struct r}
  : option A :=
  match r with
  | Eps => k st
  | Chr c =>
      match m_rest st with
      | d :: rest => if chr_eq ic c d then k (advance d rest st) else None
      | [] => None
      end
  | Cls p =>
      match m_rest st with
      | d :: rest => if p d then k (advance d rest st) else None
      | [] => None
      end
  | Seq r1 r2 => m r1 st (fun st1 => m r2 st1 k)
  | Alt r1 r2 =>
      match m r1 st k with
      | Some x => Some x
      | None => m r2 st k
      end
  | Star greedy r1 => star_loop (m r1) greedy k (S (length (m_rest st))) st
  | Grp n r1 => m r1 st (fun st1 => k (set_cap n (consumed st st1) st1))
  | Wb =>
      if xorb (isword_opt (m_prev st)) (isword_opt (hd_error (m_rest st)))
      then k st else None
  end.

End Matcher.

(** A match object: where it starts, [group(0)] and the numbered groups. *)
Record rmatch : Type := RMatch {
  r_start : nat;
  r_text : str;
  r_caps : list (nat * str)
}.

(** The pattern tried at one position. *)
Definition match_at (ic : bool) (r : regex) (prev : option ascii) (s : str)
  : option mstate :=
  m ic r (MState prev s []) (fun st => Some st).

Definition mk_match (pos : nat) (s : str) (st : mstate) : rmatch :=
  RMatch pos (firstn (length s - length (m_rest st)) s) (m_caps st).

(** [re.match(r, s)]: at the start of the text only. *)
Definition re_match (ic : bool) (r : regex) (s : str) : option rmatch :=
  option_map (mk_match 0 s) (match_at ic r None s).

Fixpoint search_from (ic : bool) (r : regex) (prev : option ascii) (pos : nat)
  (s : str) : option rmatch :=
  match match_at ic r prev s with
  | Some st => Some (mk_match pos s st)
  | None =>
      match s with
      | [] => None
      | c :: s' => search_from ic r (Some c) (S pos) s'
      end
  end.

(** [re.search(r, s)]: the match at the leftmost position that has one. *)
Definition re_search (ic : bool) (r : regex) (s : str) : option rmatch :=
  search_from ic r None 0 s.

(** [match.group(n)] for a group that took part in the match. *)
Fixpoint lookup (n : nat) (caps : list (nat * str)) : str :=
  match caps with
  | [] => []
  | (i, t) :: caps' => if Nat.eqb i n then t else lookup n caps'
  end.

Definition group (n : nat) (mt : rmatch) : str := lookup n (r_caps mt).

(** [re.sub(r, repl, s)] for a literal replacement: leftmost matches that do
    not overlap.  [skip] counts the characters of the current match still to
    be passed over; an empty match puts [repl] in front of the character. *)
Fixpoint sub_go (ic : bool) (r : regex) (repl : str) (prev : option ascii)
  (skip : nat) (s : str) : str :=
  match s with
  | [] =>
      match skip, match_at ic r prev [] with
      | O, Some _ => repl
      | _, _ => []
      end
  | c :: s' =>
      match skip with
      | S n => sub_go ic r repl (Some c) n s'
      | O =>
          match match_at ic r prev s with
          | Some st =>
              match length s - length (m_rest st) with
              | O => repl ++ c :: sub_go ic r repl (Some c) 0 s'
              | S n => repl ++ sub_go ic r repl (Some c) n s'
              end
          | None => c :: sub_go ic r repl (Some c) 0 s'
          end
      end
  end.

Definition re_sub (ic : bool) (r : regex) (repl s : str) : str :=
  sub_go ic r repl None 0 s.

End Re.

(* ================================================================= *)
(** ** Script A: [01_split_db2_ddl.py] *)

Module Split.
Import Py Re.

(** [r'/\*.*?\*/'] under [re.DOTALL]. *)
Definition block_comment_re : regex :=
  Seq (Chr "/") (Seq (Chr "*") (Seq (Star false any) (Seq (Chr "*") (Chr "/")))).

(** One turn of the loop over the lines in [strip_comments]. *)
Definition strip_line_comment (line : str) : str :=
  match find (lit "--") line with
  | Some comment_pos =>
      let before_comment := rstrip (firstn comment_pos line) in
      if truthy before_comment then before_comment else []
  | None => line
  end.

Definition strip_comments (content : str) : str :=
  let content := re_sub false block_comment_re [] content in
  let lines := split nl content in
  let cleaned_lines := map strip_line_comment lines in
  join [nl] cleaned_lines.

(** [CREATE\s+TABLE\s+], the start of the three patterns below. *)
Definition create_table_kw : regex :=
  Seq (Lit (lit "CREATE")) (Seq (Plus space) (Seq (Lit (lit "TABLE")) (Plus space))).

(** [r'CREATE\s+TABLE\s+\w+(?:\.\w+)?'] *)
Definition create_table_re : regex :=
  Seq create_table_kw (Seq (Plus word) (Opt (Seq (Chr ".") (Plus word)))).

(** [re.match(r'CREATE\s+TABLE\s+\w+(?:\.\w+)?', line, re.IGNORECASE)] as a
    condition. *)
Definition starts_create_table (line : str) : bool :=
  match re_match true create_table_re line with
  | Some _ => true
  | None => false
  end.

(** The variables of the loop in [extract_create_table_statements]. *)
Record seg_state : Type := SegState {
  statements : list str;
  current_statement : list str;
  paren_count : Z;
  in_create_table : bool
}.

Definition nonempty (A : Type) (l : list A) : bool :=
  match l with [] => false | _ :: _ => true end.

(** [line.count('(') - line.count(')')] *)
Definition paren_balance (line : str) : Z :=
  (Z.of_nat (count "(" line) - Z.of_nat (count ")" line))%Z.

(** The body of the loop over the lines. *)
Definition seg_step (st : seg_state) (line0 : str) : seg_state :=
  let line := strip line0 in
  if negb (truthy line) then st
  else if starts_create_table line then
    SegState
      (if nonempty (current_statement st) && in_create_table st
       then statements st ++ [join [nl] (current_statement st)]
       else statements st)
      [line] (paren_balance line) true
  else if in_create_table st then
    let current := current_statement st ++ [line] in
    let count := (paren_count st + paren_balance line)%Z in
    if (count <=? 0)%Z && endswith (lit ";") line
    then SegState (statements st ++ [join [nl] current]) [] 0%Z false
    else SegState (statements st) current count true
  else st.

Definition seg_init : seg_state := SegState [] [] 0%Z false.

(** What is returned after the loop: a statement still open is kept. *)
Definition seg_finish (st : seg_state) : list str :=
  if nonempty (current_statement st) && in_create_table st
  then statements st ++ [join [nl] (current_statement st)]
  else statements st.

Definition extract_create_table_statements (content : str) : list str :=
  seg_finish (fold_left seg_step (split nl content) seg_init).

(** [r'CREATE\s+TABLE\s+(\w+)\.(\w+)'] *)
Definition schema_table_re : regex :=
  Seq create_table_kw
    (Seq (Grp 1 (Plus word)) (Seq (Chr ".") (Grp 2 (Plus word)))).

(** [r'CREATE\s+TABLE\s+(\w+)'] *)
Definition table_re : regex :=
  Seq create_table_kw (Grp 1 (Plus word)).

(** [None] stands for the pair [(None, None)]. *)
Definition extract_schema_table_name (statement : str) : option (str * str) :=
  match re_search true schema_table_re statement with
  | Some mt => Some (group 1 mt, group 2 mt)
  | None =>
      match re_search true table_re statement with
      | Some mt => Some (lit "DEFAULT", group 1 mt)
      | None => None
      end
  end.

(** What [process_input_file] does with one statement.  [Emitted] holds what
    is handed to the write of the output file; whether the write succeeds,
    and with it whether the manifest gets its entry, is for [SplitMain]. *)
Inductive outcome : Type :=
| Skipped : outcome                      (* the warning and [continue] *)
| Emitted : str -> str -> str -> str -> outcome.
                    (* schema, table, name of the file, text of the file *)

(** The body of the loop over the statements in [process_input_file], up to
    the write; [utc_time] is the time stamp put in the header. *)
Definition process_statement (source_file_path utc_time statement : str)
  : outcome :=
  match extract_schema_table_name statement with
  | None => Skipped
  | Some (schema, table) =>
      if negb (truthy schema) || negb (truthy table) then Skipped
      else
        let output_filename := schema ++ lit "__" ++ table ++ lit ".sql" in
        let header :=
          lit "-- Source file: " ++ source_file_path ++ [nl] ++
          lit "-- Extracted: " ++ utc_time ++ [nl; nl] in
        Emitted schema table output_filename (header ++ statement)
  end.

(** [process_input_file] on the text read from the input file, up to the
    writes.  The source reads the clock anew for every statement; here one
    [utc_time] stands for all the readings. *)
Definition process_input_file (content source_file_path utc_time : str)
  : list outcome :=
  let cleaned_content := strip_comments content in
  let statements := extract_create_table_statements cleaned_content in
  map (process_statement source_file_path utc_time) statements.

End Split.

(* ================================================================= *)
(** ** Script B: [02_convert_to_snowflake.py] *)

Module Convert.
Import Py Re.

(** One line of the issues file. *)
Record Issue : Type := MkIssue {
  i_table : str;
  i_column : str;
  i_issue : str;
  i_snippet : str
}.

(** The text [log_issue] writes for one issue. *)
Definition issue_line (i : Issue) : str :=
  i_table i ++ lit " | " ++ i_column i ++ lit " | " ++ i_issue i ++
  lit " | " ++ i_snippet i ++ [nl].

(** A computation that appends to the issues file. *)
Definition Log (A : Type) : Type := list Issue -> A * list Issue.

Definition ret (A : Type) (x : A) : Log A := fun log => (x, log).

Definition bind (A B : Type) (c : Log A) (f : A -> Log B) : Log B :=
  fun log => let (x, log') := c log in f x log'.

Notation "x <- c ;; k" := (bind c (fun x => k))
  (at level 61, c at next level, right associativity).
Notation "c ;;; k" := (bind c (fun _ => k))
  (at level 61, right associativity).

Definition log_issue (table_name column_section issue snippet : str) : Log unit :=
  fun log =>
    let snippet := if 80 <? length snippet then firstn 80 snippet else snippet in
    (tt, log ++ [MkIssue table_name column_section issue snippet]).

(** [x in [a, b, c]] on strings. *)
Definition mem (x : str) (l : list str) : bool := existsb (str_eqb x) l.

Definition convert_data_type (db2_type table_name column_name : str) : Log str :=
  let db2_type := upper (strip db2_type) in
  let db2_type :=
    if contains (lit "FOR SBCS DATA") db2_type
    then strip (replace (lit "FOR SBCS DATA") [] db2_type)
    else db2_type in
  if contains (lit "FOR BIT DATA") db2_type then
    log_issue table_name column_name
      (lit "mapped to BINARY from FOR BIT DATA") db2_type ;;;
    ret (lit "BINARY")
  else if startswith (lit "DECIMAL") db2_type || startswith (lit "NUMERIC") db2_type then
    ret (replace (lit "NUMERIC") (lit "NUMBER")
           (replace (lit "DECIMAL") (lit "NUMBER") db2_type))
  else if mem db2_type [lit "SMALLINT"; lit "INTEGER"; lit "BIGINT"] then
    ret db2_type
  else if mem db2_type [lit "REAL"; lit "DOUBLE"; lit "DECFLOAT"] then
    ret (lit "FLOAT")
  else if startswith (lit "CHAR") db2_type || startswith (lit "VARCHAR") db2_type then
    ret db2_type
  else if startswith (lit "GRAPHIC") db2_type || startswith (lit "VARGRAPHIC") db2_type then
    log_issue table_name column_name
      (lit "mapped (VAR)GRAPHIC to VARCHAR") db2_type ;;;
    ret (replace (lit "VARGRAPHIC") (lit "VARCHAR")
           (replace (lit "GRAPHIC") (lit "VARCHAR") db2_type))
  else if startswith (lit "CLOB") db2_type then
    log_issue table_name column_name
      (lit "CLOB mapped to VARCHAR (possible size loss)") db2_type ;;;
    ret (lit "VARCHAR")
  else if startswith (lit "BLOB") db2_type then
    ret (lit "BINARY")
  else if str_eqb db2_type (lit "XML") then
    log_issue table_name column_name (lit "XML mapped to VARIANT") db2_type ;;;
    ret (lit "VARIANT")
  else if str_eqb db2_type (lit "DATE") then ret (lit "DATE")
  else if str_eqb db2_type (lit "TIME") then ret (lit "TIME")
  else if str_eqb db2_type (lit "TIMESTAMP WITH TIME ZONE") then
    ret (lit "TIMESTAMP_TZ")
  else if str_eqb db2_type (lit "TIMESTAMP") then ret (lit "TIMESTAMP_NTZ")
  else ret db2_type.

(** [r'\bCURRENT\s+TIMESTAMP\b'], [r'\bCURRENT\s+DATE\b'],
    [r'\bCURRENT\s+TIME\b'] and [r'\bUSER\b']. *)
Definition current_re (what : string) : regex :=
  Seq Wb (Seq (Lit (lit "CURRENT")) (Seq (Plus space) (Seq (Lit (lit what)) Wb))).

Definition user_re : regex := Seq Wb (Seq (Lit (lit "USER")) Wb).

Definition convert_default_value (default_expr table_name column_name : str)
  : Log str :=
  if negb (truthy default_expr) then ret []
  else
    let default_expr := strip default_expr in
    if str_eqb (upper default_expr) (lit "WITH DEFAULT") then
      log_issue table_name column_name
        (lit "ambiguous default removed") (lit "WITH DEFAULT") ;;;
      ret []
    else
      let default_expr :=
        if startswith (lit "WITH DEFAULT ") (upper default_expr)
        then skipn 13 default_expr else default_expr in
      let default_expr :=
        re_sub true (current_re "TIMESTAMP") (lit "CURRENT_TIMESTAMP") default_expr in
      let default_expr :=
        re_sub true (current_re "DATE") (lit "CURRENT_DATE") default_expr in
      let default_expr :=
        re_sub true (current_re "TIME") (lit "CURRENT_TIME") default_expr in
      match re_search true user_re default_expr with
      | Some _ =>
          log_issue table_name column_name
            (lit "USER converted to CURRENT_USER") default_expr ;;;
          ret (lit "DEFAULT " ++
               re_sub true user_re (lit "CURRENT_USER") default_expr)
      | None => ret (lit "DEFAULT " ++ default_expr)
      end.

Definition type_end_keywords : list str :=
  [lit "NOT NULL"; lit "WITH DEFAULT"; lit "NULL"; lit "CONSTRAINT";
   lit "PRIMARY KEY"; lit "UNIQUE"; lit "CHECK"].

(** The body of the loop that looks for the earliest keyword. *)
Definition type_end_step (column_def : str) (type_end_pos : nat) (keyword : str)
  : nat :=
  match find keyword (upper column_def) with
  | Some pos => if pos <? type_end_pos then pos else type_end_pos
  | None => type_end_pos
  end.

Definition find_type_end (column_def : str) : nat :=
  fold_left (type_end_step column_def) type_end_keywords (length column_def).

(** [WITH\s+DEFAULT\s+] and then the group: a token [[^,\s]+] followed by
    any number of [\s+[^,\s]+]. *)
Definition default_token : regex :=
  notin (fun c => Ascii.eqb c "," || isspace c).

Definition default_re : regex :=
  Seq (Lit (lit "WITH")) (Seq (Plus space) (Seq (Lit (lit "DEFAULT"))
    (Seq (Plus space)
      (Grp 1 (Seq (Plus default_token)
                (Star true (Seq (Plus space) (Plus default_token)))))))).

(** What [parse_column_definition] takes from a non-empty definition. *)
Record column : Type := MkColumn {
  column_name : str;
  data_type_part : str;
  remaining_part : str;
  snowflake_type : str;
  not_null : bool;
  null_attr : bool;
  default_value : str
}.

Definition parse_column (column_def table_name : str) : Log column :=
  let column_name := hd [] (split_ws column_def) in
  let type_end_pos := find_type_end column_def in
  let data_type_part := strip (slice (length column_name) type_end_pos column_def) in
  let remaining_part := strip (skipn type_end_pos column_def) in
  snowflake_type <- convert_data_type data_type_part table_name column_name ;;
  let not_null := contains (lit "NOT NULL") (upper remaining_part) in
  let null_attr :=
    contains (lit "NULL") (upper remaining_part) &&
    negb (contains (lit "NOT NULL") (upper remaining_part)) in
  default_value <-
    match re_search true default_re remaining_part with
    | Some default_match =>
        convert_default_value (r_text default_match) table_name column_name
    | None => ret []
    end ;;
  ret (MkColumn column_name data_type_part remaining_part snowflake_type
         not_null null_attr default_value).

(** The converted definition is put together from these parts. *)
Definition render_column (c : column) : str :=
  let result_parts := [column_name c; snowflake_type c] in
  let result_parts :=
    if not_null c then result_parts ++ [lit "NOT NULL"]
    else if null_attr c then result_parts ++ [lit "NULL"]
    else result_parts in
  let result_parts :=
    if truthy (default_value c) then result_parts ++ [default_value c]
    else result_parts in
  join (lit " ") result_parts.

Definition parse_column_definition (column_def table_name : str) : Log str :=
  let column_def := strip column_def in
  if negb (truthy column_def) then ret []
  else if negb (Split.nonempty (split_ws column_def)) then ret column_def
  else
    c <- parse_column column_def table_name ;;
    ret (render_column c).

(** [r'(\w+)\s+[^,\n]+\s+PRIMARY\s+KEY'] *)
Definition inline_pk_re : regex :=
  Seq (Grp 1 (Plus word)) (Seq (Plus space)
    (Seq (Plus (notin (fun c => Ascii.eqb c "," || Ascii.eqb c nl)))
      (Seq (Plus space) (Seq (Lit (lit "PRIMARY"))
        (Seq (Plus space) (Lit (lit "KEY"))))))).

(** [r'PRIMARY\s+KEY\s*\(([^)]+)\)'] *)
Definition table_pk_re : regex :=
  Seq (Lit (lit "PRIMARY")) (Seq (Plus space) (Seq (Lit (lit "KEY"))
    (Seq (Star true space) (Seq (Chr "(")
      (Seq (Grp 1 (Plus (notin (fun c => Ascii.eqb c ")")))) (Chr ")")))))).

Definition extract_primary_keys (statement : str) : list str :=
  match re_search true inline_pk_re statement with
  | Some inline_pk_match => [group 1 inline_pk_match]
  | None =>
      match re_search true table_pk_re statement with
      | Some pk_match => map strip (split "," (group 1 pk_match))
      | None => []
      end
  end.

(** The variables of the loop in [convert_db2_to_snowflake]. *)
Record conv_state : Type := ConvState {
  result_lines : list str;
  in_columns : bool;
  column_definitions : list str
}.

(** The converted definitions, each but the last followed by a comma. *)
Fixpoint emit_columns (column_definitions : list str) : list str :=
  match column_definitions with
  | [] => []
  | [col_def] => [lit "  " ++ col_def]
  | col_def :: rest => (lit "  " ++ col_def ++ lit ",") :: emit_columns rest
  end.

Definition skipped_options : list str :=
  [lit "PARTITION BY"; lit "AUDIT"; lit "DATA CAPTURE"; lit "CCSID"].

Definition constraint_starts : list str :=
  [lit "CONSTRAINT"; lit "PRIMARY KEY"; lit "UNIQUE"; lit "CHECK"].

(** The loop over the lines; it ends at the first line [)] or [);]. *)
Fixpoint convert_lines (table_name : str) (lines : list str) (st : conv_state)
  : Log conv_state :=
  match lines with
  | [] => ret st
  | line0 :: rest =>
      let line := strip line0 in
      if negb (truthy line) then convert_lines table_name rest st
      else if startswith (lit "--") line then convert_lines table_name rest st
      else if startswith (lit "CREATE TABLE") (upper line) then
        match re_search true Split.schema_table_re line with
        | Some mt =>
            convert_lines table_name rest
              (ConvState
                 (result_lines st ++
                  [lit "CREATE TABLE " ++ group 1 mt ++ lit "." ++ group 2 mt ++ lit " ("])
                 true (column_definitions st))
        | None =>
            match re_search true Split.table_re line with
            | Some mt =>
                convert_lines table_name rest
                  (ConvState
                     (result_lines st ++
                      [lit "CREATE TABLE " ++ group 1 mt ++ lit " ("])
                     true (column_definitions st))
            | None => convert_lines table_name rest st
            end
        end
      else if existsb (fun keyword => contains keyword (upper line)) skipped_options
      then convert_lines table_name rest st
      else if str_eqb line (lit ")") || str_eqb line (lit ");") then
        ret (ConvState
               (result_lines st ++ emit_columns (column_definitions st) ++ [lit ");"])
               false (column_definitions st))
      else if in_columns st then
        if existsb (fun p => startswith p (upper line)) constraint_starts
        then convert_lines table_name rest st
        else
          let line := if endswith (lit ",") line then removelast line else line in
          converted_col <- parse_column_definition line table_name ;;
          if truthy converted_col && truthy (strip converted_col)
          then convert_lines table_name rest
                 (ConvState (result_lines st) (in_columns st)
                    (column_definitions st ++ [converted_col]))
          else convert_lines table_name rest st
      else convert_lines table_name rest st
  end.

(** The statement appended when a primary key was found. *)
Definition alter_statement (table_name : str) (primary_keys : list str) : str :=
  lit "ALTER TABLE " ++ table_name ++ lit " ADD PRIMARY KEY (" ++
  join (lit ", ") primary_keys ++ lit ");".

Definition convert_db2_to_snowflake (content table_name : str) : Log str :=
  let lines := split nl content in
  let primary_keys := extract_primary_keys content in
  st <- convert_lines table_name lines (ConvState [] false []) ;;
  let result_lines :=
    if Split.nonempty primary_keys
    then result_lines st ++ [alter_statement table_name primary_keys]
    else result_lines st in
  ret (join [nl] result_lines).

(** [s.rfind(c)] for a one-character [c]. *)
Fixpoint rfind (c : ascii) (s : str) : option nat :=
  match s with
  | [] => None
  | d :: s' =>
      match rfind c s' with
      | Some i => Some (S i)
      | None => if Ascii.eqb d c then Some 0 else None
      end
  end.

(** [Path.stem] on the last component of a path: the name without its last
    suffix; a dot that starts or ends the name opens no suffix. *)
Definition stem (name : str) : str :=
  match rfind "." name with
  | Some i => if (0 <? i) && (i <? length name - 1) then firstn i name else name
  | None => name
  end.

(** The comment lines at the top of the file. *)
Fixpoint header_lines (lines : list str) : list str :=
  match lines with
  | [] => []
  | line :: rest =>
      if startswith (lit "--") (strip line) then line :: header_lines rest else []
  end.

(** [process_table_file] on the name of the input file and the text read from
    it, where nothing raises: the text handed to the write of the output
    file of the same name.  The three [except] branches are outside: each
    logs one more issue, with the text of the error, under the table
    [parse_error] for a failed read and under [table_name] for a failed
    conversion or write, and returns [False]. *)
Definition process_table_file (file_name content : str) : Log str :=
  let table_name := replace (lit "__") (lit ".") (stem file_name) in
  let lines := split nl content in
  converted_content <- convert_db2_to_snowflake content table_name ;;
  ret (concat (map (fun header_line => header_line ++ [nl]) (header_lines lines))
       ++ [nl] ++ converted_content).

End Convert.

(* ================================================================= *)
(** ** [main] of script A in its normal mode *)

Module SplitMain.
Import Py.

(** An entry of the manifest.  [file_name] is the name of the output file;
    the entry holds it joined to the output directory as its [path]. *)
Record entry : Type := Entry {
  schema : str;
  table : str;
  file_name : str;
  source_file : str
}.

(** What [process_input_file] appends to [manifest_data]: an entry for every
    statement whose file could be written.  [written file_name text] tells
    whether the write of the text under that name succeeds; where it fails
    the error is logged and nothing is appended. *)
Definition manifest_entries (written : str -> str -> bool)
  (source_file_path : str) (outcomes : list Split.outcome) : list entry :=
  flat_map (fun o =>
    match o with
    | Split.Emitted schema table file_name text =>
        if written file_name text
        then [Entry schema table file_name source_file_path]
        else []
    | Split.Skipped => []
    end) outcomes.

(** [f"data/input/{sql_file.name}"] *)
Definition source_path (name : str) : str := lit "data/input/" ++ name.

(** One turn of the loop over the input files, on the name of the file and
    the text read from it, [None] for a file that cannot be read, which
    [process_input_file] leaves after logging the error.  [manifest_data] is
    shared with [process_input_file], and the tables of the file are counted
    in it. *)
Definition main_step (written : str -> str -> bool) (utc_time : str)
  (acc : list entry * nat) (sql_file : str * option str) : list entry * nat :=
  let (manifest_data, tables_found) := acc in
  let (name, read) := sql_file in
  let manifest_data :=
    match read with
    | Some content =>
        manifest_data ++
        manifest_entries written (source_path name)
          (Split.process_input_file content (source_path name) utc_time)
    | None => manifest_data
    end in
  (manifest_data,
   tables_found +
   length (filter (fun item => str_eqb (source_file item) (source_path name))
             manifest_data)).

Definition main_loop (written : str -> str -> bool) (utc_time : str)
  (sql_files : list (str * option str)) : list entry * nat :=
  fold_left (main_step written utc_time) sql_files ([], 0).

(** The exit code and the manifest written, if any.  [sql_files] are the
    files the two globs find, with the text read from each; [utc_time]
    stands for the time stamps of the headers, which the manifest does not
    hold.  The output directory is taken to be made and the manifest to be
    written: an error there is not caught, and [main] does not return. *)
Definition main (written : str -> str -> bool) (input_dir_exists : bool)
  (sql_files : list (str * option str)) (utc_time : str)
  : nat * option (list entry) :=
  if negb input_dir_exists then (2, None)
  else if negb (Split.nonempty sql_files) then (2, None)
  else
    let (manifest_data, tables_found) := main_loop written utc_time sql_files in
    if tables_found =? 0 then (3, None)
    else (0, Some manifest_data).

End SplitMain.

(* ================================================================= *)
(** ** Definitions used to state the properties *)

Import Py Re.

(** [matches ic r st st']: from the position [st] the pattern [r] can match
    up to the position [st'], with the groups of [st'] captured; [ic] stands
    for [re.IGNORECASE].  An iteration of a repetition has to consume at
    least one character. *)
Inductive matches (ic : bool) : regex -> mstate -> mstate -> Prop :=
| M_Eps : forall st, matches ic Eps st st
| M_Chr : forall c d rest st,
    m_rest st = d :: rest -> chr_eq ic c d = true ->
    matches ic (Chr c) st (advance d rest st)
| M_Cls : forall p d rest st,
    m_rest st = d :: rest -> p d = true ->
    matches ic (Cls p) st (advance d rest st)
| M_Seq : forall r1 r2 st st1 st2,
    matches ic r1 st st1 -> matches ic r2 st1 st2 ->
    matches ic (Seq r1 r2) st st2
| M_AltL : forall r1 r2 st st1,
    matches ic r1 st st1 -> matches ic (Alt r1 r2) st st1
| M_AltR : forall r1 r2 st st1,
    matches ic r2 st st1 -> matches ic (Alt r1 r2) st st1
| M_Star0 : forall g r st, matches ic (Star g r) st st
| M_StarS : forall g r st st1 st2,
    matches ic r st st1 -> progress st st1 = true ->
    matches ic (Star g r) st1 st2 ->
    matches ic (Star g r) st st2
| M_Grp : forall n r st st1,
    matches ic r st st1 ->
    matches ic (Grp n r) st (set_cap n (consumed st st1) st1)
| M_Wb : forall st,
    xorb (isword_opt (m_prev st)) (isword_opt (hd_error (m_rest st))) = true ->
    matches ic Wb st st.

(** The pattern has no capturing group. *)
Fixpoint no_grp (r : regex) : bool :=
  match r with
  | Seq r1 r2 | Alt r1 r2 => no_grp r1 && no_grp r2
  | Star _ r1 => no_grp r1
  | Grp _ _ => false
  | _ => true
  end.

(** The pattern has no word boundary, so that what it matches does not depend
    on the text after the match. *)
Fixpoint no_wb (r : regex) : bool :=
  match r with
  | Seq r1 r2 | Alt r1 r2 => no_wb r1 && no_wb r2
  | Star _ r1 | Grp _ r1 => no_wb r1
  | Wb => false
  | _ => true
  end.

(** The same position in a text that goes on with [x]. *)
Definition ext (x : str) (st : mstate) : mstate :=
  MState (m_prev st) (m_rest st ++ x) (m_caps st).

(** [*/] occurs in the text. *)
Fixpoint has_close (s : str) : bool :=
  match s with
  | [] => false
  | c :: s' =>
      match s' with
      | d :: _ => (Ascii.eqb c "*" && Ascii.eqb d "/") || has_close s'
      | [] => false
      end
  end.

(** The text starts with a complete block comment. *)
Definition starts_block (s : str) : bool :=
  match s with
  | c1 :: c2 :: t => Ascii.eqb c1 "/" && Ascii.eqb c2 "*" && has_close t
  | _ => false
  end.

(** A complete block comment occurs in the text. *)
Fixpoint contains_block_comment (s : str) : bool :=
  starts_block s ||
  match s with
  | [] => false
  | _ :: s' => contains_block_comment s'
  end.

(** [cut y' y]: [y'] is [y] with the end of some of its lines cut off. *)
Inductive cut : str -> str -> Prop :=
| cut_end : forall y, cut [] y
| cut_keep : forall c y' y, cut y' y -> cut (c :: y') (c :: y)
| cut_drop : forall c y' y, cut (nl :: y') y -> cut (nl :: y') (c :: y).

(** The lines of a statement the segmenter opened: the first one matched the
    pattern that opens a statement. *)
Definition opened (lines : list str) : Prop :=
  match lines with
  | [] => False
  | first :: _ => Split.starts_create_table first = true
  end.

(** What holds of the variables of the segmenter at every turn of its loop. *)
Definition seg_inv (st : Split.seg_state) : Prop :=
  Forall (fun s => exists ls, s = join [nl] ls /\ opened ls) (Split.statements st) /\
  (Split.in_create_table st = true -> opened (Split.current_statement st)).

(** The statements returned so far and the one still open. *)
Definition open_count (st : Split.seg_state) : nat :=
  length (Split.statements st) +
  (if Split.nonempty (Split.current_statement st) && Split.in_create_table st
   then 1 else 0).

(** A line that opens a statement. *)
Definition opens (line : str) : bool :=
  truthy (strip line) && Split.starts_create_table (strip line).

(** [emits c x d]: whatever the issues file holds, [c] returns [x] and appends
    the issues [d] to it. *)
Definition emits (A : Type) (c : Convert.Log A) (x : A) (d : list Convert.Issue)
  : Prop :=
  forall log, c log = (x, log ++ d).

(** [c] appends only issues that satisfy [P]. *)
Definition logs_with (A : Type) (P : Convert.Issue -> Prop) (c : Convert.Log A)
  : Prop :=
  exists x d, emits c x d /\ Forall P d.

(** An issue of the table [t]. *)
Definition of_table (t : str) (i : Convert.Issue) : Prop := Convert.i_table i = t.

(** An issue other than the one for a default without a value. *)
Definition not_ambiguous (i : Convert.Issue) : Prop :=
  str_eqb (Convert.i_issue i) (lit "ambiguous default removed") = false.

(** The first run of non-whitespace characters. *)
Definition first_word (s : str) : str :=
  take_while (fun c => negb (isspace c)) (drop_while isspace s).

(** The number of characters that are not whitespace. *)
Definition nonspace_count (s : str) : nat :=
  length (filter (fun c => negb (isspace c)) s).

(** *** The inputs of the scenarios and examples *)

(** The text made of the given lines. *)
Definition text_of_lines (l : list string) : str := join [nl] (map lit l).

(** The statement of Scenario 1, as the self-tests of both scripts have it. *)
Definition scenario1_statement : str := text_of_lines [
  "CREATE TABLE APP.ACCOUNT (";
  "  ACCOUNT_ID INTEGER NOT NULL CONSTRAINT PK_ACC PRIMARY KEY,";
  "  NAME VARCHAR(100) FOR SBCS DATA NOT NULL WITH DEFAULT '',";
  "  CRT_TS TIMESTAMP NOT NULL WITH DEFAULT CURRENT TIMESTAMP,";
  "  BAL DECIMAL(18,2) WITH DEFAULT 0,";
  "  NOTES CLOB(1M),";
  "  CODE CHAR(3) WITH DEFAULT";
  ");"]%string.

(** The file the extractor writes for it, which the transpiler reads. *)
Definition scenario1_file : str :=
  text_of_lines [
    "-- Source file: data/input/sample.sql";
    "-- Extracted: 2025-10-20T00:00:00Z";
    ""]%string ++ [nl] ++ scenario1_statement.

Definition scenario1_converted : str := text_of_lines [
  "CREATE TABLE APP.ACCOUNT (";
  "  ACCOUNT_ID INTEGER NOT NULL,";
  "  NAME VARCHAR(100) NOT NULL DEFAULT '',";
  "  CRT_TS TIMESTAMP_NTZ NOT NULL DEFAULT CURRENT_TIMESTAMP,";
  "  BAL NUMBER(18,2) DEFAULT 0,";
  "  NOTES VARCHAR,";
  "  CODE CHAR(3)";
  ");";
  "ALTER TABLE APP.ACCOUNT ADD PRIMARY KEY (ACCOUNT_ID);"]%string.

(** The same statement written on one line. *)
Definition scenario1_one_line : str :=
  lit ("CREATE TABLE APP.ACCOUNT (" ++
       "ACCOUNT_ID INTEGER NOT NULL CONSTRAINT PK_ACC PRIMARY KEY, " ++
       "NAME VARCHAR(100) FOR SBCS DATA NOT NULL WITH DEFAULT '', " ++
       "CRT_TS TIMESTAMP NOT NULL WITH DEFAULT CURRENT TIMESTAMP, " ++
       "BAL DECIMAL(18,2) WITH DEFAULT 0, NOTES CLOB(1M), " ++
       "CODE CHAR(3) WITH DEFAULT);")%string.

Definition notes_issue (table_name : str) : Convert.Issue :=
  Convert.MkIssue table_name (lit "NOTES")
    (lit "CLOB mapped to VARCHAR (possible size loss)") (lit "CLOB(1M)").

(** Two block comments with a slash before and a star between them. *)
Definition spliced_comments : str := lit "A //* x */* y */ B".

Definition commented_input : str := text_of_lines [
  "/* accounts */";
  "CREATE TABLE T ( -- the table";
  "  A INTEGER /* key */ NOT NULL";
  ");"]%string.

Definition two_statements_input : str := text_of_lines [
  "CREATE TABLE A.T1 (";
  "  ID INTEGER";
  ");";
  "create table t2 (x int)"]%string.

(** A statement with the inline marker on a column whose type has a comma,
    and a table-level clause as well. *)
Definition both_forms_statement : str := text_of_lines [
  "CREATE TABLE T (";
  "  AMT DECIMAL(18,2) NOT NULL PRIMARY KEY,";
  "  PRIMARY KEY (AMT)";
  ");"]%string.

(** The statement of Scenario 2. *)
Definition widgets_statement : str := text_of_lines [
  "CREATE TABLE WIDGETS (";
  "  ID INTEGER";
  ");"]%string.

(** A statement that ends on its opening line, followed by another kind of
    statement. *)
Definition one_line_statement_input : str := text_of_lines [
  "CREATE TABLE T (A INT);";
  "CREATE INDEX IX ON T (A);"]%string.

(** The same statement with its columns on a line of their own. *)
Definition three_line_statement_input : str := text_of_lines [
  "CREATE TABLE T (";
  "  A INT";
  ");";
  "CREATE INDEX IX ON T (A);"]%string.


(** A statement without a schema whose default value quotes a qualified
    name. *)
Definition widgets_with_literal : str := text_of_lines [
  "CREATE TABLE WIDGETS (";
  "  NOTE VARCHAR(40) WITH DEFAULT 'see CREATE TABLE A.B'";
  ");"]%string.

(* ----------------------------------------------------------------- *)
(** *** Definitions used to state the further properties *)

(** A line as the segmenter keeps it: not blank, stripped, without a line
    break. *)
Definition kept_line (l : str) : Prop :=
  truthy l = true /\ strip l = l /\ ~ In nl l.

(** The lines of a statement of the segmenter: an opening line, then lines
    that open nothing. *)
Definition shaped (lines : list str) : Prop :=
  match lines with
  | [] => False
  | first :: rest =>
      Split.starts_create_table first = true /\ kept_line first /\
      Forall (fun l => kept_line l /\ Split.starts_create_table l = false) rest
  end.

(** The invariant of the loop of the segmenter. *)
Definition seg_shape (st : Split.seg_state) : Prop :=
  Forall (fun s => exists ls, s = join [nl] ls /\ shaped ls) (Split.statements st) /\
  (Split.in_create_table st = true -> shaped (Split.current_statement st)).

(** The state of the segmenter with the statements [done] returned before. *)
Definition after (done : list str) (st : Split.seg_state) : Split.seg_state :=
  Split.SegState (done ++ Split.statements st) (Split.current_statement st)
    (Split.paren_count st) (Split.in_create_table st).

(** The first line that is not blank opens a statement. *)
Fixpoint starts_with_statement (lines : list str) : bool :=
  match lines with
  | [] => false
  | l :: rest =>
      if truthy (strip l) then Split.starts_create_table (strip l)
      else starts_with_statement rest
  end.

(** The character before the position reached after the text [t]. *)
Definition prev_after (prev : option ascii) (t : str) : option ascii :=
  fold_left (fun _ c => Some c) t prev.

(** The text may not go on with a character of the class. *)
Definition stops (p : ascii -> bool) (rest : str) : bool :=
  match rest with
  | [] => true
  | c :: _ => negb (p c)
  end.

(** Whatever the pattern [r] matches, the text from the start of the match
    on holds the word [w] in some case. *)
Definition demands (ic : bool) (r : regex) (w : str) : Prop :=
  forall st st', matches ic r st st' -> contains w (upper (m_rest st)) = true.

(** The texts of the issues the transpiler writes. *)
Definition issue_texts : list str :=
  [lit "mapped to BINARY from FOR BIT DATA";
   lit "mapped (VAR)GRAPHIC to VARCHAR";
   lit "CLOB mapped to VARCHAR (possible size loss)";
   lit "XML mapped to VARIANT";
   lit "ambiguous default removed";
   lit "USER converted to CURRENT_USER"].

(** An issue as the transpiler writes them for the table [t]. *)
Definition transpiler_issue (t : str) (i : Convert.Issue) : Prop :=
  Convert.i_table i = t /\ In (Convert.i_issue i) issue_texts /\
  length (Convert.i_snippet i) <= 80.

(** The file of a statement was written. *)
Definition file_written (written : str -> str -> bool) (o : Split.outcome)
  : bool :=
  match o with
  | Split.Emitted _ _ file_name text => written file_name text
  | Split.Skipped => false
  end.

(** The input file was read and the file of one of its statements was
    written. *)
Definition gives_table (written : str -> str -> bool) (utc_time : str)
  (sql_file : str * option str) : bool :=
  match snd sql_file with
  | Some content =>
      existsb (file_written written)
        (Split.process_input_file content (SplitMain.source_path (fst sql_file))
           utc_time)
  | None => false
  end.

(** The input file was read and its text, without the comments, has a line
    that opens a statement. *)
Definition holds_statement (sql_file : str * option str) : bool :=
  match snd sql_file with
  | Some content => existsb opens (split nl (Split.strip_comments content))
  | None => false
  end.

(** A line that closes the list of columns. *)
Definition closes (line : str) : bool :=
  str_eqb (strip line) (lit ")") || str_eqb (strip line) (lit ");").

(** The state after lines that do not close the list of columns: headers and
    converted columns have been added, nothing else. *)
Definition extends (st st' : Convert.conv_state) (heads cols : list str)
  : Prop :=
  Convert.result_lines st' = Convert.result_lines st ++ heads /\
  Convert.column_definitions st' = Convert.column_definitions st ++ cols /\
  Forall (fun h => startswith (lit "CREATE TABLE ") h = true) heads /\
  Forall (fun c => truthy (strip c) = true) cols.

(** A line of the list of columns that holds a column: not blank, no
    comment, no option that is skipped, no constraint, and not a comma
    alone. *)
Definition column_line (line : str) : bool :=
  let line := strip line in
  truthy line &&
  negb (startswith (lit "--") line) &&
  negb (existsb (fun keyword => contains keyword (upper line))
          [lit "PARTITION BY"; lit "AUDIT"; lit "DATA CAPTURE"; lit "CCSID"]) &&
  negb (existsb (fun p => startswith p (upper line))
          [lit "CONSTRAINT"; lit "PRIMARY KEY"; lit "UNIQUE"; lit "CHECK"]) &&
  negb (str_eqb line (lit ",")).

(** The definition of the column on a line: the line without the white space
    around it and without the comma at its end. *)
Definition column_text (line : str) : str :=
  let line := strip line in
  if endswith (lit ",") line then removelast line else line.

(** The columns of the lines, converted in order. *)
Fixpoint convert_columns (table_name : str) (lines : list str)
  : Convert.Log (list str) :=
  match lines with
  | [] => Convert.ret []
  | line :: rest =>
      Convert.bind
        (Convert.parse_column_definition (column_text line) table_name)
        (fun col =>
           Convert.bind (convert_columns table_name rest)
             (fun cols => Convert.ret (col :: cols)))
  end.

(** The lines of the columns in the converted text: two blanks before each
    and a comma after each but the last. *)
Definition with_commas (cols : list str) : list str :=
  match cols with
  | [] => []
  | _ :: _ =>
      map (fun col => lit "  " ++ col ++ lit ",") (removelast cols) ++
      [lit "  " ++ last cols []]
  end.

(** Inputs on which the further properties are shown to apply. *)
Definition plain_input : str := text_of_lines [
  "CREATE TABLE T1 (";
  "  A INT";
  ");"]%string.

Definition line_commented_input : str := text_of_lines [
  "CREATE TABLE T1 ( -- first";
  "  A INT";
  ");"]%string.

Definition lower_case_statement : str := text_of_lines [
  "create table app.account (";
  "id int";
  ");"]%string.

Definition unclosed_statement : str := text_of_lines [
  "CREATE TABLE APP.T (";
  "  A INT NOT NULL";
  ") IN DB1.TS1;"]%string.

Definition keyed_statement : str := text_of_lines [
  "CREATE TABLE APP.T (";
  "  A INT NOT NULL,";
  "  B CHAR(3),";
  "  PRIMARY KEY (A)";
  ");";
  "COMMIT;"]%string.

(* ================================================================= *)
(** ** Lemmas *)

Import Convert.

(* ----------------------------------------------------------------- *)
(** *** Facts about the string operations *)

Lemma take_drop_while p (s : str) : take_while p s ++ drop_while p s = s.
Proof.
  induction s as [|c s IH]; simpl; [reflexivity|].
  destruct (p c); simpl; [rewrite IH|]; reflexivity.
Qed.

Lemma drop_while_idem p (s : str) : drop_while p (drop_while p s) = drop_while p s.
Proof.
  induction s as [|c s IH]; simpl; [reflexivity|].
  destruct (p c) eqn:E; [exact IH | simpl; rewrite E; reflexivity].
Qed.

Lemma drop_while_snoc p (a : str) c :
  p c = false -> drop_while p (a ++ [c]) = drop_while p a ++ [c].
Proof.
  intros Hc. induction a as [|d a IH]; simpl.
  - rewrite Hc. reflexivity.
  - destruct (p d); [exact IH | reflexivity].
Qed.

Lemma drop_while_head p (s : str) :
  match drop_while p s with [] => True | c :: _ => p c = false end.
Proof.
  induction s as [|c s IH]; simpl; [exact I|].
  destruct (p c) eqn:E; [exact IH | exact E].
Qed.

Lemma drop_while_In p (s : str) c : In c (drop_while p s) -> In c s.
Proof.
  induction s as [|d s IH]; simpl; [tauto|].
  destruct (p d); [auto | simpl; tauto].
Qed.

Lemma rstrip_prefix (s : str) : exists t, s = rstrip s ++ t.
Proof.
  unfold rstrip. exists (rev (take_while isspace (rev s))).
  rewrite <- rev_app_distr, take_drop_while, rev_involutive. reflexivity.
Qed.

Lemma rstrip_idem (s : str) : rstrip (rstrip s) = rstrip s.
Proof. unfold rstrip. rewrite rev_involutive, drop_while_idem. reflexivity. Qed.

Lemma lstrip_rstrip (s : str) :
  match s with [] => True | c :: _ => isspace c = false end ->
  lstrip (rstrip s) = rstrip s.
Proof.
  destruct s as [|c s]; intros H; [reflexivity|].
  unfold rstrip. simpl rev. rewrite drop_while_snoc by exact H.
  rewrite rev_app_distr. simpl. unfold lstrip. simpl. rewrite H. reflexivity.
Qed.

Lemma strip_idem (s : str) : strip (strip s) = strip s.
Proof.
  unfold strip. rewrite lstrip_rstrip.
  - apply rstrip_idem.
  - apply drop_while_head.
Qed.

Lemma strip_In (s : str) c : In c (strip s) -> In c s.
Proof.
  unfold strip, rstrip, lstrip. intros H.
  apply in_rev in H. apply drop_while_In in H. apply in_rev in H.
  apply drop_while_In in H. exact H.
Qed.

Lemma startswith_app (p s t : str) :
  startswith p s = true -> startswith p (s ++ t) = true.
Proof.
  revert s. induction p as [|a p IH]; intros [|b s] H; simpl in *;
    try reflexivity; try discriminate.
  apply andb_true_iff in H. destruct H as [H1 H2].
  rewrite H1. simpl. auto.
Qed.

Lemma startswith_length (p s : str) :
  startswith p s = true -> length p <= length s.
Proof.
  revert s. induction p as [|a p IH]; intros [|b s] H; simpl in *;
    try lia; try discriminate.
  apply andb_true_iff in H. destruct H as [_ H]. apply IH in H. lia.
Qed.

Lemma find_bound (sub s : str) n :
  find sub s = Some n -> n + length sub <= length s.
Proof.
  revert n. induction s as [|c s IH]; intros n H; simpl in H.
  - destruct (startswith sub []) eqn:E; [|discriminate].
    inversion H; subst. apply startswith_length in E. simpl in *. lia.
  - destruct (startswith sub (c :: s)) eqn:E.
    + inversion H; subst. apply startswith_length in E. simpl in *. lia.
    + destruct (find sub s) as [k|]; [|discriminate].
      inversion H; subst. specialize (IH k eq_refl). simpl. lia.
Qed.

(** An occurrence in a prefix is found in the whole text, not further right. *)
Lemma find_app_le (sub a b : str) n :
  find sub a = Some n -> exists n', find sub (a ++ b) = Some n' /\ n' <= n.
Proof.
  revert n. induction a as [|c a IH]; intros n H.
  - simpl in H. destruct (startswith sub []) eqn:E; [|discriminate].
    inversion H; subst. exists 0. split; [|lia].
    destruct sub; [|discriminate]. destruct b; reflexivity.
  - simpl in H. simpl app.
    destruct (startswith sub (c :: a)) eqn:E.
    + inversion H; subst. exists 0. split; [|lia].
      simpl. change (c :: a ++ b) with ((c :: a) ++ b).
      rewrite (startswith_app _ _ b E). reflexivity.
    + destruct (find sub a) as [k|] eqn:Ek; [|discriminate].
      inversion H; subst. destruct (IH k eq_refl) as (n' & Hn' & Hle).
      simpl. destruct (startswith sub (c :: a ++ b)).
      * exists 0. split; [reflexivity | lia].
      * rewrite Hn'. exists (S n'). split; [reflexivity | lia].
Qed.

Lemma find_app_none (sub a b : str) :
  find sub (a ++ b) = None -> find sub a = None.
Proof.
  intros H. destruct (find sub a) as [n|] eqn:E; [|reflexivity].
  destruct (find_app_le _ _ b E) as (n' & Hn' & _). congruence.
Qed.

(** Nothing is found before the place [find] returns. *)
Lemma find_firstn (sub s : str) n :
  sub <> [] -> find sub s = Some n -> find sub (firstn n s) = None.
Proof.
  intros Hsub H. destruct (find sub (firstn n s)) as [k|] eqn:E; [|reflexivity].
  exfalso. pose proof (find_bound _ _ E) as Hb.
  destruct (find_app_le _ _ (skipn n s) E) as (n' & Hn' & Hle).
  rewrite firstn_skipn in Hn'. rewrite H in Hn'. inversion Hn'; subst.
  rewrite length_firstn in Hb. destruct sub; [congruence|]. simpl in Hb. lia.
Qed.

Lemma split_nonempty sep (s : str) : split sep s <> [].
Proof.
  destruct s as [|c s]; simpl; [discriminate|].
  destruct (Ascii.eqb c sep); [discriminate|].
  destruct (split sep s); discriminate.
Qed.

Lemma join_cons sep (l : str) (ls : list str) :
  ls <> [] -> join sep (l :: ls) = l ++ sep ++ join sep ls.
Proof. destruct ls; [congruence | reflexivity]. Qed.

Lemma join_split sep (s : str) : join [sep] (split sep s) = s.
Proof.
  induction s as [|c s IH]; simpl; [reflexivity|].
  destruct (Ascii.eqb c sep) eqn:E.
  - apply Ascii.eqb_eq in E. subst c.
    rewrite join_cons by apply split_nonempty. simpl. rewrite IH. reflexivity.
  - pose proof (split_nonempty sep s) as Hn.
    destruct (split sep s) as [|l ls]; [congruence|].
    destruct ls as [|l2 ls].
    + simpl in *. rewrite IH. reflexivity.
    + rewrite join_cons by discriminate. rewrite join_cons in IH by discriminate.
      rewrite <- IH. reflexivity.
Qed.

Lemma split_no_sep sep (l : str) : ~ In sep l -> split sep l = [l].
Proof.
  induction l as [|c l IH]; simpl; intros H; [reflexivity|].
  destruct (Ascii.eqb c sep) eqn:E.
  - apply Ascii.eqb_eq in E. subst. exfalso. auto.
  - rewrite IH by auto. reflexivity.
Qed.

Lemma split_app_sep sep (l rest : str) :
  ~ In sep l -> split sep (l ++ sep :: rest) = l :: split sep rest.
Proof.
  induction l as [|c l IH]; simpl; intros H.
  - rewrite Ascii.eqb_refl. reflexivity.
  - destruct (Ascii.eqb c sep) eqn:E.
    + apply Ascii.eqb_eq in E. subst. exfalso. auto.
    + rewrite IH by auto. reflexivity.
Qed.

Lemma split_join sep (ls : list str) :
  ls <> [] -> Forall (fun l => ~ In sep l) ls -> split sep (join [sep] ls) = ls.
Proof.
  induction ls as [|l ls IH]; intros Hn Hf; [congruence|].
  inversion Hf; subst.
  destruct ls as [|l2 ls].
  - simpl. apply split_no_sep. assumption.
  - rewrite join_cons by discriminate. simpl app.
    rewrite split_app_sep by assumption.
    f_equal. apply IH; [discriminate | assumption].
Qed.

Lemma split_lines_no_sep sep (s : str) : Forall (fun l => ~ In sep l) (split sep s).
Proof.
  induction s as [|c s IH]; simpl.
  - constructor; [intros []| constructor].
  - destruct (Ascii.eqb c sep) eqn:E.
    + constructor; [intros [] | exact IH].
    + destruct (split sep s) as [|l ls]; [constructor; [|constructor]|].
      * intros [H|[]]. subst. rewrite Ascii.eqb_refl in E. discriminate.
      * inversion IH; subst. constructor; [|assumption].
        intros [H|H]; [subst; rewrite Ascii.eqb_refl in E; discriminate | auto].
Qed.

Lemma upper_app (a b : str) : upper (a ++ b) = upper a ++ upper b.
Proof. apply flat_map_app. Qed.

Lemma upper_cons c (s : str) : upper (c :: s) = upper_char c ++ upper s.
Proof. reflexivity. Qed.

Lemma upper_char_cases (c : ascii) :
  (c = sharp_s /\ upper_char c = ["S"%char; "S"%char]) \/
  (c <> sharp_s /\ upper_char c = [to_upper c]).
Proof.
  unfold upper_char. destruct (Ascii.eqb c sharp_s) eqn:E.
  - left. apply Ascii.eqb_eq in E. auto.
  - right. apply Ascii.eqb_neq in E. auto.
Qed.

(** Upper-casing never shortens a text. *)
Lemma upper_length_le (s : str) : length s <= length (upper s).
Proof.
  induction s as [|c s IH]; [apply le_n|].
  rewrite upper_cons, length_app. cbn [length].
  destruct (upper_char_cases c) as [[_ ->]|[_ ->]]; cbn [length]; lia.
Qed.

(** A text whose upper case has its length holds no sharp s: it is mapped
    character by character, and so is every part of it. *)
Lemma upper_same_length_app (a b : str) :
  length (upper (a ++ b)) = length (a ++ b) ->
  length (upper a) = length a /\ length (upper b) = length b.
Proof.
  rewrite upper_app, !length_app. intros H.
  pose proof (upper_length_le a). pose proof (upper_length_le b). lia.
Qed.

Lemma upper_same_length (s : str) :
  length (upper s) = length s -> upper s = map to_upper s.
Proof.
  induction s as [|c s IH]; [reflexivity|]. intros H.
  change (c :: s) with ([c] ++ s) in H. apply upper_same_length_app in H.
  destruct H as [Hc Hs]. rewrite upper_cons, (IH Hs). cbn [map].
  destruct (upper_char_cases c) as [[_ E]|[_ E]].
  - unfold upper in Hc. cbn [flat_map] in Hc. rewrite app_nil_r, E in Hc. discriminate.
  - rewrite E. reflexivity.
Qed.

Lemma first_word_cons (c : ascii) (s : str) :
  isspace c = false ->
  first_word (c :: s) = c :: take_while (fun c => negb (isspace c)) s.
Proof. intros H. unfold first_word. simpl. rewrite H. simpl. rewrite H. reflexivity. Qed.

Lemma split_ws_hd (s : str) : hd [] (split_ws s) = first_word s.
Proof.
  induction s as [|c s IH]; [reflexivity|].
  destruct (isspace c) eqn:Ec.
  - simpl. rewrite Ec. rewrite IH. unfold first_word. simpl. rewrite Ec. reflexivity.
  - rewrite (first_word_cons _ _ Ec). cbn [split_ws]. rewrite Ec.
    destruct s as [|c' s]; [reflexivity|].
    destruct (isspace c') eqn:Ec'.
    + simpl. rewrite Ec'. reflexivity.
    + rewrite (first_word_cons _ _ Ec') in IH.
      destruct (split_ws (c' :: s)) as [|t ts]; simpl in IH.
      * discriminate.
      * subst t. simpl. rewrite Ec'. reflexivity.
Qed.


Lemma isspace_to_lower (c : ascii) : isspace (to_lower c) = isspace c.
Proof. destruct c as [[] [] [] [] [] [] [] []]; reflexivity. Qed.

Lemma isspace_to_upper (c : ascii) : isspace (to_upper c) = isspace c.
Proof. destruct c as [[] [] [] [] [] [] [] []]; reflexivity. Qed.

Lemma nonspace_count_app (a b : str) :
  nonspace_count (a ++ b) = nonspace_count a + nonspace_count b.
Proof. unfold nonspace_count. rewrite filter_app, length_app. reflexivity. Qed.

Lemma nonspace_count_upper (s : str) : nonspace_count s <= nonspace_count (upper s).
Proof.
  induction s as [|c s IH]; [apply le_n|].
  rewrite upper_cons. change (c :: s) with ([c] ++ s). rewrite !nonspace_count_app.
  assert (Hc : nonspace_count [c] <= nonspace_count (upper_char c)); [|lia].
  destruct (upper_char_cases c) as [[-> ->]|[_ ->]]; [vm_compute; lia|].
  unfold nonspace_count. cbn [filter]. rewrite isspace_to_upper.
  destruct (isspace c); apply le_n.
Qed.

Lemma nonspace_count_drop (s : str) :
  nonspace_count (drop_while isspace s) = nonspace_count s.
Proof.
  unfold nonspace_count. induction s as [|c s IH]; simpl; [reflexivity|].
  destruct (isspace c) eqn:E; simpl; [exact IH | rewrite E; reflexivity].
Qed.

Lemma nonspace_count_rev (s : str) : nonspace_count (rev s) = nonspace_count s.
Proof.
  induction s as [|c s IH]; [reflexivity|]. simpl rev.
  rewrite nonspace_count_app, IH. change (c :: s) with ([c] ++ s).
  rewrite nonspace_count_app. lia.
Qed.

Lemma nonspace_count_strip (s : str) : nonspace_count (strip s) = nonspace_count s.
Proof.
  unfold strip, rstrip, lstrip.
  rewrite nonspace_count_rev, nonspace_count_drop, nonspace_count_rev.
  apply nonspace_count_drop.
Qed.

(* ----------------------------------------------------------------- *)
(** *** The matcher finds a match exactly when the pattern has one *)

Section Sound.
Variable A : Type.
Variable ic : bool.

Lemma star_loop_sound (r : regex) (g : bool)
  (body : mstate -> (mstate -> option A) -> option A) (k : mstate -> option A) :
  (forall st k' x, body st k' = Some x ->
     exists st', matches ic r st st' /\ k' st' = Some x) ->
  forall fuel st0 x, star_loop body g k fuel st0 = Some x ->
    exists st', matches ic (Star g r) st0 st' /\ k st' = Some x.
Proof.
  intros Hbody. induction fuel as [|fuel IH]; intros st0 x H; simpl in H.
  - exists st0. split; [constructor | exact H].
  - assert (Hiter : forall y,
      body st0 (fun st1 => if progress st0 st1
                           then star_loop body g k fuel st1 else None) = Some y ->
      exists st', matches ic (Star g r) st0 st' /\ k st' = Some y).
    { intros y Hy. apply Hbody in Hy. destruct Hy as (st1 & Hm & Hk).
      destruct (progress st0 st1) eqn:Hp; [|discriminate].
      apply IH in Hk. destruct Hk as (st' & Hs & Hk).
      exists st'. split; [|exact Hk]. eapply M_StarS; eauto. }
    destruct g.
    + destruct (body st0 _) as [y|] eqn:Hb.
      * inversion H; subst. apply Hiter. reflexivity.
      * exists st0. split; [constructor | exact H].
    + destruct (k st0) as [y|] eqn:Hk0.
      * inversion H; subst. exists st0. split; [constructor | exact Hk0].
      * apply Hiter. exact H.
Qed.

Lemma m_sound : forall r st (k : mstate -> option A) x,
  m ic r st k = Some x ->
  exists st', matches ic r st st' /\ k st' = Some x.
Proof.
  induction r as [|c|p|r1 IH1 r2 IH2|r1 IH1 r2 IH2|g r IH|n r IH|];
    intros st k x H; cbn [m] in H.
  - exists st. split; [constructor | exact H].
  - destruct (m_rest st) as [|d rest] eqn:Hr; [discriminate|].
    destruct (chr_eq ic c d) eqn:Hc; [|discriminate].
    eexists. split; [econstructor; eauto | exact H].
  - destruct (m_rest st) as [|d rest] eqn:Hr; [discriminate|].
    destruct (p d) eqn:Hc; [|discriminate].
    eexists. split; [econstructor; eauto | exact H].
  - apply IH1 in H. destruct H as (st1 & H1 & H).
    apply IH2 in H. destruct H as (st2 & H2 & H).
    exists st2. split; [econstructor; eauto | exact H].
  - destruct (m ic r1 st k) as [y|] eqn:H1.
    + inversion H; subst. apply IH1 in H1. destruct H1 as (st1 & H1 & Hk).
      exists st1. split; [apply M_AltL; exact H1 | exact Hk].
    + apply IH2 in H. destruct H as (st1 & H2 & Hk).
      exists st1. split; [apply M_AltR; exact H2 | exact Hk].
  - eapply star_loop_sound; [|exact H]. intros; eapply IH; eauto.
  - apply IH in H. destruct H as (st1 & H1 & H).
    eexists. split; [econstructor; eauto | exact H].
  - destruct (xorb _ _) eqn:Hx; [|discriminate].
    exists st. split; [constructor; exact Hx | exact H].
Qed.

Lemma star_loop_complete (r : regex) (g : bool)
  (body : mstate -> (mstate -> option A) -> option A) (k : mstate -> option A) :
  (forall st st', matches ic r st st' ->
     forall k', k' st' <> None -> body st k' <> None) ->
  forall fuel st0 st', matches ic (Star g r) st0 st' ->
    length (m_rest st0) < fuel -> k st' <> None ->
    star_loop body g k fuel st0 <> None.
Proof.
  intros Hbody. induction fuel as [|fuel IH]; intros st0 st' Hm Hf Hk.
  - lia.
  - simpl. inversion Hm; subst.
    + destruct g.
      * destruct (body st' _); [discriminate | exact Hk].
      * destruct (k st'); [discriminate | congruence].
    + assert (Hiter :
        body st0 (fun st1 => if progress st0 st1
                             then star_loop body g k fuel st1 else None) <> None).
      { eapply Hbody; [eassumption|]. rewrite H2.
        eapply IH; [eassumption | | exact Hk].
        unfold progress in H2. apply Nat.ltb_lt in H2. lia. }
      destruct g.
      * destruct (body st0 _); [discriminate | congruence].
      * destruct (k st0); [discriminate | exact Hiter].
Qed.

Lemma m_complete : forall r st st', matches ic r st st' ->
  forall k : mstate -> option A, k st' <> None -> m ic r st k <> None.
Proof.
  induction r as [|c|p|r1 IH1 r2 IH2|r1 IH1 r2 IH2|g r IH|n r IH|];
    intros st st' Hm k Hk; cbn [m]; inversion Hm; subst.
  - exact Hk.
  - match goal with
    | Hr : m_rest st = _, Hc : chr_eq _ _ _ = true |- _ => rewrite Hr, Hc
    end. exact Hk.
  - match goal with
    | Hr : m_rest st = _, Hc : p _ = true |- _ => rewrite Hr, Hc
    end. exact Hk.
  - eapply IH1; [eassumption|]. eapply IH2; eassumption.
  - match goal with
    | Hl : matches _ r1 _ _ |- _ => pose proof (IH1 _ _ Hl k Hk) as Hn
    end.
    destruct (m ic r1 st k); [discriminate | congruence].
  - destruct (m ic r1 st k); [discriminate|]. eapply IH2; eassumption.
  - eapply star_loop_complete; [| exact Hm | lia | exact Hk].
    intros; eapply IH; eassumption.
  - eapply star_loop_complete; [| exact Hm | lia | exact Hk].
    intros; eapply IH; eassumption.
  - eapply IH; [eassumption | exact Hk].
  - match goal with Hx : xorb _ _ = true |- _ => rewrite Hx end. exact Hk.
Qed.

End Sound.

Lemma matches_seq_inv ic r1 r2 st st2 :
  matches ic (Seq r1 r2) st st2 ->
  exists st1, matches ic r1 st st1 /\ matches ic r2 st1 st2.
Proof. inversion 1; subst; eauto. Qed.

Lemma matches_chr_inv ic c st st' :
  matches ic (Chr c) st st' ->
  exists d rest, m_rest st = d :: rest /\ chr_eq ic c d = true /\
                 st' = advance d rest st.
Proof. inversion 1; subst; eauto 6. Qed.

Lemma matches_cls_inv ic p st st' :
  matches ic (Cls p) st st' ->
  exists d rest, m_rest st = d :: rest /\ p d = true /\ st' = advance d rest st.
Proof. inversion 1; subst; eauto 6. Qed.

Lemma matches_grp_inv ic n r st st' :
  matches ic (Grp n r) st st' ->
  exists st1, matches ic r st st1 /\ st' = set_cap n (consumed st st1) st1.
Proof. inversion 1; subst; eauto. Qed.

Lemma matches_eps_inv ic st st' : matches ic Eps st st' -> st' = st.
Proof. inversion 1; subst; auto. Qed.

Lemma matches_rest ic r st st' :
  matches ic r st st' -> exists t, m_rest st = t ++ m_rest st'.
Proof.
  induction 1.
  - exists []. reflexivity.
  - exists [d]. simpl. assumption.
  - exists [d]. simpl. assumption.
  - destruct IHmatches1 as [t1 E1], IHmatches2 as [t2 E2].
    exists (t1 ++ t2). rewrite E1, E2, app_assoc. reflexivity.
  - assumption.
  - assumption.
  - exists []. reflexivity.
  - destruct IHmatches1 as [t1 E1], IHmatches2 as [t2 E2].
    exists (t1 ++ t2). rewrite E1, E2, app_assoc. reflexivity.
  - assumption.
  - exists []. reflexivity.
Qed.

Lemma matches_length ic r st st' :
  matches ic r st st' -> length (m_rest st') <= length (m_rest st).
Proof.
  intros H. apply matches_rest in H. destruct H as [t E].
  rewrite E, length_app. lia.
Qed.

Lemma matches_caps ic r st st' :
  matches ic r st st' -> no_grp r = true -> m_caps st' = m_caps st.
Proof.
  induction 1; simpl; intros Hg; try reflexivity;
    try (apply andb_true_iff in Hg; destruct Hg as [Hg1 Hg2]).
  - rewrite IHmatches2, IHmatches1; auto.
  - auto.
  - auto.
  - rewrite IHmatches2, IHmatches1; auto.
  - discriminate.
Qed.

Lemma consumed_ext x st st' :
  length (m_rest st') <= length (m_rest st) ->
  consumed (ext x st) (ext x st') = consumed st st'.
Proof.
  intros Hl. unfold consumed, ext. simpl. rewrite !length_app.
  replace (length (m_rest st) + length x - (length (m_rest st') + length x))
    with (length (m_rest st) - length (m_rest st')) by lia.
  rewrite firstn_app.
  replace (length (m_rest st) - length (m_rest st') - length (m_rest st)) with 0 by lia.
  simpl. apply app_nil_r.
Qed.

Lemma matches_ext ic x r st st' :
  matches ic r st st' -> no_wb r = true -> matches ic r (ext x st) (ext x st').
Proof.
  induction 1; simpl; intros Hw;
    try (apply andb_true_iff in Hw; destruct Hw as [Hw1 Hw2]).
  - constructor.
  - change (ext x (advance d rest st)) with (advance d (rest ++ x) (ext x st)).
    constructor; [|assumption]. simpl. rewrite H. reflexivity.
  - change (ext x (advance d rest st)) with (advance d (rest ++ x) (ext x st)).
    constructor; [|assumption]. simpl. rewrite H. reflexivity.
  - econstructor; eauto.
  - apply M_AltL; auto.
  - apply M_AltR; auto.
  - constructor.
  - eapply M_StarS; eauto.
    unfold progress in *. simpl. rewrite !length_app.
    apply Nat.ltb_lt in H0. apply Nat.ltb_lt. lia.
  - replace (ext x (set_cap n (consumed st st1) st1))
      with (set_cap n (consumed (ext x st) (ext x st1)) (ext x st1)).
    + constructor. auto.
    + rewrite consumed_ext; [reflexivity|]. eapply matches_length; eauto.
  - discriminate.
Qed.

(** Repetition of a class over a run of its characters. *)
Lemma matches_star_run ic g p (t : str) : Forall (fun c => p c = true) t ->
  forall prev rest caps, exists prev',
  matches ic (Star g (Cls p)) (MState prev (t ++ rest) caps)
    (MState prev' rest caps).
Proof.
  induction 1 as [|c t Hc Ht IH]; intros prev rest caps; simpl.
  - exists prev. constructor.
  - destruct (IH (Some c) rest caps) as [prev' IH'].
    exists prev'. eapply M_StarS; [| |exact IH'].
    + eapply M_Cls with (d := c) (rest := t ++ rest); [reflexivity | exact Hc].
    + unfold progress, advance. simpl. apply Nat.ltb_lt. lia.
Qed.

(** A literal word consumes as many characters as it has, each one equal to
    its own up to case. *)
Lemma matches_lit_inv ic (w : str) : forall st st',
  matches ic (Lit w) st st' ->
  exists t, m_rest st = t ++ m_rest st' /\ Forall2 (fun c d => chr_eq ic c d = true) w t.
Proof.
  induction w as [|c w IH]; intros st st' H.
  - apply matches_eps_inv in H. subst. exists []. split; [reflexivity | constructor].
  - destruct w as [|c2 w].
    + apply matches_chr_inv in H. destruct H as (d & r & E & Hc & ->).
      exists [d]. split; [exact E | repeat constructor; exact Hc].
    + change (Lit (c :: c2 :: w)) with (Seq (Chr c) (Lit (c2 :: w))) in H.
      apply matches_seq_inv in H. destruct H as (s1 & H1 & H2).
      apply matches_chr_inv in H1. destruct H1 as (d & r & E & Hc & ->).
      apply IH in H2. destruct H2 as (t & E2 & Hf). simpl in E2.
      exists (d :: t). split; [rewrite E, E2; reflexivity | constructor; assumption].
Qed.

Lemma matches_plus_cls_inv ic p st st' :
  matches ic (Plus (Cls p)) st st' ->
  exists d t, m_rest st = d :: t ++ m_rest st' /\ p d = true.
Proof.
  unfold Plus. intros H.
  apply matches_seq_inv in H. destruct H as (s1 & H1 & H2).
  apply matches_cls_inv in H1. destruct H1 as (d & r & E & Hp & ->).
  apply matches_rest in H2. destruct H2 as [t E2]. simpl in E2.
  exists d, t. split; [rewrite E, E2; reflexivity | exact Hp].
Qed.

Lemma plus_consumed ic p st st' :
  matches ic (Plus (Cls p)) st st' -> consumed st st' <> [].
Proof.
  unfold Plus. intros H.
  apply matches_seq_inv in H. destruct H as (s1 & H1 & H2).
  apply matches_cls_inv in H1. destruct H1 as (d & r & E & _ & ->).
  apply matches_length in H2. simpl in H2.
  unfold consumed. rewrite E. simpl length.
  destruct (S (length r) - length (m_rest st')) eqn:En; [lia|]. discriminate.
Qed.

Lemma chr_eq_isspace (c d : ascii) :
  chr_eq true c d = true -> isspace d = isspace c.
Proof.
  unfold chr_eq. intros H. apply Ascii.eqb_eq in H.
  rewrite <- (isspace_to_lower d), <- (isspace_to_lower c), H. reflexivity.
Qed.

Lemma lit_nonspace_count (w t : str) :
  Forall2 (fun c d => chr_eq true c d = true) w t ->
  nonspace_count w <= nonspace_count t.
Proof.
  induction 1 as [|c d w t Hc Hf IH]; [reflexivity|].
  change (c :: w) with ([c] ++ w). change (d :: t) with ([d] ++ t).
  rewrite !nonspace_count_app. apply chr_eq_isspace in Hc.
  assert (Hd : nonspace_count [d] = nonspace_count [c])
    by (unfold nonspace_count; simpl; rewrite Hc; destruct (isspace c); reflexivity).
  lia.
Qed.

Lemma search_from_none ic r : forall s prev pos,
  search_from ic r prev pos s = None <->
  match_at ic r prev s = None /\
  match s with
  | [] => True
  | c :: s' => search_from ic r (Some c) (S pos) s' = None
  end.
Proof.
  intros s prev pos. destruct s as [|c s']; simpl.
  - destruct (match_at ic r prev []); split; intros; try discriminate; intuition congruence.
  - destruct (match_at ic r prev (c :: s')); split; intros H;
      try discriminate; try (destruct H; discriminate); intuition.
Qed.

Lemma search_from_some ic r : forall s prev pos mt,
  search_from ic r prev pos s = Some mt ->
  exists prev' pos' s' st,
    match_at ic r prev' s' = Some st /\ mt = mk_match pos' s' st.
Proof.
  induction s as [|c s IH]; intros prev pos mt H; simpl in H.
  - destruct (match_at ic r prev []) eqn:E; [|discriminate].
    inversion H; subst. eauto 6.
  - destruct (match_at ic r prev (c :: s)) eqn:E.
    + inversion H; subst. eauto 6.
    + eapply IH; eauto.
Qed.

Lemma search_from_found ic r prev pos (s : str) :
  match_at ic r prev s <> None -> search_from ic r prev pos s <> None.
Proof.
  intros H. destruct s; simpl; destruct (match_at ic r prev _); congruence.
Qed.

Lemma sub_go_noop ic r repl : forall s prev pos,
  search_from ic r prev pos s = None -> sub_go ic r repl prev 0 s = s.
Proof.
  induction s as [|c s IH]; intros prev pos H;
    apply search_from_none in H; destruct H as [H1 H2]; simpl.
  - rewrite H1. reflexivity.
  - rewrite H1. f_equal. eapply IH; eauto.
Qed.

Lemma re_sub_noop ic r repl s :
  re_search ic r s = None -> re_sub ic r repl s = s.
Proof. apply sub_go_noop. Qed.

(* ----------------------------------------------------------------- *)
(** *** Facts about the extractor *)

Lemma strip_line_comment_prefix (l : str) :
  exists t, l = Split.strip_line_comment l ++ t.
Proof.
  unfold Split.strip_line_comment.
  destruct (find (lit "--") l) as [n|].
  - destruct (rstrip_prefix (firstn n l)) as [t Ht].
    exists (t ++ skipn n l).
    replace (if truthy (rstrip (firstn n l)) then rstrip (firstn n l) else [])
      with (rstrip (firstn n l)) by (destruct (rstrip (firstn n l)); reflexivity).
    rewrite app_assoc, <- Ht, firstn_skipn. reflexivity.
  - exists []. rewrite app_nil_r. reflexivity.
Qed.

Lemma strip_line_comment_idem (l : str) :
  Split.strip_line_comment (Split.strip_line_comment l) = Split.strip_line_comment l.
Proof.
  unfold Split.strip_line_comment at 2 3.
  destruct (find (lit "--") l) as [n|] eqn:E.
  - replace (if truthy (rstrip (firstn n l)) then rstrip (firstn n l) else [])
      with (rstrip (firstn n l)) by (destruct (rstrip (firstn n l)); reflexivity).
    unfold Split.strip_line_comment.
    assert (Hn : find (lit "--") (rstrip (firstn n l)) = None).
    { destruct (rstrip_prefix (firstn n l)) as [t Ht].
      apply find_app_none with (b := t). rewrite <- Ht.
      apply find_firstn; [discriminate | exact E]. }
    rewrite Hn. reflexivity.
  - unfold Split.strip_line_comment. rewrite E. reflexivity.
Qed.

Lemma strip_lines_idem (y : str) :
  let L := fun y => join [nl] (map Split.strip_line_comment (split nl y)) in
  L (L y) = L y.
Proof.
  simpl. rewrite split_join.
  - rewrite map_map. f_equal. apply map_ext. intros l. apply strip_line_comment_idem.
  - pose proof (split_nonempty nl y). destruct (split nl y); [congruence | discriminate].
  - pose proof (split_lines_no_sep nl y) as H.
    induction H as [|l ls Hl _ IH]; simpl; constructor; [|exact IH].
    destruct (strip_line_comment_prefix l) as [t Ht].
    intros Hin. apply Hl. rewrite Ht. apply in_or_app. left. exact Hin.
Qed.

Lemma has_close_iff (t : str) :
  has_close t = true <-> exists mid r, t = mid ++ "*"%char :: "/"%char :: r.
Proof.
  split.
  - induction t as [|c t IH]; simpl; [discriminate|].
    destruct t as [|d t]; [discriminate|].
    intros H. apply orb_true_iff in H. destruct H as [H|H].
    + apply andb_true_iff in H. destruct H as [H1 H2].
      apply Ascii.eqb_eq in H1, H2. subst. exists [], t. reflexivity.
    + destruct (IH H) as (mid & r & E). exists (c :: mid), r. rewrite E. reflexivity.
  - intros (mid & r & E). subst t.
    induction mid as [|c mid IH]; simpl.
    + reflexivity.
    + destruct (mid ++ "*"%char :: "/"%char :: r) eqn:E; [destruct mid; discriminate|].
      rewrite IH. apply orb_true_r.
Qed.

Lemma has_close_cons c (t : str) : has_close t = true -> has_close (c :: t) = true.
Proof.
  intros H. simpl. destruct t; [discriminate|]. rewrite H. apply orb_true_r.
Qed.

Lemma match_at_block prev (s : str) :
  match_at false Split.block_comment_re prev s = None <-> starts_block s = false.
Proof.
  split.
  - intros H. destruct (starts_block s) eqn:E; [|reflexivity]. exfalso.
    destruct s as [|c1 [|c2 t]]; try discriminate. simpl in E.
    apply andb_true_iff in E. destruct E as [E E3].
    apply andb_true_iff in E. destruct E as [E1 E2].
    apply Ascii.eqb_eq in E1, E2. subst.
    apply has_close_iff in E3. destruct E3 as (mid & r & E3). subst t.
    assert (Hall : Forall (fun c => (fun _ : ascii => true) c = true) mid)
      by (apply Forall_forall; reflexivity).
    destruct (@matches_star_run false false (fun _ => true) mid Hall
                (Some "*"%char) ("*"%char :: "/"%char :: r) []) as [prev' Hs].
    revert H. eapply m_complete; [|discriminate].
    unfold Split.block_comment_re.
    eapply M_Seq. { eapply M_Chr; reflexivity. }
    eapply M_Seq. { eapply M_Chr; reflexivity. }
    eapply M_Seq. { exact Hs. }
    eapply M_Seq. { eapply M_Chr; reflexivity. }
    eapply M_Chr; reflexivity.
  - intros H. destruct (match_at false Split.block_comment_re prev s) eqn:E; [|reflexivity].
    exfalso. unfold match_at in E. apply m_sound in E. destruct E as (st' & Hm & _).
    unfold Split.block_comment_re in Hm.
    apply matches_seq_inv in Hm. destruct Hm as (s1 & H1 & Hm).
    apply matches_seq_inv in Hm. destruct Hm as (s2 & H2 & Hm).
    apply matches_seq_inv in Hm. destruct Hm as (s3 & H3 & Hm).
    apply matches_seq_inv in Hm. destruct Hm as (s4 & H4 & H5).
    apply matches_chr_inv in H1. destruct H1 as (d1 & r1 & E1 & Q1 & ->).
    apply matches_chr_inv in H2. destruct H2 as (d2 & r2 & E2 & Q2 & ->).
    apply matches_chr_inv in H4. destruct H4 as (d4 & r4 & E4 & Q4 & ->).
    apply matches_chr_inv in H5. destruct H5 as (d5 & r5 & E5 & Q5 & ->).
    apply matches_rest in H3. destruct H3 as [mid E3].
    unfold chr_eq in Q1, Q2, Q4, Q5.
    apply Ascii.eqb_eq in Q1, Q2, Q4, Q5. subst d1 d2 d4 d5.
    simpl in E1, E2, E3, E5. rewrite E4 in E3. subst s r1 r2 r4.
    simpl in H.
    rewrite (proj2 (has_close_iff _)) in H by eauto. discriminate.
Qed.

Lemma search_block_none : forall (s : str) prev pos,
  search_from false Split.block_comment_re prev pos s = None <->
  contains_block_comment s = false.
Proof.
  induction s as [|c s IH]; intros prev pos;
    rewrite search_from_none, match_at_block; cbn [contains_block_comment].
  - rewrite orb_false_r. tauto.
  - rewrite orb_false_iff, IH. tauto.
Qed.

(** The pattern of block comments matches nowhere exactly when the text
    holds no complete block comment. *)
Lemma re_search_block_none (s : str) :
  re_search false Split.block_comment_re s = None <->
  contains_block_comment s = false.
Proof. apply search_block_none. Qed.

Lemma cut_has_close (y' y : str) :
  cut y' y -> has_close y' = true -> has_close y = true.
Proof.
  induction 1 as [y|c y' y Hc IH|c y' y Hc IH]; intros H.
  - discriminate.
  - simpl in H. destruct y' as [|d y']; [discriminate|].
    apply orb_true_iff in H. destruct H as [H|H].
    + apply andb_true_iff in H. destruct H as [H1 H2].
      apply Ascii.eqb_eq in H1, H2. subst.
      inversion Hc; subst. reflexivity.
    + apply has_close_cons. auto.
  - apply has_close_cons. auto.
Qed.

Lemma cut_contains_block (y' y : str) :
  cut y' y -> contains_block_comment y' = true -> contains_block_comment y = true.
Proof.
  induction 1 as [y|c y' y Hc IH|c y' y Hc IH]; intros H.
  - discriminate.
  - cbn [contains_block_comment] in *.
    apply orb_true_iff in H. destruct H as [H|H].
    + apply orb_true_iff. left.
      destruct y' as [|d t']; [discriminate|]. simpl in H.
      apply andb_true_iff in H. destruct H as [H H3].
      apply andb_true_iff in H. destruct H as [H1 H2].
      apply Ascii.eqb_eq in H1, H2. subst.
      inversion Hc; subst. simpl.
      eapply cut_has_close; eauto.
    + apply orb_true_iff. right. auto.
  - cbn [contains_block_comment]. apply orb_true_iff. right. auto.
Qed.

Lemma cut_app_keep (a y' y : str) : cut y' y -> cut (a ++ y') (a ++ y).
Proof. intros H. induction a; simpl; [assumption | constructor; assumption]. Qed.

Lemma cut_app_drop (t y' y : str) : cut (nl :: y') y -> cut (nl :: y') (t ++ y).
Proof. intros H. induction t; simpl; [assumption | constructor; assumption]. Qed.

Lemma cut_lines (f : str -> str) : (forall l, exists t, l = f l ++ t) ->
  forall ls, cut (join [nl] (map f ls)) (join [nl] ls).
Proof.
  intros Hf. induction ls as [|l ls IH]; [constructor|].
  destruct (Hf l) as [t Ht].
  destruct ls as [|l2 ls].
  - simpl. rewrite Ht at 2. rewrite <- (app_nil_r (f l)) at 1.
    apply cut_app_keep. constructor.
  - change (map f (l :: l2 :: ls)) with (f l :: map f (l2 :: ls)).
    rewrite !join_cons by discriminate.
    rewrite Ht at 2. rewrite <- app_assoc. apply cut_app_keep.
    apply cut_app_drop. simpl. constructor. exact IH.
Qed.




(** A statement that is open runs to the end of a text that opens no other
    statement and ends it at its last line, if at all. *)

Lemma seg_step_inv st (l : str) : seg_inv st -> seg_inv (Split.seg_step st l).
Proof.
  intros [Hs Hc]. unfold Split.seg_step.
  destruct (truthy (strip l)); cbn [negb]; [|split; assumption].
  destruct (Split.starts_create_table (strip l)) eqn:Eo.
  - split; cbn [Split.statements Split.in_create_table Split.current_statement];
      [|intros _; exact Eo].
    destruct (Split.nonempty (Split.current_statement st) && Split.in_create_table st) eqn:E;
      [|exact Hs].
    apply andb_true_iff in E. destruct E as [_ E].
    apply Forall_app. split; [exact Hs|]. constructor; [|constructor]. eauto.
  - destruct (Split.in_create_table st) eqn:Ei; [|split; [assumption | congruence]].
    specialize (Hc eq_refl).
    assert (Ho : opened (Split.current_statement st ++ [strip l]))
      by (destruct (Split.current_statement st); [destruct Hc | exact Hc]).
    destruct ((Split.paren_count st + Split.paren_balance (strip l) <=? 0)%Z &&
              endswith (lit ";") (strip l));
      split; cbn [Split.statements Split.in_create_table Split.current_statement];
      try discriminate; auto.
    apply Forall_app. split; [exact Hs|]. constructor; [|constructor]. eauto.
Qed.

Lemma seg_fold_inv (lines : list str) : forall st,
  seg_inv st -> seg_inv (fold_left Split.seg_step lines st).
Proof.
  induction lines as [|l lines IH]; intros st H; simpl; [exact H|].
  apply IH. apply seg_step_inv. exact H.
Qed.

(** Every statement the segmenter returns starts with a line that matched the
    opening pattern. *)
Lemma extracted_opened (content statement : str) :
  In statement (Split.extract_create_table_statements content) ->
  exists ls, statement = join [nl] ls /\ opened ls.
Proof.
  unfold Split.extract_create_table_statements, Split.seg_finish.
  assert (Hi : seg_inv (fold_left Split.seg_step (split nl content) Split.seg_init)).
  { apply seg_fold_inv. split; [constructor | discriminate]. }
  destruct Hi as [Hs Hc]. intros H.
  destruct (Split.nonempty _ && Split.in_create_table _) eqn:E.
  - apply in_app_or in H. destruct H as [H|[H|[]]].
    + rewrite Forall_forall in Hs. auto.
    + apply andb_true_iff in E. destruct E as [_ E]. eauto.
  - rewrite Forall_forall in Hs. auto.
Qed.

Lemma join_opened_app (ls : list str) : opened ls ->
  exists l0 x, join [nl] ls = l0 ++ x /\ Split.starts_create_table l0 = true.
Proof.
  destruct ls as [|l0 ls]; [intros []|]. simpl opened. intros H.
  destruct ls as [|l1 ls].
  - exists l0, []. rewrite app_nil_r. auto.
  - exists l0, ([nl] ++ join [nl] (l1 :: ls)). rewrite join_cons by discriminate. auto.
Qed.

(** Where the opening pattern matches at the start of a line, the pattern of
    the table name matches at the start of any text the line starts. *)
Lemma table_re_at_start (l0 x : str) :
  Split.starts_create_table l0 = true ->
  match_at true Split.table_re None (l0 ++ x) <> None.
Proof.
  unfold Split.starts_create_table, re_match. intros H.
  destruct (match_at true Split.create_table_re None l0) as [st|] eqn:E;
    [clear H | discriminate].
  unfold match_at in E. apply m_sound in E. destruct E as (st' & Hm & _).
  unfold Split.create_table_re in Hm.
  apply matches_seq_inv in Hm. destruct Hm as (s1 & H1 & Hm).
  apply matches_seq_inv in Hm. destruct Hm as (s2 & H2 & _).
  assert (Ht : matches true Split.table_re (MState None l0 [])
                 (set_cap 1 (consumed s1 s2) s2)).
  { unfold Split.table_re. eapply M_Seq; [exact H1|]. constructor. exact H2. }
  apply (@matches_ext true x) in Ht; [|reflexivity].
  unfold match_at. eapply m_complete; [exact Ht | discriminate].
Qed.

Lemma table_re_group (mt : rmatch) (s : str) :
  re_search true Split.table_re s = Some mt -> group 1 mt <> [].
Proof.
  intros H. apply search_from_some in H.
  destruct H as (prev & pos & s' & st & Hm & ->).
  unfold match_at in Hm. apply m_sound in Hm. destruct Hm as (st' & Hm & Hk).
  inversion Hk; subst st'; clear Hk.
  unfold Split.table_re in Hm.
  apply matches_seq_inv in Hm. destruct Hm as (s1 & H1 & Hm).
  apply matches_grp_inv in Hm. destruct Hm as (s2 & H2 & ->).
  unfold group, mk_match. simpl. apply plus_consumed in H2. exact H2.
Qed.

Lemma schema_table_re_groups (mt : rmatch) (s : str) :
  re_search true Split.schema_table_re s = Some mt ->
  group 1 mt <> [] /\ group 2 mt <> [].
Proof.
  intros H. apply search_from_some in H.
  destruct H as (prev & pos & s' & st & Hm & ->).
  unfold match_at in Hm. apply m_sound in Hm. destruct Hm as (st' & Hm & Hk).
  inversion Hk; subst st'; clear Hk.
  unfold Split.schema_table_re in Hm.
  apply matches_seq_inv in Hm. destruct Hm as (s1 & H1 & Hm).
  apply matches_seq_inv in Hm. destruct Hm as (s2 & H2 & Hm).
  apply matches_seq_inv in Hm. destruct Hm as (s3 & H3 & Hm).
  apply matches_grp_inv in H2. destruct H2 as (s2' & H2 & ->).
  apply matches_chr_inv in H3. destruct H3 as (d & r & _ & _ & ->).
  apply matches_grp_inv in Hm. destruct Hm as (s4 & H4 & ->).
  pose proof (matches_caps H4 eq_refl) as Hcaps. simpl in Hcaps.
  apply plus_consumed in H2. apply plus_consumed in H4.
  unfold group, mk_match. simpl. rewrite Hcaps. simpl. split; assumption.
Qed.

Lemma seg_step_count st (l : str) :
  (Split.in_create_table st = true -> Split.current_statement st <> []) ->
  (Split.in_create_table (Split.seg_step st l) = true ->
   Split.current_statement (Split.seg_step st l) <> []) /\
  open_count (Split.seg_step st l) = open_count st + (if opens l then 1 else 0).
Proof.
  intros Hinv. unfold Split.seg_step, opens.
  destruct (truthy (strip l)); cbn [negb andb]; [|split; [exact Hinv | lia]].
  destruct (Split.starts_create_table (strip l)).
  - split; [discriminate|]. unfold open_count.
    cbn [Split.statements Split.current_statement Split.in_create_table
         Split.nonempty andb].
    destruct (Split.nonempty (Split.current_statement st) && Split.in_create_table st);
      [rewrite length_app; simpl|]; lia.
  - destruct (Split.in_create_table st) eqn:Ei;
      [|split; [rewrite Ei; discriminate | lia]].
    specialize (Hinv eq_refl).
    assert (Hn : Split.nonempty (Split.current_statement st) = true)
      by (destruct (Split.current_statement st); [congruence | reflexivity]).
    destruct ((Split.paren_count st + Split.paren_balance (strip l) <=? 0)%Z &&
              endswith (lit ";") (strip l)); unfold open_count;
      cbn [Split.statements Split.current_statement Split.in_create_table
           Split.nonempty andb]; rewrite ?Ei, ?Hn; cbn [andb].
    + split; [discriminate|]. rewrite length_app. simpl. lia.
    + split; [intros _; destruct (Split.current_statement st); discriminate|].
      destruct (Split.current_statement st); simpl; lia.
Qed.

Lemma seg_fold_count (lines : list str) : forall st,
  (Split.in_create_table st = true -> Split.current_statement st <> []) ->
  open_count (fold_left Split.seg_step lines st)
  = open_count st + length (filter opens lines).
Proof.
  induction lines as [|l lines IH]; intros st Hinv; simpl; [lia|].
  destruct (@seg_step_count st l Hinv) as [Hinv' Hc].
  rewrite (IH _ Hinv'), Hc. destruct (opens l); simpl; lia.
Qed.

(** The segmenter returns as many statements as the text has lines that open
    one. *)
Lemma segment_count (content : str) :
  length (Split.extract_create_table_statements content)
  = length (filter opens (split nl content)).
Proof.
  pose proof (@seg_fold_count (split nl content) Split.seg_init) as H.
  change (open_count Split.seg_init) with 0 in H. simpl in H.
  rewrite <- H by discriminate.
  unfold Split.extract_create_table_statements, Split.seg_finish, open_count.
  destruct (Split.nonempty _ && Split.in_create_table _);
    [rewrite length_app; simpl|]; lia.
Qed.


(* ----------------------------------------------------------------- *)
(** *** Facts about the transpiler *)

Lemma emits_ret (A : Type) (x : A) : emits (ret x) x [].
Proof. intros log. unfold ret. rewrite app_nil_r. reflexivity. Qed.

Lemma emits_bind (A B : Type) (c : Log A) (f : A -> Log B) x d y d' :
  emits c x d -> emits (f x) y d' -> emits (bind c f) y (d ++ d').
Proof.
  intros Hc Hf log. unfold bind. rewrite Hc, Hf, app_assoc. reflexivity.
Qed.

Lemma emits_log_issue (t c i s : str) :
  emits (log_issue t c i s) tt
    [MkIssue t c i (if 80 <? length s then firstn 80 s else s)].
Proof. intros log. reflexivity. Qed.

Lemma logs_with_ret (A : Type) P (x : A) : logs_with P (ret x).
Proof. exists x, []. split; [apply emits_ret | constructor]. Qed.

Lemma logs_with_bind (A B : Type) P (c : Log A) (f : A -> Log B) :
  logs_with P c -> (forall x, logs_with P (f x)) -> logs_with P (bind c f).
Proof.
  intros (x & d & Hc & Hd) Hf. destruct (Hf x) as (y & d' & Hy & Hd').
  exists y, (d ++ d'). split; [eapply emits_bind; eauto | apply Forall_app; auto].
Qed.

Lemma logs_with_log_issue (P : Issue -> Prop) (t c i s : str) :
  (forall s', P (MkIssue t c i s')) -> logs_with P (log_issue t c i s).
Proof.
  intros H. eexists _, _. split; [apply emits_log_issue | repeat constructor; apply H].
Qed.

(** The steps shared by the proofs that a function of the transpiler appends
    only issues of one kind. *)
Ltac log_step :=
  match goal with
  | |- logs_with _ (ret _) => apply logs_with_ret
  | |- logs_with _ (bind (log_issue _ _ _ _) _) =>
      apply logs_with_bind; [apply logs_with_log_issue; intros; reflexivity | intros]
  | |- logs_with _ (if ?b then _ else _) => destruct b
  | |- logs_with _ (match re_search ?a ?b ?c with _ => _ end) =>
      destruct (re_search a b c)
  end.

(** A conversion of a type returns its result and appends at most one issue,
    both fixed by the type, the table and the column. *)
Lemma convert_data_type_emits (db2_type table_name column_name : str) :
  exists ty d, emits (convert_data_type db2_type table_name column_name) ty d /\
    length d <= 1 /\
    Forall (fun i => i_table i = table_name /\ i_column i = column_name) d.
Proof.
  unfold convert_data_type. cbv zeta.
  repeat match goal with
  | |- context [if ?b then _ else _] => destruct b
  end;
  eexists _, _;
  (split; [first [ apply emits_ret
                 | eapply emits_bind; [apply emits_log_issue | apply emits_ret] ]
          | simpl; split; [lia | repeat constructor] ]).
Qed.

Lemma convert_data_type_logs t (db2_type column_name : str) :
  logs_with (of_table t) (convert_data_type db2_type t column_name).
Proof. unfold convert_data_type. cbv zeta. repeat log_step. Qed.

Lemma convert_data_type_quiet (db2_type table_name column_name : str) :
  logs_with not_ambiguous (convert_data_type db2_type table_name column_name).
Proof. unfold convert_data_type. cbv zeta. repeat log_step. Qed.

Lemma convert_data_type_normalized (t1 t2 table_name column_name : str) :
  upper (strip t1) = upper (strip t2) ->
  convert_data_type t1 table_name column_name =
  convert_data_type t2 table_name column_name.
Proof. intros H. unfold convert_data_type. rewrite H. reflexivity. Qed.


Lemma convert_default_value_logs t (default_expr column_name : str) :
  logs_with (of_table t) (convert_default_value default_expr t column_name).
Proof. unfold convert_default_value. cbv zeta. repeat log_step. Qed.

Lemma parse_column_logs t (column_def : str) :
  logs_with (of_table t) (parse_column column_def t).
Proof.
  unfold parse_column. cbv zeta.
  apply logs_with_bind; [apply convert_data_type_logs|]. intros ty.
  apply logs_with_bind; [|intros; apply logs_with_ret].
  destruct (re_search _ _ _); [apply convert_default_value_logs | apply logs_with_ret].
Qed.

Lemma parse_column_definition_logs t (column_def : str) :
  logs_with (of_table t) (parse_column_definition column_def t).
Proof.
  unfold parse_column_definition. cbv zeta.
  destruct (negb _); [apply logs_with_ret|].
  destruct (negb _); [apply logs_with_ret|].
  apply logs_with_bind; [apply parse_column_logs | intros; apply logs_with_ret].
Qed.

Lemma convert_lines_logs t (lines : list str) : forall st,
  logs_with (of_table t) (convert_lines t lines st).
Proof.
  induction lines as [|l lines IH]; intros st; cbn [convert_lines]; cbv zeta.
  - apply logs_with_ret.
  - repeat match goal with
    | |- logs_with _ (convert_lines _ _ _) => apply IH
    | |- logs_with _ (bind (parse_column_definition _ _) _) =>
        apply logs_with_bind; [apply parse_column_definition_logs | intros]
    | _ => log_step
    end.
Qed.

Lemma type_end_fold (column_def : str) (kws : list str) : forall init,
  fold_left (type_end_step column_def) kws init <= init /\
  forall kw p, In kw kws -> find kw (upper column_def) = Some p ->
    fold_left (type_end_step column_def) kws init <= p.
Proof.
  induction kws as [|k kws IH]; intros init; simpl.
  - split; [lia | intros ? ? []].
  - destruct (IH (type_end_step column_def init k)) as [IH1 IH2].
    assert (Hs : type_end_step column_def init k <= init).
    { unfold type_end_step. destruct (find k (upper column_def)) as [q|]; [|lia].
      destruct (q <? init) eqn:E; [apply Nat.ltb_lt in E|]; lia. }
    split; [lia|]. intros kw p [->|Hin] Hf.
    + assert (type_end_step column_def init kw <= p); [|lia].
      unfold type_end_step. rewrite Hf.
      destruct (p <? init) eqn:E; [lia | apply Nat.ltb_ge in E; lia].
    + eauto.
Qed.

Lemma keyword_nonempty (kw : str) : In kw type_end_keywords -> kw <> [].
Proof.
  unfold type_end_keywords. simpl.
  intros H; repeat (destruct H as [<-|H]; [discriminate|]); destruct H.
Qed.

(** Whatever the pattern of defaults matches holds a value after the two
    keywords. *)
Lemma default_match_count (s : str) (mt : rmatch) :
  re_search true default_re s = Some mt -> 12 <= nonspace_count (r_text mt).
Proof.
  intros H. apply search_from_some in H.
  destruct H as (prev & pos & s' & st & Hm & ->).
  unfold match_at in Hm. apply m_sound in Hm. destruct Hm as (st' & Hm & Hk).
  inversion Hk; subst st'; clear Hk.
  unfold default_re in Hm.
  apply matches_seq_inv in Hm. destruct Hm as (s1 & H1 & Hm).
  apply matches_seq_inv in Hm. destruct Hm as (s2 & H2 & Hm).
  apply matches_seq_inv in Hm. destruct Hm as (s3 & H3 & Hm).
  apply matches_seq_inv in Hm. destruct Hm as (s4 & H4 & Hm).
  apply matches_grp_inv in Hm. destruct Hm as (s5 & H5 & ->).
  apply matches_seq_inv in H5. destruct H5 as (s6 & H6 & H7).
  apply matches_lit_inv in H1. destruct H1 as (t1 & E1 & F1).
  apply matches_plus_cls_inv in H2. destruct H2 as (d2 & t2 & E2 & _).
  apply matches_lit_inv in H3. destruct H3 as (t3 & E3 & F3).
  apply matches_plus_cls_inv in H4. destruct H4 as (d4 & t4 & E4 & _).
  apply matches_plus_cls_inv in H6. destruct H6 as (d6 & t6 & E6 & P6).
  apply matches_rest in H7. destruct H7 as (t7 & E7).
  simpl in E1. rewrite E2, E3, E4, E6, E7 in E1.
  unfold mk_match, r_text. simpl m_rest.
  replace (firstn (length s' - length (m_rest s5)) s')
    with (t1 ++ d2 :: t2 ++ t3 ++ d4 :: t4 ++ d6 :: t6 ++ t7).
  - apply lit_nonspace_count in F1, F3.
    change (nonspace_count (lit "WITH")) with 4 in F1.
    change (nonspace_count (lit "DEFAULT")) with 7 in F3.
    change (d2 :: t2 ++ t3 ++ d4 :: t4 ++ d6 :: t6 ++ t7)
      with ([d2] ++ t2 ++ t3 ++ [d4] ++ t4 ++ [d6] ++ t6 ++ t7).
    rewrite !nonspace_count_app.
    assert (nonspace_count [d6] = 1).
    { unfold nonspace_count. simpl.
      apply negb_true_iff, orb_false_iff in P6. destruct P6 as [_ P6].
      rewrite P6. reflexivity. }
    lia.
  - rewrite E1.
    replace (t1 ++ d2 :: t2 ++ t3 ++ d4 :: t4 ++ d6 :: t6 ++ t7 ++ m_rest s5)
      with ((t1 ++ d2 :: t2 ++ t3 ++ d4 :: t4 ++ d6 :: t6 ++ t7) ++ m_rest s5)
      by (repeat (rewrite <- ?app_assoc, <- ?app_comm_cons); reflexivity).
    rewrite length_app, Nat.add_sub, firstn_app, Nat.sub_diag, firstn_all.
    simpl. rewrite app_nil_r. reflexivity.
Qed.

(** The text handed to [convert_default_value] by the column parser is never
    the bare keyword pair, so that the branch which reports it is not taken. *)
Lemma default_match_not_bare (s : str) (mt : rmatch) :
  re_search true default_re s = Some mt ->
  str_eqb (upper (strip (r_text mt))) (lit "WITH DEFAULT") = false.
Proof.
  intros H. apply default_match_count in H.
  unfold str_eqb. destruct (list_eq_dec ascii_dec _ _) as [E|]; [|reflexivity].
  exfalso.
  assert (Hc : nonspace_count (upper (strip (r_text mt))) = 11) by (rewrite E; reflexivity).
  pose proof (nonspace_count_upper (strip (r_text mt))) as Hu.
  rewrite nonspace_count_strip in Hu. lia.
Qed.

Lemma convert_default_value_quiet (default_expr table_name column_name : str) :
  str_eqb (upper (strip default_expr)) (lit "WITH DEFAULT") = false ->
  logs_with not_ambiguous (convert_default_value default_expr table_name column_name).
Proof.
  intros H. unfold convert_default_value. cbv zeta. rewrite H. repeat log_step.
Qed.

(** No column definition makes the column parser report a default without a
    value. *)
Lemma parse_column_definition_quiet (column_def table_name : str) :
  logs_with not_ambiguous (parse_column_definition column_def table_name).
Proof.
  unfold parse_column_definition. cbv zeta.
  destruct (negb _); [apply logs_with_ret|].
  destruct (negb _); [apply logs_with_ret|].
  apply logs_with_bind; [|intros; apply logs_with_ret].
  unfold parse_column. cbv zeta.
  apply logs_with_bind; [apply convert_data_type_quiet|]. intros ty.
  apply logs_with_bind; [|intros; apply logs_with_ret].
  destruct (re_search _ _ _) as [mt|] eqn:E; [|apply logs_with_ret].
  apply convert_default_value_quiet. eapply default_match_not_bare. exact E.
Qed.

(** Where the inline pattern matches, the word it captures is the whole
    result, whatever clause the statement holds besides. *)
Lemma inline_form_wins (statement : str) (mt : rmatch) :
  re_search true inline_pk_re statement = Some mt ->
  extract_primary_keys statement = [group 1 mt].
Proof. intros H. unfold extract_primary_keys. rewrite H. reflexivity. Qed.

(** The transpiler works line by line, one column definition on a line: of a
    statement written on one line it keeps the opening line only, and the
    inline pattern captures the first word of that line. *)
Remark statement_on_one_line_loses_columns :
  convert_db2_to_snowflake scenario1_one_line (lit "APP.ACCOUNT") []
  = (text_of_lines ["CREATE TABLE APP.ACCOUNT (";
                    "ALTER TABLE APP.ACCOUNT ADD PRIMARY KEY (CREATE);"]%string,
     []).
Proof. vm_compute. reflexivity. Qed.

(* ----------------------------------------------------------------- *)
(** *** Facts about the name of the table *)

Lemma find_none_cons (sub : str) c (s : str) :
  find sub (c :: s) = None -> startswith sub (c :: s) = false /\ find sub s = None.
Proof.
  simpl find. destruct (startswith sub (c :: s)) eqn:E; [discriminate|].
  destruct (find sub s); [discriminate | auto].
Qed.

Lemma find_none_suffix (sub a b : str) : find sub (a ++ b) = None -> find sub b = None.
Proof.
  induction a as [|c a IH]; simpl app; intros H; [exact H|].
  apply find_none_cons in H. apply IH, H.
Qed.

Lemma contains_false (sub s : str) : contains sub s = false <-> find sub s = None.
Proof. unfold contains. destruct (find sub s); split; congruence. Qed.

Lemma replace_go_cons (old new : str) c (s : str) :
  replace_go old new 0 (c :: s)
  = if startswith old (c :: s)
    then new ++ replace_go old new (length old - 1) s
    else c :: replace_go old new 0 s.
Proof. reflexivity. Qed.

Lemma replace_go_none (old new s : str) :
  find old s = None -> replace_go old new 0 s = s.
Proof.
  induction s as [|c s IH]; intros H; [reflexivity|].
  apply find_none_cons in H. destruct H as [H1 H2].
  rewrite replace_go_cons, H1, (IH H2). reflexivity.
Qed.

(** The first pair of underscores after a name that has none and does not end
    in an underscore is the one that follows it. *)
Lemma replace_separator (s t : str) :
  contains (lit "__") (s ++ lit "_") = false ->
  replace (lit "__") (lit ".") (s ++ lit "__" ++ t)
  = s ++ lit "." ++ replace (lit "__") (lit ".") t.
Proof.
  unfold replace. intros H. apply contains_false in H.
  induction s as [|c s IH].
  - reflexivity.
  - rewrite <- app_comm_cons in H. apply find_none_cons in H.
    destruct H as [H1 H2].
    assert (Hs : startswith (lit "__") (c :: s ++ lit "__" ++ t) = false).
    { destruct s as [|d s]; exact H1. }
    rewrite <- !app_comm_cons, replace_go_cons, Hs. f_equal. apply IH. exact H2.
Qed.

Lemma rfind_none c (s : str) : ~ In c s -> rfind c s = None.
Proof.
  induction s as [|d s IH]; intros H; [reflexivity|]. simpl.
  rewrite IH by (intros Hi; apply H; right; exact Hi).
  destruct (Ascii.eqb d c) eqn:E; [|reflexivity].
  apply Ascii.eqb_eq in E. subst. exfalso. apply H. left. reflexivity.
Qed.

Lemma rfind_last c (a b : str) :
  ~ In c b -> rfind c (a ++ c :: b) = Some (length a).
Proof.
  intros H. induction a as [|d a IH]; simpl.
  - rewrite (@rfind_none _ _ H), Ascii.eqb_refl. reflexivity.
  - rewrite IH. reflexivity.
Qed.

(** The stem of a name that ends in [.sql] is what stands before. *)
Lemma stem_sql (x : str) : x <> [] -> stem (x ++ lit ".sql") = x.
Proof.
  intros Hx. unfold stem.
  change (x ++ lit ".sql") with (x ++ "."%char :: lit "sql").
  rewrite rfind_last by (simpl; intros [H|[H|[H|[]]]]; discriminate).
  rewrite length_app. simpl length.
  destruct x as [|c x]; [congruence|]. simpl length.
  replace (0 <? S (length x)) with true by reflexivity.
  replace (S (length x) <? S (length x) + 4 - 1) with true
    by (symmetry; apply Nat.ltb_lt; lia).
  cbn [andb].
  change (S (length x)) with (length (c :: x)).
  rewrite firstn_app, Nat.sub_diag, firstn_all. simpl. rewrite app_nil_r. reflexivity.
Qed.

(** The table name taken from the name of a file of the extractor. *)
Lemma table_name_of_file_name (schema table : str) :
  contains (lit "__") (schema ++ lit "_") = false ->
  contains (lit "__") table = false ->
  replace (lit "__") (lit ".") (stem (schema ++ lit "__" ++ table ++ lit ".sql"))
  = schema ++ lit "." ++ table.
Proof.
  intros Hs Ht. rewrite !app_assoc, stem_sql.
  - rewrite <- !app_assoc, (@replace_separator _ _ Hs).
    unfold replace. rewrite replace_go_none by (apply contains_false; exact Ht).
    reflexivity.
  - destruct schema; discriminate.
Qed.

(* ================================================================= *)
(** ** The properties of the specification *)

(** C1: on the statement of Scenario 1, laid out one column on a line as in
    the self-tests of both scripts, the transpiler turns the type of
    [NAME], [VARCHAR(100) FOR SBCS DATA], into [VARCHAR(100)] and records
    nothing; the type of [CRT_TS], [TIMESTAMP], into [TIMESTAMP_NTZ] with the
    default clause [DEFAULT CURRENT_TIMESTAMP]; the type of [BAL],
    [DECIMAL(18,2)], into [NUMBER(18,2)]; the type of [NOTES], [CLOB(1M)],
    into [VARCHAR] with exactly one issue, the one for a possible loss of
    size; the primary key is [ACCOUNT_ID], found by the inline marker, and
    the last line of the result is
    [ALTER TABLE APP.ACCOUNT ADD PRIMARY KEY (ACCOUNT_ID);].  The same holds
    for the file of the self-test, whose header is kept. *)
Theorem scenario1_transpiled :
  let table := lit "APP.ACCOUNT" in
  (let (c, log) :=
     parse_column
       (lit "NAME VARCHAR(100) FOR SBCS DATA NOT NULL WITH DEFAULT ''") table [] in
   data_type_part c = lit "VARCHAR(100) FOR SBCS DATA" /\
   snowflake_type c = lit "VARCHAR(100)" /\ log = []) /\
  (let (c, log) :=
     parse_column
       (lit "CRT_TS TIMESTAMP NOT NULL WITH DEFAULT CURRENT TIMESTAMP") table [] in
   data_type_part c = lit "TIMESTAMP" /\
   snowflake_type c = lit "TIMESTAMP_NTZ" /\
   default_value c = lit "DEFAULT CURRENT_TIMESTAMP" /\ log = []) /\
  (let (c, log) := parse_column (lit "BAL DECIMAL(18,2) WITH DEFAULT 0") table [] in
   data_type_part c = lit "DECIMAL(18,2)" /\
   snowflake_type c = lit "NUMBER(18,2)" /\ log = []) /\
  (let (c, log) := parse_column (lit "NOTES CLOB(1M)") table [] in
   data_type_part c = lit "CLOB(1M)" /\
   snowflake_type c = lit "VARCHAR" /\ log = [notes_issue table]) /\
  extract_primary_keys scenario1_statement = [lit "ACCOUNT_ID"] /\
  convert_db2_to_snowflake scenario1_statement table []
    = (scenario1_converted, [notes_issue table]) /\
  last (split nl scenario1_converted) []
    = lit "ALTER TABLE APP.ACCOUNT ADD PRIMARY KEY (ACCOUNT_ID);" /\
  process_table_file (lit "APP__ACCOUNT.sql") scenario1_file []
    = (lit "-- Source file: data/input/sample.sql" ++ [nl] ++
       lit "-- Extracted: 2025-10-20T00:00:00Z" ++ [nl] ++ [nl] ++
       scenario1_converted,
       [notes_issue table]).
Proof. vm_compute. repeat split; reflexivity. Qed.

(** C2: the column [CODE CHAR(3) WITH DEFAULT], whose default is the bare
    keyword pair, is converted to [CODE CHAR(3)], without a default clause,
    and nothing is recorded for it: the pattern of defaults asks for a value
    after the keywords and does not match, so [convert_default_value], which
    holds the report, is not called.  The same holds inside the statement of
    Scenario 1, whose only issue is the one of [NOTES]. *)
Theorem bare_default_dropped_silently :
  parse_column_definition (lit "CODE CHAR(3) WITH DEFAULT") (lit "APP.ACCOUNT") []
    = (lit "CODE CHAR(3)", []) /\
  re_search true default_re (lit "WITH DEFAULT") = None /\
  snd (convert_db2_to_snowflake scenario1_statement (lit "APP.ACCOUNT") [])
    = [notes_issue (lit "APP.ACCOUNT")].
Proof. vm_compute. repeat split; reflexivity. Qed.

(** C3, as stated, fails: where a slash stands before one block comment and
    a star follows it, removing the comment leaves a new comment, which only
    a second pass removes. *)
Lemma strip_comments_not_idempotent :
  ~ (forall content : str,
       Split.strip_comments (Split.strip_comments content)
       = Split.strip_comments content).
Proof.
  intros H. specialize (H spliced_comments). vm_compute in H. discriminate.
Qed.

(** C3, amended: for every text in which the removal of the block comments
    leaves no complete block comment behind, stripping the comments twice
    gives what stripping them once gives. *)
Theorem strip_comments_idempotent_unless_spliced (content : str) :
  contains_block_comment
    (re_sub false Split.block_comment_re [] content) = false ->
  Split.strip_comments (Split.strip_comments content) = Split.strip_comments content.
Proof.
  intros H. unfold Split.strip_comments at 1.
  assert (Hn : contains_block_comment (Split.strip_comments content) = false).
  { destruct (contains_block_comment (Split.strip_comments content)) eqn:E; [|reflexivity].
    unfold Split.strip_comments in E.
    rewrite <- H. symmetry.
    eapply cut_contains_block; [|exact E].
    rewrite <- (join_split nl (re_sub false Split.block_comment_re [] content)) at 2.
    apply cut_lines. apply strip_line_comment_prefix. }
  rewrite re_sub_noop by (apply re_search_block_none; exact Hn).
  unfold Split.strip_comments.
  apply (strip_lines_idem (re_sub false Split.block_comment_re [] content)).
Qed.

Lemma strip_comments_idempotent_unless_spliced_witness :
  contains_block_comment
    (re_sub false Split.block_comment_re [] commented_input) = false /\
  Split.strip_comments (Split.strip_comments commented_input)
  = Split.strip_comments commented_input.
Proof.
  assert (H : contains_block_comment
                (re_sub false Split.block_comment_re [] commented_input) = false)
    by (vm_compute; reflexivity).
  split; [exact H | exact (strip_comments_idempotent_unless_spliced commented_input H)].
Defined.

(** C4: the end of a statement is tested on the lines after its opening
    line only.  [one_line_statement_input] holds one CREATE TABLE statement,
    which ends on its opening line, at depth zero and with a semicolon, and
    a CREATE INDEX statement after it: one statement is returned, and it
    holds both lines, so that its lines are not those of the CREATE TABLE
    statement.  The same statement laid out on three lines is closed at its
    last line and returned as it is. *)
Theorem statement_on_opening_line_not_closed :
  length (filter opens (split nl one_line_statement_input)) = 1 /\
  Split.paren_balance (lit "CREATE TABLE T (A INT);") = 0%Z /\
  endswith (lit ";") (lit "CREATE TABLE T (A INT);") = true /\
  Split.extract_create_table_statements one_line_statement_input
    = [lit "CREATE TABLE T (A INT);" ++ [nl] ++ lit "CREATE INDEX IX ON T (A);"] /\
  Split.extract_create_table_statements three_line_statement_input
    = [lit "CREATE TABLE T (" ++ [nl] ++ lit "A INT" ++ [nl] ++ lit ");"].
Proof. vm_compute. repeat split; reflexivity. Qed.

(** C5: the statement [both_forms_statement] holds the inline marker on the
    column [AMT] and the table-level clause [PRIMARY KEY (AMT)]; the inline
    pattern, which admits no comma between the word it captures and the
    marker, captures [NOT], and the extraction returns [NOT], not [AMT].
    The table-level list is ignored, and where the type has no comma the
    column is returned. *)
Theorem inline_marker_captures_wrong_word :
  extract_primary_keys both_forms_statement = [lit "NOT"] /\
  last (split nl (fst (convert_db2_to_snowflake both_forms_statement (lit "DEFAULT.T") [])))
       []
    = lit "ALTER TABLE DEFAULT.T ADD PRIMARY KEY (NOT);" /\
  extract_primary_keys
    (text_of_lines ["CREATE TABLE T (";
                    "  ID INTEGER NOT NULL PRIMARY KEY,";
                    "  PRIMARY KEY (ID)";
                    ");"]%string) = [lit "ID"].
Proof. vm_compute. repeat split; reflexivity. Qed.

(** C6: on the statement of Scenario 2 the schema is [DEFAULT] and the file
    [DEFAULT__WIDGETS.sql].  On
    [widgets_with_literal], whose first line is the same, the qualified
    pattern is searched in the whole statement, not in its first line, and
    finds [A.B] in the default value: the statement is written to
    [A__B.sql]. *)
Theorem unqualified_name_overridden :
  Split.extract_schema_table_name widgets_statement
    = Some (lit "DEFAULT", lit "WIDGETS") /\
  (exists text,
     Split.process_input_file widgets_statement (lit "in.sql") (lit "now")
     = [Split.Emitted (lit "DEFAULT") (lit "WIDGETS") (lit "DEFAULT__WIDGETS.sql") text]) /\
  Split.extract_create_table_statements (Split.strip_comments widgets_with_literal)
    = [text_of_lines ["CREATE TABLE WIDGETS (";
                      "NOTE VARCHAR(40) WITH DEFAULT 'see CREATE TABLE A.B'";
                      ");"]%string] /\
  Split.extract_schema_table_name widgets_with_literal = Some (lit "A", lit "B") /\
  (exists text,
     Split.process_input_file widgets_with_literal (lit "in.sql") (lit "now")
     = [Split.Emitted (lit "A") (lit "B") (lit "A__B.sql") text]).
Proof.
  vm_compute. repeat split; try reflexivity; eexists; reflexivity.
Qed.

(** C7: two runs of [convert_data_type] on the same type, table and column
    return the same type and append the same issues, at most one, whatever
    the issues file holds when they start. *)
Theorem convert_data_type_deterministic
  (db2_type table_name column_name : str) (log1 log2 : list Issue) :
  exists ty d,
    convert_data_type db2_type table_name column_name log1 = (ty, log1 ++ d) /\
    convert_data_type db2_type table_name column_name log2 = (ty, log2 ++ d) /\
    length d <= 1.
Proof.
  destruct (convert_data_type_emits db2_type table_name column_name)
    as (ty & d & H & Hl & _).
  exists ty, d. repeat split; [apply H | apply H | exact Hl].
Qed.

(** C8: for every statement the segmenter returns, the extraction of the
    names returns a schema and a table, neither of them empty, so that
    [process_input_file] never skips a statement of the segmenter. *)
Theorem extracted_statement_named (content statement : str) :
  In statement (Split.extract_create_table_statements content) ->
  (exists schema table,
     Split.extract_schema_table_name statement = Some (schema, table) /\
     schema <> [] /\ table <> []) /\
  (forall source_file_path utc_time,
     Split.process_statement source_file_path utc_time statement <> Split.Skipped).
Proof.
  intros H. apply extracted_opened in H. destruct H as (ls & -> & Ho).
  apply join_opened_app in Ho. destruct Ho as (l0 & x & -> & Ho).
  assert (Hn : exists schema table,
     Split.extract_schema_table_name (l0 ++ x) = Some (schema, table) /\
     schema <> [] /\ table <> []).
  { unfold Split.extract_schema_table_name.
    destruct (re_search true Split.schema_table_re (l0 ++ x)) as [mt|] eqn:E1.
    - apply schema_table_re_groups in E1. destruct E1. eauto.
    - destruct (re_search true Split.table_re (l0 ++ x)) as [mt|] eqn:E2.
      + apply table_re_group in E2. exists (lit "DEFAULT"), (group 1 mt).
        repeat split; [discriminate | exact E2].
      + exfalso. revert E2. apply search_from_found.
        apply table_re_at_start. exact Ho. }
  split; [exact Hn|].
  destruct Hn as (schema & table & E & Hs & Ht). intros src ts.
  unfold Split.process_statement. rewrite E.
  destruct schema; [congruence|]. destruct table; [congruence|]. discriminate.
Qed.

Lemma extracted_statement_named_witness :
  In (lit "create table t2 (x int)")
     (Split.extract_create_table_statements two_statements_input) /\
  (exists schema table,
     Split.extract_schema_table_name (lit "create table t2 (x int)")
       = Some (schema, table) /\
     schema <> [] /\ table <> []) /\
  (forall source_file_path utc_time,
     Split.process_statement source_file_path utc_time (lit "create table t2 (x int)")
       <> Split.Skipped).
Proof.
  assert (H : In (lit "create table t2 (x int)")
                (Split.extract_create_table_statements two_statements_input))
    by (vm_compute; right; left; reflexivity).
  split; [exact H | exact (extracted_statement_named two_statements_input _ H)].
Defined.




(** C10: the table named in the statement [ALTER TABLE ... ADD PRIMARY KEY]
    and in the issues is taken from the name of the input file, whatever the
    text of the file says: for every file [base.sql] in whose text a primary
    key is found, the converted text ends with the line
    [ALTER TABLE name ADD PRIMARY KEY (keys);] after the lines of the loop,
    where [name] is [base] with every [__] replaced by a dot, and every issue
    the conversion appends is of the table [name].  For a file
    [schema__table.sql] as the extractor names them (the schema without [__]
    and not ending in [_], the table without [__]) the name is
    [schema.table]. *)
Theorem alter_names_file_table (base content : str) (log : list Issue) :
  base <> [] ->
  extract_primary_keys content <> [] ->
  exists st d,
    convert_lines (replace (lit "__") (lit ".") base) (split nl content)
      (ConvState [] false []) log = (st, log ++ d) /\
    process_table_file (base ++ lit ".sql") content log =
      (concat (map (fun h => h ++ [nl]) (header_lines (split nl content)))
         ++ [nl] ++
         join [nl]
           (result_lines st ++
            [lit "ALTER TABLE " ++ replace (lit "__") (lit ".") base ++
             lit " ADD PRIMARY KEY (" ++
             join (lit ", ") (extract_primary_keys content) ++ lit ");"]),
       log ++ d) /\
    Forall (fun i => i_table i = replace (lit "__") (lit ".") base) d /\
    forall schema table,
      base = schema ++ lit "__" ++ table ->
      contains (lit "__") (schema ++ lit "_") = false ->
      contains (lit "__") table = false ->
      replace (lit "__") (lit ".") base = schema ++ lit "." ++ table.
Proof.
  intros Hb Hpk.
  destruct (convert_lines_logs (replace (lit "__") (lit ".") base) (split nl content)
              (ConvState [] false []))
    as (st & d & Hst & Hd).
  exists st, d. split; [apply Hst|]. split; [|split; [exact Hd|]].
  - unfold process_table_file, convert_db2_to_snowflake, bind, ret. cbv zeta.
    rewrite (stem_sql Hb), Hst.
    destruct (extract_primary_keys content); [congruence|]. reflexivity.
  - intros schema table -> Hs Ht. rewrite (@replace_separator _ _ Hs).
    unfold replace. rewrite replace_go_none by (apply contains_false; exact Ht).
    reflexivity.
Qed.

Lemma alter_names_file_table_witness :
  lit "SALES__ORDERS" <> [] /\
  extract_primary_keys scenario1_file <> [] /\
  exists st d,
    convert_lines (replace (lit "__") (lit ".") (lit "SALES__ORDERS"))
      (split nl scenario1_file) (ConvState [] false []) [] = (st, [] ++ d) /\
    process_table_file (lit "SALES__ORDERS" ++ lit ".sql") scenario1_file [] =
      (concat (map (fun h => h ++ [nl]) (header_lines (split nl scenario1_file)))
         ++ [nl] ++
         join [nl]
           (result_lines st ++
            [lit "ALTER TABLE " ++ replace (lit "__") (lit ".") (lit "SALES__ORDERS") ++
             lit " ADD PRIMARY KEY (" ++
             join (lit ", ") (extract_primary_keys scenario1_file) ++ lit ");"]),
       [] ++ d) /\
    Forall (fun i => i_table i = replace (lit "__") (lit ".") (lit "SALES__ORDERS")) d /\
    forall schema table,
      lit "SALES__ORDERS" = schema ++ lit "__" ++ table ->
      contains (lit "__") (schema ++ lit "_") = false ->
      contains (lit "__") table = false ->
      replace (lit "__") (lit ".") (lit "SALES__ORDERS") = schema ++ lit "." ++ table.
Proof.
  assert (Hb : lit "SALES__ORDERS" <> []) by discriminate.
  assert (H : extract_primary_keys scenario1_file <> [])
    by (vm_compute; discriminate).
  split; [exact Hb | split; [exact H|]].
  exact (@alter_names_file_table (lit "SALES__ORDERS") scenario1_file [] Hb H).
Defined.

(* ================================================================= *)
(** ** Further properties of the two scripts *)

(* ----------------------------------------------------------------- *)
(** *** More facts about the string operations *)



Lemma find_none_part (sub a l b : str) :
  find sub (a ++ l ++ b) = None -> find sub l = None.
Proof. intros H. apply find_none_suffix in H. eapply find_app_none; eauto. Qed.

Lemma join_In_part sep (ls : list str) (l : str) :
  In l ls -> exists a b, join sep ls = a ++ l ++ b.
Proof.
  induction ls as [|l0 ls IH]; intros H; [destruct H|].
  destruct ls as [|l1 ls].
  - destruct H as [<-|[]]. exists [], []. simpl. rewrite app_nil_r. reflexivity.
  - rewrite join_cons by discriminate. destruct H as [<-|H].
    + exists [], (sep ++ join sep (l1 :: ls)). reflexivity.
    + destruct (IH H) as (a & b & E). rewrite E.
      exists (l0 ++ sep ++ a), b. rewrite <- !app_assoc. reflexivity.
Qed.

Lemma split_In_part sep (s l : str) :
  In l (split sep s) -> exists a b, s = a ++ l ++ b.
Proof.
  intros H. apply (join_In_part [sep]) in H. rewrite join_split in H. exact H.
Qed.


Lemma contains_prefix (w rest : str) : contains w (w ++ rest) = true.
Proof.
  unfold contains.
  assert (H : startswith w (w ++ rest) = true).
  { induction w as [|c w IH]; [reflexivity|]. simpl. rewrite Ascii.eqb_refl. exact IH. }
  destruct (w ++ rest); simpl; rewrite H; reflexivity.
Qed.

Lemma contains_suffix (w a b : str) :
  contains w b = true -> contains w (a ++ b) = true.
Proof.
  intros H. destruct (contains w (a ++ b)) eqn:E; [reflexivity|].
  apply contains_false in E. apply find_none_suffix in E.
  apply contains_false in E. congruence.
Qed.

Lemma startswith_app_sep (sub a b : str) sep :
  startswith sub (a ++ sep :: b) = true -> startswith sub a = true \/ In sep sub.
Proof.
  revert a. induction sub as [|x sub IH]; intros a H; [left; reflexivity|].
  destruct a as [|y a]; simpl in H.
  - apply andb_true_iff in H. destruct H as [H _].
    apply Ascii.eqb_eq in H. subst. right. left. reflexivity.
  - apply andb_true_iff in H. destruct H as [H1 H2].
    destruct (IH _ H2) as [H|H].
    + left. simpl. rewrite H1, H. reflexivity.
    + right. right. exact H.
Qed.

Lemma find_app_sep_none (sub a b : str) sep :
  ~ In sep sub -> find sub a = None -> find sub b = None ->
  find sub (a ++ sep :: b) = None.
Proof.
  intros Hs. induction a as [|c a IH]; intros Ha Hb.
  - simpl app. simpl find.
    destruct (startswith sub (sep :: b)) eqn:E.
    + exfalso. destruct (@startswith_app_sep sub [] b sep E) as [H|H]; [|auto].
      simpl in Ha. rewrite H in Ha. discriminate.
    + rewrite Hb. reflexivity.
  - apply find_none_cons in Ha. destruct Ha as [Ha1 Ha2].
    simpl app. simpl find.
    destruct (startswith sub (c :: a ++ sep :: b)) eqn:E.
    + exfalso. destruct (@startswith_app_sep sub (c :: a) b sep E) as [H|H]; [|auto].
      congruence.
    + rewrite (IH Ha2 Hb). reflexivity.
Qed.

Lemma find_join_none (sub : str) (ls : list str) :
  sub <> [] -> ~ In nl sub -> Forall (fun l => find sub l = None) ls ->
  find sub (join [nl] ls) = None.
Proof.
  intros Hne Hs. induction 1 as [|l ls Hl Hls IH].
  - simpl. destruct sub; [congruence | reflexivity].
  - destruct ls as [|l1 ls]; [exact Hl|].
    rewrite join_cons by discriminate. simpl app.
    apply find_app_sep_none; auto.
Qed.

Lemma split_app_sep_gen sep (a b : str) :
  split sep (a ++ sep :: b) = split sep a ++ split sep b.
Proof.
  induction a as [|c a IH]; simpl.
  - rewrite Ascii.eqb_refl. reflexivity.
  - destruct (Ascii.eqb c sep); [rewrite IH; reflexivity|].
    rewrite IH. pose proof (split_nonempty sep a) as Hn.
    destruct (split sep a); [congruence | reflexivity].
Qed.

Lemma split_app_line (a b : str) :
  ~ In nl a -> split nl (a ++ nl :: b) = a :: split nl b.
Proof. intros H. rewrite split_app_sep_gen, (@split_no_sep _ _ H). reflexivity. Qed.

Lemma startswith_one (d c : ascii) (s : str) :
  startswith [d] (c :: s) = Ascii.eqb d c.
Proof. cbn [startswith]. destruct s; apply andb_true_r. Qed.

Lemma str_eqb_eq (a b : str) : str_eqb a b = true <-> a = b.
Proof.
  unfold str_eqb. destruct (list_eq_dec ascii_dec a b); split; congruence.
Qed.

Lemma str_eqb_neq (a b : str) : a <> b -> str_eqb a b = false.
Proof. unfold str_eqb. destruct (list_eq_dec ascii_dec a b); congruence. Qed.

Lemma strip_part (s : str) : exists l r, s = l ++ strip s ++ r.
Proof.
  unfold strip. destruct (rstrip_prefix (lstrip s)) as [t Ht].
  exists (take_while isspace s), t.
  rewrite <- Ht. unfold lstrip. symmetry. apply take_drop_while.
Qed.

Lemma strip_head (s : str) :
  match strip s with [] => True | c :: _ => isspace c = false end.
Proof.
  unfold strip. pose proof (drop_while_head isspace s) as H. fold (lstrip s) in H.
  destruct (rstrip_prefix (lstrip s)) as [t Ht].
  destruct (rstrip (lstrip s)) as [|c x]; [exact I|].
  rewrite Ht in H. exact H.
Qed.

Lemma split_ws_nonempty (s : str) :
  truthy (strip s) = true -> Split.nonempty (split_ws (strip s)) = true.
Proof.
  intros H. pose proof (strip_head s) as Hh.
  destruct (strip s) as [|c x]; [discriminate|].
  cbn [split_ws]. rewrite Hh.
  destruct x as [|c' x]; [reflexivity|].
  destruct (isspace c'); [reflexivity|].
  destruct (split_ws (c' :: x)); reflexivity.
Qed.

Lemma firstn_plus (a k : nat) (s : str) :
  firstn (a + k) s = firstn a s ++ firstn k (skipn a s).
Proof.
  revert s. induction a as [|a IH]; intros s; [reflexivity|].
  destruct s as [|c s]; [simpl; rewrite firstn_nil; reflexivity|].
  simpl. rewrite IH. reflexivity.
Qed.

Lemma firstn_slice (a b : nat) (s : str) :
  exists l, firstn b s = l ++ slice a b s.
Proof.
  unfold slice. destruct (Nat.le_gt_cases a b) as [H|H].
  - exists (firstn a s).
    replace b with (a + (b - a)) at 1 by lia. apply firstn_plus.
  - exists (firstn b s). replace (b - a) with 0 by lia. simpl. rewrite app_nil_r.
    reflexivity.
Qed.

Lemma to_lower_upper (c : ascii) : to_lower (to_upper c) = to_lower c.
Proof. destruct c as [[] [] [] [] [] [] [] []]; reflexivity. Qed.

Lemma to_upper_dot (c : ascii) : to_upper c = "."%char -> c = "."%char.
Proof. destruct c as [[] [] [] [] [] [] [] []]; vm_compute; congruence. Qed.

Lemma upper_char_idem (c : ascii) : upper (upper_char c) = upper_char c.
Proof. destruct c as [[] [] [] [] [] [] [] []]; reflexivity. Qed.

Lemma upper_char_lower (c : ascii) : upper_char (to_lower c) = upper_char c.
Proof. destruct c as [[] [] [] [] [] [] [] []]; reflexivity. Qed.

Lemma upper_char_rev (c : ascii) : rev (upper_char c) = upper_char c.
Proof. destruct (upper_char_cases c) as [[_ ->]|[_ ->]]; reflexivity. Qed.

Lemma upper_char_space (c : ascii) : isspace c = true -> upper_char c = [c].
Proof. destruct c as [[] [] [] [] [] [] [] []]; vm_compute; congruence. Qed.

(** The upper case of a character that is no white space starts with one. *)
Lemma upper_char_head (c : ascii) :
  exists d x, upper_char c = d :: x /\ isspace d = isspace c.
Proof.
  destruct (upper_char_cases c) as [[-> ->]|[_ ->]]; eexists _, _; split;
    try reflexivity. apply isspace_to_upper.
Qed.

Lemma upper_idem (s : str) : upper (upper s) = upper s.
Proof.
  induction s as [|c s IH]; [reflexivity|].
  rewrite upper_cons, upper_app, upper_char_idem, IH. reflexivity.
Qed.

Lemma upper_rev (s : str) : rev (upper s) = upper (rev s).
Proof.
  induction s as [|c s IH]; [reflexivity|].
  rewrite upper_cons, rev_app_distr, IH, upper_char_rev. cbn [rev].
  rewrite upper_app. unfold upper at 3. cbn [flat_map]. rewrite app_nil_r.
  reflexivity.
Qed.

Lemma drop_while_upper (s : str) :
  drop_while isspace (upper s) = upper (drop_while isspace s).
Proof.
  induction s as [|c s IH]; [reflexivity|].
  rewrite upper_cons. cbn [drop_while].
  destruct (isspace c) eqn:E.
  - rewrite (upper_char_space _ E). cbn [app drop_while]. rewrite E. exact IH.
  - destruct (upper_char_head c) as (d & x & Ed & Hd).
    rewrite upper_cons, Ed. cbn [app drop_while]. rewrite Hd, E. reflexivity.
Qed.

Lemma strip_upper (s : str) : strip (upper s) = upper (strip s).
Proof.
  unfold strip, rstrip, lstrip.
  rewrite drop_while_upper, upper_rev, drop_while_upper, <- upper_rev.
  reflexivity.
Qed.



(** A text whose upper case has no two [S] in a row holds no sharp s, and is
    mapped character by character. *)
Lemma upper_plain (t : str) :
  contains (lit "SS") (upper t) = false -> upper t = map to_upper t.
Proof.
  induction t as [|c t IH]; [reflexivity|].
  rewrite upper_cons. intros H. apply contains_false in H.
  destruct (upper_char_cases c) as [[_ E]|[_ E]]; rewrite E in *.
  - cbn [app] in H. apply find_none_cons in H. destruct H as [H _].
    destruct (upper t); discriminate H.
  - cbn [app] in H. apply find_none_cons in H. destruct H as [_ H].
    cbn [app map]. rewrite IH by (apply contains_false; exact H). reflexivity.
Qed.

Lemma upper_char_dot (c : ascii) : In "."%char (upper_char c) -> c = "."%char.
Proof.
  destruct (upper_char_cases c) as [[_ ->]|[_ ->]].
  - intros [H|[H|[]]]; discriminate H.
  - intros [H|[]]. apply to_upper_dot. exact H.
Qed.

Lemma find_one_none (d : ascii) (s : str) : find [d] s = None <-> ~ In d s.
Proof.
  induction s as [|c s IH].
  - split; [intros _ [] | reflexivity].
  - cbn [find]. rewrite startswith_one. destruct (Ascii.eqb d c) eqn:E.
    + apply Ascii.eqb_eq in E. subst. split; [discriminate|].
      intros H. exfalso. apply H. left. reflexivity.
    + apply Ascii.eqb_neq in E. destruct (find [d] s) eqn:Ef; cbn [option_map].
      * split; [discriminate|]. intros H. exfalso.
        assert (Hn : ~ In d s) by (intros Hi; apply H; right; exact Hi).
        apply IH in Hn. discriminate Hn.
      * split; [|reflexivity]. intros _ [Hi|Hi]; [congruence|].
        revert Hi. apply IH. reflexivity.
Qed.

Lemma find_dot_upper (s : str) :
  find (lit ".") s = None -> find (lit ".") (upper s) = None.
Proof.
  change (lit ".") with ["."%char]. rewrite !find_one_none. intros H Hi. apply H.
  unfold upper in Hi. apply in_flat_map in Hi. destruct Hi as (c & Hc & Hd).
  apply upper_char_dot in Hd. subst. exact Hc.
Qed.






Lemma forallb_Forall (p : ascii -> bool) (t : str) :
  forallb p t = true -> Forall (fun c => p c = true) t.
Proof. intros H. apply Forall_forall. apply forallb_forall. exact H. Qed.

Lemma filter_all (A : Type) (p : A -> bool) (l : list A) :
  Forall (fun x => p x = true) l -> filter p l = l.
Proof.
  induction 1 as [|x l Hx Hl IH]; [reflexivity|]. simpl. rewrite Hx, IH. reflexivity.
Qed.

Lemma filter_none (A : Type) (p : A -> bool) (l : list A) :
  Forall (fun x => p x = false) l -> filter p l = [].
Proof.
  induction 1 as [|x l Hx Hl IH]; [reflexivity|]. simpl. rewrite Hx, IH. reflexivity.
Qed.

(** The snippet of an issue is the first 80 characters of the text. *)
Lemma cut_firstn (s : str) :
  (if 80 <? length s then firstn 80 s else s) = firstn 80 s.
Proof.
  destruct (80 <? length s) eqn:E; [reflexivity|].
  apply Nat.ltb_ge in E. symmetry. apply firstn_all2. exact E.
Qed.

Lemma cut_snippet (s : str) :
  length (if 80 <? length s then firstn 80 s else s) <= 80.
Proof.
  destruct (80 <? length s) eqn:E.
  - rewrite length_firstn. lia.
  - apply Nat.ltb_ge in E. exact E.
Qed.

(* ----------------------------------------------------------------- *)
(** *** More facts about the matcher *)

Section Eval.

Variable A : Type.

Variable ic : bool.

(** A literal word is matched in one way. *)
Lemma m_lit_eval (w t : str) :
  Forall2 (fun c d => chr_eq ic c d = true) w t ->
  forall prev rest caps (k : mstate -> option A),
  m ic (Lit w) (MState prev (t ++ rest) caps) k
  = k (MState (prev_after prev t) rest caps).
Proof.
  induction 1 as [|c d w t Hc Hf IH]; intros prev rest caps k; [reflexivity|].
  destruct w as [|c2 w].
  - inversion Hf; subst. cbn [Lit m m_rest app]. rewrite Hc. reflexivity.
  - change (Lit (c :: c2 :: w)) with (Seq (Chr c) (Lit (c2 :: w))).
    cbn [m m_rest app]. rewrite Hc.
    unfold advance. cbn [m_caps]. rewrite IH. reflexivity.
Qed.

Lemma star_loop_greedy_S (body : mstate -> (mstate -> option A) -> option A)
  (k : mstate -> option A) fuel st :
  star_loop body true k (S fuel) st
  = match body st (fun st1 => if progress st st1
                              then star_loop body true k fuel st1 else None) with
    | Some x => Some x
    | None => k st
    end.
Proof. reflexivity. Qed.

Lemma m_cls_cons (p : ascii -> bool) prev c (r : str) caps (k : mstate -> option A) :
  m ic (Cls p) (MState prev (c :: r) caps) k
  = if p c then k (MState (Some c) r caps) else None.
Proof. reflexivity. Qed.

Lemma m_cls_nil (p : ascii -> bool) prev caps (k : mstate -> option A) :
  m ic (Cls p) (MState prev [] caps) k = None.
Proof. reflexivity. Qed.

(** A greedy repetition of a class takes the whole run of its characters when
    the rest of the pattern matches after the run. *)
Lemma star_greedy_max (p : ascii -> bool) (k : mstate -> option A) x
  (t : str) : forall prev rest caps fuel,
  Forall (fun c => p c = true) t -> stops p rest = true ->
  length t <= fuel ->
  k (MState (prev_after prev t) rest caps) = Some x ->
  star_loop (m ic (Cls p)) true k fuel (MState prev (t ++ rest) caps) = Some x.
Proof.
  induction t as [|c t IH]; intros prev rest caps fuel Ht Hs Hf Hk.
  - cbn [app prev_after fold_left] in *.
    destruct fuel as [|fuel]; [exact Hk|]. rewrite star_loop_greedy_S.
    destruct rest as [|d rest]; [rewrite m_cls_nil; exact Hk|].
    rewrite m_cls_cons.
    simpl in Hs. apply negb_true_iff in Hs. rewrite Hs. exact Hk.
  - inversion Ht; subst. destruct fuel as [|fuel]; [simpl in Hf; lia|].
    rewrite star_loop_greedy_S. cbn [app]. rewrite m_cls_cons, H1.
    assert (Hp : progress (MState prev (c :: t ++ rest) caps)
                   (MState (Some c) (t ++ rest) caps) = true).
    { unfold progress. simpl. apply Nat.ltb_lt. lia. }
    rewrite Hp.
    rewrite (IH (Some c) rest caps fuel); auto. simpl in Hf. lia.
Qed.

Lemma plus_greedy_max (p : ascii -> bool) (k : mstate -> option A) x
  (t : str) prev rest caps :
  t <> [] -> Forall (fun c => p c = true) t -> stops p rest = true ->
  k (MState (prev_after prev t) rest caps) = Some x ->
  m ic (Plus (Cls p)) (MState prev (t ++ rest) caps) k = Some x.
Proof.
  intros Hne Ht Hs Hk. destruct t as [|c t]; [congruence|].
  inversion Ht; subst. unfold Plus.
  change (m ic (Seq (Cls p) (Star true (Cls p))) (MState prev ((c :: t) ++ rest) caps) k)
    with (m ic (Cls p) (MState prev (c :: t ++ rest) caps)
            (fun st1 => star_loop (m ic (Cls p)) true k (S (length (m_rest st1))) st1)).
  rewrite m_cls_cons, H1. cbn [m_rest].
  apply star_greedy_max; auto. rewrite length_app. lia.
Qed.

Lemma star_loop_lazy_S (body : mstate -> (mstate -> option A) -> option A)
  (k : mstate -> option A) fuel st :
  star_loop body false k (S fuel) st
  = match k st with
    | Some x => Some x
    | None => body st (fun st1 => if progress st st1
                                  then star_loop body false k fuel st1 else None)
    end.
Proof. reflexivity. Qed.

(** A lazy repetition of any character stops at the first place where the
    rest of the pattern matches. *)
Lemma star_lazy_first (k : mstate -> option A) x (rest : str) caps :
  forall (t : str) prev fuel,
  (forall t1 t2, t = t1 ++ t2 -> t2 <> [] ->
     k (MState (prev_after prev t1) (t2 ++ rest) caps) = None) ->
  k (MState (prev_after prev t) rest caps) = Some x ->
  length t <= fuel ->
  star_loop (m ic any) false k fuel (MState prev (t ++ rest) caps) = Some x.
Proof.
  induction t as [|c t IH]; intros prev fuel Hn Hk Hf.
  - destruct fuel as [|fuel]; [exact Hk|].
    rewrite star_loop_lazy_S. cbn [app]. cbn [prev_after fold_left] in Hk.
    rewrite Hk. reflexivity.
  - destruct fuel as [|fuel]; [simpl in Hf; lia|].
    rewrite star_loop_lazy_S.
    pose proof (Hn [] (c :: t) eq_refl) as H0.
    cbn [prev_after fold_left] in H0. rewrite H0 by discriminate. clear H0.
    cbn [app]. unfold any. rewrite m_cls_cons.
    replace (progress (MState prev (c :: t ++ rest) caps)
               (MState (Some c) (t ++ rest) caps)) with true
      by (symmetry; unfold progress; apply Nat.ltb_lt; simpl; lia).
    apply IH.
    + intros t1 t2 E Hne. apply (Hn (c :: t1) t2); [rewrite E; reflexivity | exact Hne].
    + exact Hk.
    + simpl in Hf. lia.
Qed.

End Eval.

(** A text with the upper case of a word without two [S] in a row is the
    word up to case. *)
Lemma upper_eq_chr_eq (w t : str) :
  contains (lit "SS") (upper w) = false ->
  upper t = upper w -> Forall2 (fun c d => chr_eq true c d = true) w t.
Proof.
  intros Hw Ht.
  assert (Hp : contains (lit "SS") (upper t) = false) by (rewrite Ht; exact Hw).
  rewrite (upper_plain _ Hw), (upper_plain _ Hp) in Ht. clear Hw Hp.
  revert t Ht. induction w as [|c w IH]; intros [|d t] H; simpl in H;
    try discriminate; constructor; injection H as H1 H2.
  - unfold chr_eq. apply Ascii.eqb_eq.
    rewrite <- (to_lower_upper c), <- (to_lower_upper d), H1. reflexivity.
  - apply IH. exact H2.
Qed.

Lemma chr_eq_upper (w t : str) :
  Forall2 (fun c d => chr_eq true c d = true) w t -> upper t = upper w.
Proof.
  induction 1 as [|c d w t Hc Hf IH]; [reflexivity|].
  rewrite !upper_cons, IH. f_equal.
  unfold chr_eq in Hc. apply Ascii.eqb_eq in Hc.
  rewrite <- (upper_char_lower c), <- (upper_char_lower d), Hc. reflexivity.
Qed.

Lemma consumed_app prev prev' (t rest : str) caps caps' :
  consumed (MState prev (t ++ rest) caps) (MState prev' rest caps') = t.
Proof.
  unfold consumed. simpl. rewrite length_app, Nat.add_sub.
  rewrite firstn_app, Nat.sub_diag, firstn_all. simpl. apply app_nil_r.
Qed.

Lemma isword_not_space (c : ascii) : isword c = true -> isspace c = false.
Proof. destruct c as [[] [] [] [] [] [] [] []]; vm_compute; congruence. Qed.

Lemma upper_head_not_space (w t : str) :
  upper t = w -> stops isspace w = true -> stops isspace t = true.
Proof.
  intros <-. destruct t as [|c t]; [reflexivity|].
  rewrite upper_cons. destruct (upper_char_head c) as (d & x & -> & Hd).
  cbn [app stops]. rewrite Hd. auto.
Qed.

Lemma stops_app (p : ascii -> bool) (a b : str) :
  a <> [] -> stops p a = true -> stops p (a ++ b) = true.
Proof. destruct a; [congruence | auto]. Qed.

Lemma search_from_here ic r prev pos (s : str) st :
  match_at ic r prev s = Some st ->
  search_from ic r prev pos s = Some (mk_match pos s st).
Proof. intros H. destruct s; simpl; rewrite H; reflexivity. Qed.

Lemma sub_go_skip ic r repl (x b : str) : forall prev,
  sub_go ic r repl prev (length x) (x ++ b)
  = sub_go ic r repl (prev_after prev x) 0 b.
Proof.
  induction x as [|c x IH]; intros prev; [reflexivity|].
  cbn [length app sub_go]. rewrite IH. reflexivity.
Qed.

Lemma sub_go_match ic r repl prev c (s : str) st n :
  match_at ic r prev (c :: s) = Some st ->
  length (c :: s) - length (m_rest st) = S n ->
  sub_go ic r repl prev 0 (c :: s) = repl ++ sub_go ic r repl (Some c) n s.
Proof. intros H1 H2. cbn [sub_go]. rewrite H1, H2. reflexivity. Qed.

Lemma demands_lit (w : str) : upper w = w -> demands true (Lit w) w.
Proof.
  intros Hw st st' H. apply matches_lit_inv in H. destruct H as (t & E & Hf).
  apply chr_eq_upper in Hf. rewrite E, upper_app, Hf, Hw. apply contains_prefix.
Qed.

Lemma demands_seq_l ic (r1 r2 : regex) (w : str) :
  demands ic r1 w -> demands ic (Seq r1 r2) w.
Proof.
  intros H st st' Hm. apply matches_seq_inv in Hm. destruct Hm as (st1 & H1 & _).
  eapply H; eauto.
Qed.

Lemma demands_seq_r ic (r1 r2 : regex) (w : str) :
  demands ic r2 w -> demands ic (Seq r1 r2) w.
Proof.
  intros H st st' Hm. apply matches_seq_inv in Hm. destruct Hm as (st1 & H1 & H2).
  apply matches_rest in H1. destruct H1 as [t E]. rewrite E, upper_app.
  apply contains_suffix. eapply H; eauto.
Qed.

Lemma demands_search (r : regex) (w : str) :
  demands true r w -> forall (s : str) prev pos,
  contains w (upper s) = false -> search_from true r prev pos s = None.
Proof.
  intros Hd. induction s as [|c s IH]; intros prev pos Hc.
  - apply search_from_none. split; [|exact I].
    destruct (match_at true r prev []) as [st|] eqn:E; [|reflexivity].
    apply m_sound in E. destruct E as (st' & Hm & _).
    apply Hd in Hm. cbn [m_rest] in Hm. congruence.
  - apply search_from_none. split.
    + destruct (match_at true r prev (c :: s)) as [st|] eqn:E; [|reflexivity].
      apply m_sound in E. destruct E as (st' & Hm & _).
      apply Hd in Hm. cbn [m_rest] in Hm. congruence.
    + apply IH. apply contains_false. apply contains_false in Hc.
      rewrite upper_cons in Hc.
      apply find_none_suffix in Hc. exact Hc.
Qed.

(* ----------------------------------------------------------------- *)
(** *** Comments *)

Lemma no_opener_no_block (s : str) :
  find (lit "/*") s = None -> contains_block_comment s = false.
Proof.
  induction s as [|c s IH]; intros H; [reflexivity|].
  apply find_none_cons in H. destruct H as [H1 H2].
  cbn [contains_block_comment]. rewrite (IH H2), orb_false_r.
  destruct s as [|d t]; [reflexivity|].
  simpl in H1. simpl. 
  destruct (Ascii.eqb c "/") eqn:E1, (Ascii.eqb d "*") eqn:E2; try reflexivity.
  apply Ascii.eqb_eq in E1, E2. subst.
  simpl in H1. discriminate.
Qed.

Lemma strip_line_comment_none (l : str) :
  find (lit "--") l = None -> Split.strip_line_comment l = l.
Proof. intros H. unfold Split.strip_line_comment. rewrite H. reflexivity. Qed.

(** X1: a text that holds neither [/*] nor [--] is returned by
    [strip_comments] as it is. *)
Theorem strip_comments_without_comments (content : str) :
  contains (lit "/*") content = false ->
  contains (lit "--") content = false ->
  Split.strip_comments content = content.
Proof.
  intros Hb Hl. apply contains_false in Hb, Hl.
  unfold Split.strip_comments.
  rewrite re_sub_noop
    by (apply re_search_block_none, no_opener_no_block; exact Hb).
  rewrite <- (join_split nl content) at 2. f_equal.
  rewrite <- (map_id (split nl content)) at 2.
  apply map_ext_in. intros l Hin.
  apply strip_line_comment_none.
  destruct (split_In_part _ _ _ Hin) as (a & b & E).
  rewrite E in Hl. eapply find_none_part; eauto.
Qed.

Lemma strip_comments_without_comments_witness :
  contains (lit "/*") plain_input = false /\
  contains (lit "--") plain_input = false /\
  Split.strip_comments plain_input = plain_input.
Proof.
  assert (H1 : contains (lit "/*") plain_input = false) by (vm_compute; reflexivity).
  assert (H2 : contains (lit "--") plain_input = false) by (vm_compute; reflexivity).
  split; [exact H1 | split; [exact H2|]].
  exact (strip_comments_without_comments plain_input H1 H2).
Defined.

Lemma strip_line_comment_clean (l : str) :
  find (lit "--") (Split.strip_line_comment l) = None.
Proof.
  unfold Split.strip_line_comment.
  destruct (find (lit "--") l) as [n|] eqn:E; [|exact E].
  replace (if truthy (rstrip (firstn n l)) then rstrip (firstn n l) else [])
    with (rstrip (firstn n l)) by (destruct (rstrip (firstn n l)); reflexivity).
  destruct (rstrip_prefix (firstn n l)) as [t Ht].
  apply find_app_none with (b := t). rewrite <- Ht.
  apply find_firstn; [discriminate | exact E].
Qed.

(** X2: whatever the text, what [strip_comments] returns holds no [--]. *)
Theorem strip_comments_leaves_no_line_comment (content : str) :
  contains (lit "--") (Split.strip_comments content) = false.
Proof.
  apply contains_false. unfold Split.strip_comments.
  apply find_join_none.
  - discriminate.
  - simpl. intros [H|[H|[]]]; discriminate.
  - apply Forall_forall. intros l H. apply in_map_iff in H.
    destruct H as (l0 & <- & _). apply strip_line_comment_clean.
Qed.

Lemma strip_comments_lines (content : str) :
  split nl (Split.strip_comments content)
  = map Split.strip_line_comment
      (split nl (re_sub false Split.block_comment_re [] content)).
Proof.
  unfold Split.strip_comments. apply split_join.
  - pose proof (split_nonempty nl (re_sub false Split.block_comment_re [] content)).
    destruct (split nl _); [congruence | discriminate].
  - pose proof (split_lines_no_sep nl (re_sub false Split.block_comment_re [] content)) as H.
    induction H as [|l ls Hl _ IH]; simpl; constructor; [|exact IH].
    destruct (strip_line_comment_prefix l) as [t Ht].
    intros Hin. apply Hl. rewrite Ht. apply in_or_app. left. exact Hin.
Qed.

(** X3: on a text without [/*], [strip_comments] keeps the number of lines,
    and every line it returns is the line it was made from with its end cut
    off. *)
Theorem strip_comments_keeps_lines (content : str) :
  contains (lit "/*") content = false ->
  length (split nl (Split.strip_comments content)) = length (split nl content) /\
  Forall2 (fun out inp => exists cut, inp = out ++ cut)
    (split nl (Split.strip_comments content)) (split nl content).
Proof.
  intros Hb. apply contains_false in Hb.
  rewrite strip_comments_lines.
  rewrite re_sub_noop
    by (apply re_search_block_none, no_opener_no_block; exact Hb).
  split; [apply length_map|].
  induction (split nl content) as [|l ls IH]; simpl; constructor; [|exact IH].
  apply strip_line_comment_prefix.
Qed.

Lemma strip_comments_keeps_lines_witness :
  contains (lit "/*") line_commented_input = false /\
  length (split nl (Split.strip_comments line_commented_input))
    = length (split nl line_commented_input) /\
  Forall2 (fun out inp => exists cut, inp = out ++ cut)
    (split nl (Split.strip_comments line_commented_input))
    (split nl line_commented_input).
Proof.
  assert (H : contains (lit "/*") line_commented_input = false)
    by (vm_compute; reflexivity).
  split; [exact H | exact (strip_comments_keeps_lines line_commented_input H)].
Defined.

Lemma close_none prev (r : str) caps :
  startswith (lit "*/") r = false ->
  m false (Seq (Chr "*") (Chr "/")) (MState prev r caps) (fun st => Some st) = None.
Proof.
  intros H. destruct r as [|c1 [|c2 r]]; cbn [m m_rest]; [reflexivity | |].
  - destruct (chr_eq false "*" c1); reflexivity.
  - unfold chr_eq. cbn [advance m_rest].
    change (startswith (lit "*/") (c1 :: c2 :: r))
      with (Ascii.eqb "*" c1 && (Ascii.eqb "/" c2 && true)) in H.
    rewrite andb_true_r in H.
    destruct (Ascii.eqb "*" c1); [|reflexivity]. cbn [andb] in H. rewrite H. reflexivity.
Qed.

(** A block comment whose text holds no [*/] is matched up to its end. *)
Lemma match_at_block_here prev (c b : str) :
  find (lit "*/") c = None ->
  exists prev',
  match_at false Split.block_comment_re prev (lit "/*" ++ c ++ lit "*/" ++ b)
  = Some (MState prev' b []).
Proof.
  intros Hc. eexists. unfold match_at, Split.block_comment_re.
  change (lit "/*" ++ c ++ lit "*/" ++ b)
    with ("/"%char :: "*"%char :: c ++ lit "*/" ++ b).
  cbn [m m_rest chr_eq]. rewrite !Ascii.eqb_refl. cbn [advance m_rest m_caps].
  apply star_lazy_first.
  - intros t1 t2 E Hne. apply close_none.
    destruct t2 as [|d t2]; [congruence|]. subst c.
    apply find_none_suffix in Hc. apply find_none_cons in Hc. destruct Hc as [Hc _].
    destruct t2 as [|e t2]; [|exact Hc].
    transitivity (Ascii.eqb "*" d && false); [reflexivity | apply andb_false_r].
  - reflexivity.
  - cbn [m_rest]. rewrite length_app. lia.
Qed.

Lemma starts_block_opener (s : str) :
  startswith (lit "/*") s = false -> starts_block s = false.
Proof.
  destruct s as [|c1 [|c2 t]]; try reflexivity.
  change (startswith (lit "/*") (c1 :: c2 :: t))
    with (Ascii.eqb "/" c1 && (Ascii.eqb "*" c2 && true)).
  rewrite andb_true_r. cbn [starts_block]. rewrite (Ascii.eqb_sym c1), (Ascii.eqb_sym c2).
  intros ->. reflexivity.
Qed.

(** The text before the first opener of a block comment is kept. *)
Lemma sub_go_before_opener repl (a x : str) :
  find (lit "/*") a = None -> startswith (lit "*") x = false ->
  forall prev,
  sub_go false Split.block_comment_re repl prev 0 (a ++ x)
  = a ++ sub_go false Split.block_comment_re repl (prev_after prev a) 0 x.
Proof.
  intros Ha Hx. induction a as [|c a IH]; intros prev; [reflexivity|].
  apply find_none_cons in Ha. destruct Ha as [H1 H2].
  cbn [app sub_go].
  assert (Hm : match_at false Split.block_comment_re prev (c :: a ++ x) = None).
  { apply match_at_block, starts_block_opener.
    destruct a as [|d a]; [|exact H1].
    destruct x as [|e x]; [exact H1|].
    transitivity (Ascii.eqb "/" c && (Ascii.eqb "*" e && true)); [reflexivity|].
    change (startswith (lit "*") (e :: x)) with (Ascii.eqb "*" e && true) in Hx.
    rewrite Hx. apply andb_false_r. }
  rewrite Hm. f_equal. apply IH. exact H2.
Qed.

(** X4: a block comment whose text holds no [*/] is cut out together with the
    line breaks inside it: where the text before and the text after hold no
    [/*], also when put together, the text with the comment is stripped to
    what the text without it is stripped to. *)
Theorem block_comment_cut_out (before comment after : str) :
  contains (lit "/*") (before ++ after) = false ->
  contains (lit "*/") comment = false ->
  Split.strip_comments (before ++ lit "/*" ++ comment ++ lit "*/" ++ after)
  = Split.strip_comments (before ++ after).
Proof.
  intros Hba Hc. apply contains_false in Hba, Hc.
  pose proof (find_app_none _ _ _ Hba) as Ha.
  pose proof (find_none_suffix _ _ _ Hba) as Hb.
  unfold Split.strip_comments. cbv zeta. f_equal. f_equal. f_equal.
  rewrite (@re_sub_noop false Split.block_comment_re [] (before ++ after))
    by (apply re_search_block_none, no_opener_no_block; exact Hba).
  unfold re_sub. rewrite sub_go_before_opener; [|exact Ha | reflexivity].
  f_equal.
  destruct (@match_at_block_here (prev_after None before) comment after Hc)
    as [prev' Hm].
  rewrite (app_assoc comment (lit "*/") after) in *.
  change (lit "/*" ++ (comment ++ lit "*/") ++ after)
    with ("/"%char :: ("*"%char :: comment ++ lit "*/") ++ after) in *.
  rewrite (@sub_go_match _ _ _ _ _ _ _ (length ("*"%char :: comment ++ lit "*/")) Hm)
    by (cbn [m_rest length]; rewrite length_app; cbn [length]; lia).
  rewrite sub_go_skip. cbn [app].
  apply sub_go_noop with (pos := 0).
  apply search_block_none, no_opener_no_block. exact Hb.
Qed.

Lemma block_comment_cut_out_witness :
  contains (lit "/*") (lit "A INT, " ++ lit " B INT") = false /\
  contains (lit "*/") (nl :: lit " old * column " ++ [nl]) = false /\
  Split.strip_comments
    (lit "A INT, " ++ lit "/*" ++ (nl :: lit " old * column " ++ [nl]) ++
     lit "*/" ++ lit " B INT")
  = Split.strip_comments (lit "A INT, " ++ lit " B INT").
Proof.
  assert (H1 : contains (lit "/*") (lit "A INT, " ++ lit " B INT") = false)
    by (vm_compute; reflexivity).
  assert (H2 : contains (lit "*/") (nl :: lit " old * column " ++ [nl]) = false)
    by (vm_compute; reflexivity).
  split; [exact H1 | split; [exact H2|]].
  exact (block_comment_cut_out (lit "A INT, ") _ (lit " B INT") H1 H2).
Defined.

(* ----------------------------------------------------------------- *)
(** *** Segmentation *)

Lemma seg_step_shape st (l : str) :
  ~ In nl l -> seg_shape st -> seg_shape (Split.seg_step st l).
Proof.
  intros Hnl [Hs Hc]. unfold Split.seg_step.
  destruct (truthy (strip l)) eqn:Et; cbn [negb]; [|split; assumption].
  assert (Hk : kept_line (strip l)).
  { repeat split; [exact Et | apply strip_idem |].
    intros H. apply strip_In in H. auto. }
  destruct (Split.starts_create_table (strip l)) eqn:Eo.
  - split; cbn [Split.statements Split.in_create_table Split.current_statement].
    + destruct (Split.nonempty (Split.current_statement st) && Split.in_create_table st) eqn:E;
        [|exact Hs].
      apply andb_true_iff in E. destruct E as [_ E].
      apply Forall_app. split; [exact Hs|]. constructor; [|constructor]. eauto.
    + intros _. simpl. auto.
  - destruct (Split.in_create_table st) eqn:Ei; [|split; [assumption | congruence]].
    specialize (Hc eq_refl).
    assert (Ho : shaped (Split.current_statement st ++ [strip l])).
    { destruct (Split.current_statement st) as [|l0 rest]; [destruct Hc|].
      destruct Hc as (H1 & H2 & H3). simpl. repeat split; try assumption; try apply H2.
      apply Forall_app. split; [exact H3|]. constructor; [|constructor]. auto. }
    destruct ((Split.paren_count st + Split.paren_balance (strip l) <=? 0)%Z &&
              endswith (lit ";") (strip l));
      split; cbn [Split.statements Split.in_create_table Split.current_statement];
      try discriminate; auto.
    apply Forall_app. split; [exact Hs|]. constructor; [|constructor]. eauto.
Qed.

Lemma seg_fold_shape (lines : list str) : forall st,
  Forall (fun l => ~ In nl l) lines ->
  seg_shape st -> seg_shape (fold_left Split.seg_step lines st).
Proof.
  induction lines as [|l lines IH]; intros st Hl H; simpl; [exact H|].
  inversion Hl; subst. apply IH; [assumption|]. apply seg_step_shape; assumption.
Qed.

Lemma extracted_shaped (content statement : str) :
  In statement (Split.extract_create_table_statements content) ->
  exists ls, statement = join [nl] ls /\ shaped ls.
Proof.
  unfold Split.extract_create_table_statements, Split.seg_finish.
  assert (Hi : seg_shape (fold_left Split.seg_step (split nl content) Split.seg_init)).
  { apply seg_fold_shape; [apply split_lines_no_sep|].
    split; [constructor | discriminate]. }
  destruct Hi as [Hs Hc]. intros H.
  destruct (Split.nonempty _ && Split.in_create_table _) eqn:E.
  - apply in_app_or in H. destruct H as [H|[H|[]]].
    + rewrite Forall_forall in Hs. auto.
    + apply andb_true_iff in E. destruct E as [_ E]. eauto.
  - rewrite Forall_forall in Hs. auto.
Qed.

(** X5: every statement that [extract_create_table_statements] returns starts
    with a line that opens a statement and has no other such line, and none
    of its lines is empty or has white space at its ends. *)
Theorem extracted_statement_shape (content statement : str) :
  In statement (Split.extract_create_table_statements content) ->
  exists first rest,
    split nl statement = first :: rest /\
    Split.starts_create_table first = true /\
    Forall (fun l => Split.starts_create_table l = false) rest /\
    Forall (fun l => l <> [] /\ strip l = l) (first :: rest).
Proof.
  intros H. apply extracted_shaped in H. destruct H as (ls & -> & Hs).
  destruct ls as [|first rest]; [destruct Hs|].
  destruct Hs as (Ho & (Ht & Hst & Hn) & Hr).
  exists first, rest. split; [|split; [exact Ho | split]].
  - apply split_join; [discriminate|]. constructor; [exact Hn|].
    eapply Forall_impl; [|exact Hr]. intros l [(_ & _ & Hl) _]. exact Hl.
  - eapply Forall_impl; [|exact Hr]. simpl. tauto.
  - constructor.
    + split; [destruct first; [discriminate | discriminate] | exact Hst].
    + eapply Forall_impl; [|exact Hr]. intros l [(Hl & Hl2 & _) _].
      split; [destruct l; [discriminate | discriminate] | exact Hl2].
Qed.

Lemma extracted_statement_shape_witness :
  In (lit "create table t2 (x int)")
     (Split.extract_create_table_statements two_statements_input) /\
  exists first rest,
    split nl (lit "create table t2 (x int)") = first :: rest /\
    Split.starts_create_table first = true /\
    Forall (fun l => Split.starts_create_table l = false) rest /\
    Forall (fun l => l <> [] /\ strip l = l) (first :: rest).
Proof.
  assert (H : In (lit "create table t2 (x int)")
                (Split.extract_create_table_statements two_statements_input))
    by (vm_compute; right; left; reflexivity).
  split; [exact H | exact (extracted_statement_shape two_statements_input _ H)].
Defined.

Lemma seg_step_after done st (l : str) :
  Split.seg_step (after done st) l = after done (Split.seg_step st l).
Proof.
  destruct st as [sts cur d b]. unfold Split.seg_step, after.
  cbn [Split.statements Split.current_statement Split.paren_count Split.in_create_table].
  destruct (negb (truthy (strip l))); [reflexivity|].
  destruct (Split.starts_create_table (strip l)).
  - destruct (Split.nonempty cur && b);
      cbn [Split.statements Split.current_statement Split.paren_count Split.in_create_table];
      rewrite ?app_assoc; reflexivity.
  - destruct b; [|reflexivity].
    destruct ((d + Split.paren_balance (strip l) <=? 0)%Z &&
              endswith (lit ";") (strip l));
      cbn [Split.statements Split.current_statement Split.paren_count Split.in_create_table];
      rewrite ?app_assoc; reflexivity.
Qed.

Lemma seg_fold_after (lines : list str) : forall done st,
  fold_left Split.seg_step lines (after done st)
  = after done (fold_left Split.seg_step lines st).
Proof.
  induction lines as [|l lines IH]; intros done st; simpl; [reflexivity|].
  rewrite seg_step_after. apply IH.
Qed.

Lemma seg_finish_after done st :
  Split.seg_finish (after done st) = done ++ Split.seg_finish st.
Proof.
  destruct st as [sts cur d b]. unfold Split.seg_finish, after.
  cbn [Split.statements Split.current_statement Split.paren_count Split.in_create_table].
  destruct (Split.nonempty cur && b); rewrite ?app_assoc; reflexivity.
Qed.

(** A text whose first line that is not blank opens a statement is segmented
    in the same way after any other text. *)
Lemma seg_fold_restart (lines : list str) : forall st,
  starts_with_statement lines = true ->
  Split.seg_finish (fold_left Split.seg_step lines st)
  = Split.seg_finish st ++
    Split.seg_finish (fold_left Split.seg_step lines Split.seg_init).
Proof.
  induction lines as [|l lines IH]; intros st H; [discriminate|].
  simpl in H. simpl fold_left.
  destruct (truthy (strip l)) eqn:Et.
  - assert (Hstep : forall s, Split.seg_step s l =
              after (Split.seg_finish s)
                (Split.SegState [] [strip l] (Split.paren_balance (strip l)) true)).
    { intros [sts cur d b]. unfold Split.seg_step, after, Split.seg_finish.
      rewrite Et, H.
      cbn [negb Split.statements Split.current_statement Split.paren_count
           Split.in_create_table].
      destruct (Split.nonempty cur && b); rewrite app_nil_r; reflexivity. }
    rewrite !Hstep, !seg_fold_after, !seg_finish_after. reflexivity.
  - assert (Hstep : forall s, Split.seg_step s l = s)
      by (intros s; unfold Split.seg_step; rewrite Et; reflexivity).
    rewrite !Hstep. apply IH. exact H.
Qed.

(** X6: a text whose first line that is not blank opens a statement is
    segmented on its own: after any text and a line break, the statements
    returned are those of the text before followed by those of the text. *)
Theorem segmentation_restarts_at_opening (before text : str) :
  starts_with_statement (split nl text) = true ->
  Split.extract_create_table_statements (before ++ [nl] ++ text)
  = Split.extract_create_table_statements before ++
    Split.extract_create_table_statements text.
Proof.
  intros H. unfold Split.extract_create_table_statements.
  simpl app. rewrite split_app_sep_gen, fold_left_app.
  apply seg_fold_restart. exact H.
Qed.

Lemma segmentation_restarts_at_opening_witness :
  starts_with_statement (split nl plain_input) = true /\
  Split.extract_create_table_statements
    (one_line_statement_input ++ [nl] ++ plain_input)
  = Split.extract_create_table_statements one_line_statement_input ++
    Split.extract_create_table_statements plain_input.
Proof.
  assert (H : starts_with_statement (split nl plain_input) = true)
    by (vm_compute; reflexivity).
  split; [exact H|].
  exact (segmentation_restarts_at_opening one_line_statement_input plain_input H).
Defined.

(** X7: [process_input_file] handles one statement for every line of the
    text without its comments that opens a statement. *)
Theorem outcomes_counted (content source_file_path utc_time : str) :
  length (Split.process_input_file content source_file_path utc_time)
  = length (filter opens (split nl (Split.strip_comments content))).
Proof.
  unfold Split.process_input_file. rewrite length_map. apply segment_count.
Qed.

(* ----------------------------------------------------------------- *)
(** *** Names *)

(** The pattern for a qualified name at the start of a statement that starts
    with one. *)
Lemma schema_table_re_at_start (kw1 ws1 kw2 ws2 schema table rest : str) :
  upper kw1 = lit "CREATE" -> upper kw2 = lit "TABLE" ->
  ws1 <> [] -> forallb isspace ws1 = true ->
  ws2 <> [] -> forallb isspace ws2 = true ->
  schema <> [] -> forallb isword schema = true ->
  table <> [] -> forallb isword table = true ->
  stops isword rest = true ->
  exists prev',
  match_at true Split.schema_table_re None
    (kw1 ++ ws1 ++ kw2 ++ ws2 ++ schema ++ lit "." ++ table ++ rest)
  = Some (MState prev' rest [(2, table); (1, schema)]).
Proof.
  intros K1 K2 N1 S1 N2 S2 Ns Ws Nt Wt Hr.
  eexists. unfold match_at, Split.schema_table_re, Split.create_table_kw.
  cbn [m].
  rewrite (@m_lit_eval _ true (lit "CREATE") kw1)
    by (apply upper_eq_chr_eq; [reflexivity | rewrite K1; reflexivity]).
  apply plus_greedy_max; [exact N1 | apply forallb_Forall; exact S1 | |].
  { apply stops_app; [destruct kw2; [discriminate | discriminate]|].
    eapply upper_head_not_space; [exact K2 | reflexivity]. }
  rewrite (@m_lit_eval _ true (lit "TABLE") kw2)
    by (apply upper_eq_chr_eq; [reflexivity | rewrite K2; reflexivity]).
  apply plus_greedy_max; [exact N2 | apply forallb_Forall; exact S2 | |].
  { apply stops_app; [exact Ns|]. destruct schema as [|c s]; [congruence|].
    simpl in Ws. apply andb_true_iff in Ws. destruct Ws as [Ws _].
    simpl. rewrite (isword_not_space _ Ws). reflexivity. }
  apply plus_greedy_max; [exact Ns | apply forallb_Forall; exact Ws | reflexivity |].
  rewrite consumed_app. unfold set_cap. simpl m_prev. simpl m_rest. simpl m_caps.
  simpl app. unfold chr_eq. simpl Ascii.eqb. cbv iota. unfold advance. simpl m_caps.
  apply plus_greedy_max; [exact Nt | apply forallb_Forall; exact Wt | exact Hr |].
  rewrite consumed_app. reflexivity.
Qed.

(** X8: a statement that starts with the words CREATE and TABLE in any case,
    each followed by white space, and then a schema, a dot and a table, both
    made of the characters of [\w], gives that schema and that table, and
    [process_input_file] names its file after them and puts the two header
    lines and a blank line before it. *)
Theorem qualified_name_extracted (kw1 ws1 kw2 ws2 schema table rest : str) :
  upper kw1 = lit "CREATE" -> upper kw2 = lit "TABLE" ->
  ws1 <> [] -> forallb isspace ws1 = true ->
  ws2 <> [] -> forallb isspace ws2 = true ->
  schema <> [] -> forallb isword schema = true ->
  table <> [] -> forallb isword table = true ->
  stops isword rest = true ->
  let statement := kw1 ++ ws1 ++ kw2 ++ ws2 ++ schema ++ lit "." ++ table ++ rest in
  Split.extract_schema_table_name statement = Some (schema, table) /\
  forall source_file_path utc_time,
    Split.process_statement source_file_path utc_time statement
    = Split.Emitted schema table (schema ++ lit "__" ++ table ++ lit ".sql")
        ((lit "-- Source file: " ++ source_file_path ++ [nl] ++
          lit "-- Extracted: " ++ utc_time ++ [nl; nl]) ++ statement).
Proof.
  intros K1 K2 N1 S1 N2 S2 Ns Ws Nt Wt Hr statement.
  destruct (@schema_table_re_at_start kw1 ws1 kw2 ws2 schema table rest
              K1 K2 N1 S1 N2 S2 Ns Ws Nt Wt Hr)
    as [prev' Hm].
  fold statement in Hm.
  assert (He : Split.extract_schema_table_name statement = Some (schema, table)).
  { unfold Split.extract_schema_table_name, re_search.
    rewrite (@search_from_here _ _ _ 0 _ _ Hm). reflexivity. }
  split; [exact He|]. intros src ts.
  unfold Split.process_statement. rewrite He.
  destruct schema; [congruence|]. destruct table; [congruence|]. reflexivity.
Qed.

Lemma qualified_name_extracted_witness :
  upper (lit "create") = lit "CREATE" /\ upper (lit "Table") = lit "TABLE" /\
  lit "  " <> [] /\ forallb isspace (lit "  ") = true /\
  [nl] <> [] /\ forallb isspace [nl] = true /\
  lit "app" <> [] /\ forallb isword (lit "app") = true /\
  lit "account_2" <> [] /\ forallb isword (lit "account_2") = true /\
  stops isword (lit " (id int);") = true /\
  let statement := lit "create" ++ lit "  " ++ lit "Table" ++ [nl] ++ lit "app" ++
                   lit "." ++ lit "account_2" ++ lit " (id int);" in
  Split.extract_schema_table_name statement = Some (lit "app", lit "account_2") /\
  forall source_file_path utc_time,
    Split.process_statement source_file_path utc_time statement
    = Split.Emitted (lit "app") (lit "account_2")
        (lit "app" ++ lit "__" ++ lit "account_2" ++ lit ".sql")
        ((lit "-- Source file: " ++ source_file_path ++ [nl] ++
          lit "-- Extracted: " ++ utc_time ++ [nl; nl]) ++ statement).
Proof.
  assert (K1 : upper (lit "create") = lit "CREATE") by reflexivity.
  assert (K2 : upper (lit "Table") = lit "TABLE") by reflexivity.
  assert (N1 : lit "  " <> []) by discriminate.
  assert (S1 : forallb isspace (lit "  ") = true) by reflexivity.
  assert (N2 : [nl] <> []) by discriminate.
  assert (S2 : forallb isspace [nl] = true) by reflexivity.
  assert (Ns : lit "app" <> []) by discriminate.
  assert (Ws : forallb isword (lit "app") = true) by reflexivity.
  assert (Nt : lit "account_2" <> []) by discriminate.
  assert (Wt : forallb isword (lit "account_2") = true) by reflexivity.
  assert (Hr : stops isword (lit " (id int);") = true) by reflexivity.
  repeat (split; [assumption|]).
  exact (@qualified_name_extracted _ _ _ _ _ _ _ K1 K2 N1 S1 N2 S2 Ns Ws Nt Wt Hr).
Defined.

Lemma schema_table_re_demands : demands true Split.schema_table_re (lit ".").
Proof.
  unfold Split.schema_table_re.
  do 2 apply demands_seq_r. apply demands_seq_l.
  apply (@demands_lit (lit ".")). reflexivity.
Qed.

(** The pattern for a name without a schema at the start of a statement that
    starts with one. *)
Lemma table_re_here (kw1 ws1 kw2 ws2 table rest : str) :
  upper kw1 = lit "CREATE" -> upper kw2 = lit "TABLE" ->
  ws1 <> [] -> forallb isspace ws1 = true ->
  ws2 <> [] -> forallb isspace ws2 = true ->
  table <> [] -> forallb isword table = true ->
  stops isword rest = true ->
  exists prev',
  match_at true Split.table_re None (kw1 ++ ws1 ++ kw2 ++ ws2 ++ table ++ rest)
  = Some (MState prev' rest [(1, table)]).
Proof.
  intros K1 K2 N1 S1 N2 S2 Nt Wt Hr.
  eexists. unfold match_at, Split.table_re, Split.create_table_kw.
  cbn [m].
  rewrite (@m_lit_eval _ true (lit "CREATE") kw1)
    by (apply upper_eq_chr_eq; [reflexivity | rewrite K1; reflexivity]).
  apply plus_greedy_max; [exact N1 | apply forallb_Forall; exact S1 | |].
  { apply stops_app; [destruct kw2; [discriminate | discriminate]|].
    eapply upper_head_not_space; [exact K2 | reflexivity]. }
  rewrite (@m_lit_eval _ true (lit "TABLE") kw2)
    by (apply upper_eq_chr_eq; [reflexivity | rewrite K2; reflexivity]).
  apply plus_greedy_max; [exact N2 | apply forallb_Forall; exact S2 | |].
  { apply stops_app; [exact Nt|]. destruct table as [|c s]; [congruence|].
    simpl in Wt. apply andb_true_iff in Wt. destruct Wt as [Wt _].
    simpl. rewrite (isword_not_space _ Wt). reflexivity. }
  apply plus_greedy_max; [exact Nt | apply forallb_Forall; exact Wt | exact Hr |].
  rewrite consumed_app. reflexivity.
Qed.

(** X9: a statement that starts with the words CREATE and TABLE and a name
    without a schema, and that holds no dot, gets the schema [DEFAULT] and
    that name as its table. *)
Theorem unqualified_name_gets_default (kw1 ws1 kw2 ws2 table rest : str) :
  upper kw1 = lit "CREATE" -> upper kw2 = lit "TABLE" ->
  ws1 <> [] -> forallb isspace ws1 = true ->
  ws2 <> [] -> forallb isspace ws2 = true ->
  table <> [] -> forallb isword table = true ->
  stops isword rest = true ->
  let statement := kw1 ++ ws1 ++ kw2 ++ ws2 ++ table ++ rest in
  contains (lit ".") statement = false ->
  Split.extract_schema_table_name statement = Some (lit "DEFAULT", table).
Proof.
  intros K1 K2 N1 S1 N2 S2 Nt Wt Hr statement Hd.
  destruct (@table_re_here kw1 ws1 kw2 ws2 table rest K1 K2 N1 S1 N2 S2 Nt Wt Hr)
    as [prev' Hm].
  fold statement in Hm.
  unfold Split.extract_schema_table_name, re_search.
  assert (Hu : contains (lit ".") (upper statement) = false)
    by (apply contains_false, find_dot_upper, contains_false; exact Hd).
  rewrite (@demands_search _ _ schema_table_re_demands statement None 0 Hu).
  rewrite (@search_from_here _ _ _ 0 _ _ Hm). reflexivity.
Qed.

Lemma unqualified_name_gets_default_witness :
  upper (lit "create") = lit "CREATE" /\ upper (lit "table") = lit "TABLE" /\
  lit " " <> [] /\ forallb isspace (lit " ") = true /\
  lit " " <> [] /\ forallb isspace (lit " ") = true /\
  lit "account" <> [] /\ forallb isword (lit "account") = true /\
  stops isword (lit " (id int);") = true /\
  contains (lit ".")
    (lit "create" ++ lit " " ++ lit "table" ++ lit " " ++ lit "account" ++
     lit " (id int);") = false /\
  Split.extract_schema_table_name
    (lit "create" ++ lit " " ++ lit "table" ++ lit " " ++ lit "account" ++
     lit " (id int);")
  = Some (lit "DEFAULT", lit "account").
Proof.
  assert (K1 : upper (lit "create") = lit "CREATE") by reflexivity.
  assert (K2 : upper (lit "table") = lit "TABLE") by reflexivity.
  assert (N1 : lit " " <> []) by discriminate.
  assert (S1 : forallb isspace (lit " ") = true) by reflexivity.
  assert (Nt : lit "account" <> []) by discriminate.
  assert (Wt : forallb isword (lit "account") = true) by reflexivity.
  assert (Hr : stops isword (lit " (id int);") = true) by reflexivity.
  assert (Hd : contains (lit ".")
                 (lit "create" ++ lit " " ++ lit "table" ++ lit " " ++
                  lit "account" ++ lit " (id int);") = false)
    by (vm_compute; reflexivity).
  repeat (split; [assumption|]).
  exact (@unqualified_name_gets_default _ _ _ _ _ _ K1 K2 N1 S1 N1 S1 Nt Wt Hr Hd).
Defined.

(* ----------------------------------------------------------------- *)
(** *** The loop over the input files *)

Lemma extracted_not_skipped (content statement source_file_path utc_time : str) :
  In statement (Split.extract_create_table_statements content) ->
  Split.process_statement source_file_path utc_time statement <> Split.Skipped.
Proof.
  intros H. apply extracted_opened in H. destruct H as (ls & -> & Ho).
  apply join_opened_app in Ho. destruct Ho as (l0 & x & -> & Ho).
  unfold Split.process_statement, Split.extract_schema_table_name.
  destruct (re_search true Split.schema_table_re (l0 ++ x)) as [mt|] eqn:E1.
  - apply schema_table_re_groups in E1. destruct E1 as [G1 G2].
    destruct (group 1 mt); [congruence|]. destruct (group 2 mt); [congruence|].
    discriminate.
  - destruct (re_search true Split.table_re (l0 ++ x)) as [mt|] eqn:E2.
    + apply table_re_group in E2. destruct (group 1 mt); [congruence|]. discriminate.
    + exfalso. revert E2. apply search_from_found.
      apply table_re_at_start. exact Ho.
Qed.

Lemma manifest_entries_nil (written : str -> str -> bool)
  (source_file_path : str) (outcomes : list Split.outcome) :
  SplitMain.manifest_entries written source_file_path outcomes = [] <->
  existsb (file_written written) outcomes = false.
Proof.
  induction outcomes as [|o os IH]; [split; reflexivity|].
  cbn [SplitMain.manifest_entries flat_map existsb].
  fold (SplitMain.manifest_entries written source_file_path os).
  destruct o as [|sc tb fn tx]; cbn [file_written orb app]; [exact IH|].
  destruct (written fn tx); cbn [orb app]; [split; discriminate | exact IH].
Qed.

(** When every write succeeds, a file gives a table exactly when its text
    has a line that opens a statement. *)
Lemma all_written_opens (content source_file_path utc_time : str) :
  existsb (file_written (fun _ _ => true))
    (Split.process_input_file content source_file_path utc_time)
  = existsb opens (split nl (Split.strip_comments content)).
Proof.
  pose proof (segment_count (Split.strip_comments content)) as Hc.
  unfold Split.process_input_file.
  pose proof (@extracted_not_skipped (Split.strip_comments content)) as Hn.
  destruct (Split.extract_create_table_statements (Split.strip_comments content))
    as [|st sts].
  - cbn [map existsb]. symmetry.
    destruct (existsb opens _) eqn:E; [|reflexivity].
    apply existsb_exists in E. destruct E as (l & Hin & Hop).
    assert (Hf : In l (filter opens (split nl (Split.strip_comments content))))
      by (apply filter_In; auto).
    destruct (filter opens _); [destruct Hf | discriminate].
  - cbn [map existsb].
    destruct (Split.process_statement source_file_path utc_time st) eqn:E.
    + exfalso. apply (Hn st source_file_path utc_time); [left; reflexivity | exact E].
    + cbn [file_written orb]. symmetry.
      destruct (filter opens (split nl (Split.strip_comments content)))
        as [|l ls] eqn:Ef; [discriminate|].
      assert (Hf : In l (filter opens (split nl (Split.strip_comments content))))
        by (rewrite Ef; left; reflexivity).
      apply filter_In in Hf. destruct Hf as [Hin Hop].
      apply existsb_exists. eauto.
Qed.

Lemma manifest_entries_source (written : str -> str -> bool)
  (source_file_path : str) (outcomes : list Split.outcome) :
  Forall (fun item => SplitMain.source_file item = source_file_path)
    (SplitMain.manifest_entries written source_file_path outcomes).
Proof.
  induction outcomes as [|o os IH]; [constructor|].
  cbn [SplitMain.manifest_entries flat_map].
  destruct o as [|sc tb fn tx]; [exact IH|].
  destruct (written fn tx); [|exact IH].
  constructor; [reflexivity | exact IH].
Qed.

Lemma filter_own_entries (written : str -> str -> bool) (name : str)
  (outcomes : list Split.outcome) :
  filter (fun item => str_eqb (SplitMain.source_file item) (SplitMain.source_path name))
    (SplitMain.manifest_entries written (SplitMain.source_path name) outcomes)
  = SplitMain.manifest_entries written (SplitMain.source_path name) outcomes.
Proof.
  apply filter_all. eapply Forall_impl; [|apply manifest_entries_source].
  intros item H. apply str_eqb_eq. exact H.
Qed.

(** The entries of the files seen before are not those of a file with
    another name. *)
Lemma filter_other_entries (seen : list str) (name : str)
  (manifest_data : list SplitMain.entry) :
  ~ In name seen ->
  Forall (fun item => In (SplitMain.source_file item) (map SplitMain.source_path seen))
    manifest_data ->
  filter (fun item => str_eqb (SplitMain.source_file item) (SplitMain.source_path name))
    manifest_data = [].
Proof.
  intros Hn Hseen. apply filter_none.
  eapply Forall_impl; [|exact Hseen]. intros item Hi. apply str_eqb_neq.
  intros E. cbv beta in Hi. rewrite E in Hi. apply in_map_iff in Hi.
  destruct Hi as (n & En & Hin). unfold SplitMain.source_path in En.
  apply app_inv_head in En. subst n. exact (Hn Hin).
Qed.

(** The files seen so far have distinct names: the count of the tables is
    the length of the manifest. *)
Lemma main_loop_count (written : str -> str -> bool) (utc_time : str)
  (sql_files : list (str * option str)) :
  forall (seen : list str) manifest_data tables_found,
  NoDup (seen ++ map fst sql_files) ->
  Forall (fun item => In (SplitMain.source_file item) (map SplitMain.source_path seen))
    manifest_data ->
  tables_found = length manifest_data ->
  snd (fold_left (SplitMain.main_step written utc_time) sql_files
         (manifest_data, tables_found))
  = length (fst (fold_left (SplitMain.main_step written utc_time) sql_files
                   (manifest_data, tables_found))).
Proof.
  induction sql_files as [|[name read] files IH];
    intros seen manifest_data tables_found Hnd Hseen Hcount; [exact Hcount|].
  cbn [fold_left SplitMain.main_step]. cbv zeta.
  assert (Hname : ~ In name seen).
  { cbn [map fst] in Hnd. apply NoDup_remove_2 in Hnd. intros Hi. apply Hnd.
    apply in_or_app. left. exact Hi. }
  assert (Hnd' : NoDup ((seen ++ [name]) ++ map fst files))
    by (rewrite <- app_assoc; exact Hnd).
  assert (Hseen' : Forall (fun item => In (SplitMain.source_file item)
                                         (map SplitMain.source_path (seen ++ [name])))
                     manifest_data).
  { eapply Forall_impl; [|exact Hseen]. intros item Hi.
    rewrite map_app. apply in_or_app. left. exact Hi. }
  destruct read as [content|].
  - apply (IH (seen ++ [name])); [exact Hnd' | |].
    + apply Forall_app. split; [exact Hseen'|].
      eapply Forall_impl; [|apply manifest_entries_source]. intros item Hi.
      rewrite Hi, map_app. apply in_or_app. right. left. reflexivity.
    + rewrite filter_app, filter_own_entries, !length_app.
      rewrite (@filter_other_entries _ _ _ Hname Hseen). simpl. lia.
  - apply (IH (seen ++ [name])); [exact Hnd' | exact Hseen' |].
    rewrite (@filter_other_entries _ _ _ Hname Hseen). simpl. lia.
Qed.

(** No table is counted exactly when the manifest is empty. *)
Lemma main_loop_none (written : str -> str -> bool) (utc_time : str)
  (sql_files : list (str * option str)) :
  forall manifest_data tables_found,
  (tables_found = 0 <-> manifest_data = []) ->
  (snd (fold_left (SplitMain.main_step written utc_time) sql_files
          (manifest_data, tables_found)) = 0 <->
   manifest_data = [] /\
   Forall (fun f => gives_table written utc_time f = false) sql_files).
Proof.
  induction sql_files as [|[name read] files IH];
    intros manifest_data tables_found Hinv.
  - cbn [fold_left snd]. rewrite Hinv. split; [intros ->; split; constructor | tauto].
  - cbn [fold_left SplitMain.main_step]. cbv zeta.
    rewrite Forall_cons_iff. unfold gives_table at 1. cbn [fst snd].
    destruct read as [content|].
    + pose proof (manifest_entries_nil written (SplitMain.source_path name)
                    (Split.process_input_file content (SplitMain.source_path name)
                       utc_time)) as Hnew.
      pose proof (filter_own_entries written name
                    (Split.process_input_file content (SplitMain.source_path name)
                       utc_time)) as Hown.
      set (new := SplitMain.manifest_entries written (SplitMain.source_path name)
                    (Split.process_input_file content (SplitMain.source_path name)
                       utc_time)) in *.
      rewrite IH.
      * rewrite <- Hnew. split.
        -- intros [Hm Hf]. apply app_eq_nil in Hm. tauto.
        -- intros (-> & -> & Hf). auto.
      * rewrite filter_app, Hown, length_app. split.
        -- intros H.
           assert (Ht : tables_found = 0) by lia. apply Hinv in Ht. subst manifest_data.
           destruct new; [reflexivity | simpl in H; lia].
        -- intros H. apply app_eq_nil in H. destruct H as [-> ->].
           assert (Ht : tables_found = 0) by (apply Hinv; reflexivity).
           subst. reflexivity.
    + rewrite IH.
      * tauto.
      * split.
        -- intros H. apply Hinv. lia.
        -- intros ->. assert (Ht : tables_found = 0) by (apply Hinv; reflexivity).
           subst. reflexivity.
Qed.

(** X10: with an input directory that exists and holds at least one file,
    an output directory that can be made and a manifest that can be written,
    [main] returns 0 when some file could be read and the file of one of its
    statements could be written, and 3 otherwise; when every write succeeds,
    it returns 0 when the text of some file that could be read, without its
    comments, has a line that opens a statement, and 3 when no file has
    one. *)
Theorem main_exit_code (written : str -> str -> bool)
  (sql_files : list (str * option str)) (utc_time : str) :
  sql_files <> [] ->
  fst (SplitMain.main written true sql_files utc_time)
    = (if existsb (gives_table written utc_time) sql_files then 0 else 3) /\
  fst (SplitMain.main (fun _ _ => true) true sql_files utc_time)
    = (if existsb holds_statement sql_files then 0 else 3).
Proof.
  intros Hne.
  assert (Hgen : forall w,
            fst (SplitMain.main w true sql_files utc_time)
            = (if existsb (gives_table w utc_time) sql_files then 0 else 3)).
  { intros w. unfold SplitMain.main. cbn [negb].
    destruct sql_files as [|f files]; [congruence|]. cbn [Split.nonempty negb].
    pose proof (@main_loop_none w utc_time (f :: files) [] 0
                  (conj (fun _ => eq_refl) (fun _ => eq_refl))) as H.
    fold (SplitMain.main_loop w utc_time (f :: files)) in H.
    destruct (SplitMain.main_loop w utc_time (f :: files))
      as [manifest_data tables_found].
    cbn [snd] in H.
    destruct (existsb _ (f :: files)) eqn:E.
    - destruct (tables_found =? 0) eqn:Et; [|reflexivity].
      apply Nat.eqb_eq in Et. apply H in Et. destruct Et as [_ Hf].
      apply existsb_exists in E. destruct E as (g & Hin & Hg).
      rewrite Forall_forall in Hf. rewrite (Hf g Hin) in Hg. discriminate.
    - destruct (tables_found =? 0) eqn:Et; [reflexivity|].
      apply Nat.eqb_neq in Et. exfalso. apply Et. apply H. split; [reflexivity|].
      apply Forall_forall. intros g Hin.
      destruct (gives_table w utc_time g) eqn:Eg; [|reflexivity].
      assert (existsb (gives_table w utc_time) (f :: files) = true)
        by (apply existsb_exists; eauto).
      congruence. }
  split; [apply Hgen|]. rewrite Hgen.
  assert (E : existsb (gives_table (fun _ _ => true) utc_time) sql_files
              = existsb holds_statement sql_files).
  { clear Hne Hgen. induction sql_files as [|[name read] files IH]; [reflexivity|].
    cbn [existsb]. rewrite IH. f_equal.
    unfold gives_table, holds_statement. cbn [fst snd].
    destruct read; [apply all_written_opens | reflexivity]. }
  rewrite E. reflexivity.
Qed.

Lemma main_exit_code_witness :
  [(lit "a.sql", Some plain_input); (lit "b.txt", None)] <> [] /\
  fst (SplitMain.main (fun name _ => negb (str_eqb name (lit "DEFAULT__T1.sql"))) true
         [(lit "a.sql", Some plain_input); (lit "b.txt", None)] [])
    = (if existsb
            (gives_table (fun name _ => negb (str_eqb name (lit "DEFAULT__T1.sql"))) [])
            [(lit "a.sql", Some plain_input); (lit "b.txt", None)]
       then 0 else 3) /\
  fst (SplitMain.main (fun _ _ => true) true
         [(lit "a.sql", Some plain_input); (lit "b.txt", None)] [])
    = (if existsb holds_statement
            [(lit "a.sql", Some plain_input); (lit "b.txt", None)]
       then 0 else 3).
Proof.
  assert (H : [(lit "a.sql", Some plain_input); (lit "b.txt", @None str)] <> [])
    by discriminate.
  split; [exact H | exact (@main_exit_code _ _ [] H)].
Defined.

(** X11: when the input files have distinct names, the number of tables
    [main] counts is the number of entries of the manifest, whichever files
    can be read and whichever writes succeed. *)
Theorem tables_found_counts_manifest (written : str -> str -> bool)
  (sql_files : list (str * option str)) (utc_time : str) :
  NoDup (map fst sql_files) ->
  snd (SplitMain.main_loop written utc_time sql_files)
  = length (fst (SplitMain.main_loop written utc_time sql_files)).
Proof.
  intros H. unfold SplitMain.main_loop.
  apply (@main_loop_count written utc_time sql_files []);
    [exact H | constructor | reflexivity].
Qed.

Lemma tables_found_counts_manifest_witness :
  NoDup (map fst [(lit "a.sql", Some plain_input);
                  (lit "b.txt", Some two_statements_input)]) /\
  snd (SplitMain.main_loop (fun _ _ => true) []
         [(lit "a.sql", Some plain_input); (lit "b.txt", Some two_statements_input)])
  = length (fst (SplitMain.main_loop (fun _ _ => true) []
                   [(lit "a.sql", Some plain_input);
                    (lit "b.txt", Some two_statements_input)])).
Proof.
  assert (H : NoDup (map fst [(lit "a.sql", Some plain_input);
                              (lit "b.txt", Some two_statements_input)])).
  { simpl. constructor; [|constructor; [|constructor]].
    - simpl. intros [E|[]]. discriminate E.
    - simpl. intros []. }
  split; [exact H | exact (@tables_found_counts_manifest (fun _ _ => true) _ [] H)].
Defined.

(* ----------------------------------------------------------------- *)
(** *** From the extractor to the transpiler *)




(** What [process_statement] hands on when it does not skip. *)
Lemma process_statement_emitted
  (source_file_path utc_time statement schema table file_name text : str) :
  Split.process_statement source_file_path utc_time statement
    = Split.Emitted schema table file_name text ->
  Split.extract_schema_table_name statement = Some (schema, table) /\
  schema <> [] /\ table <> [] /\
  file_name = schema ++ lit "__" ++ table ++ lit ".sql" /\
  text = (lit "-- Source file: " ++ source_file_path ++ [nl] ++
          lit "-- Extracted: " ++ utc_time ++ [nl; nl]) ++ statement.
Proof.
  unfold Split.process_statement.
  destruct (Split.extract_schema_table_name statement) as [[s t]|]; [|discriminate].
  destruct (negb (truthy s) || negb (truthy t)) eqn:E; [discriminate|].
  apply orb_false_iff in E. destruct E as [E1 E2].
  remember (s ++ lit "__" ++ t ++ lit ".sql") as fn eqn:Hfn.
  remember ((lit "-- Source file: " ++ source_file_path ++ [nl] ++
             lit "-- Extracted: " ++ utc_time ++ [nl; nl]) ++ statement)
    as tx eqn:Htx.
  intros H. injection H as <- <- <- <-.
  repeat split; try assumption.
  - intros ->. discriminate.
  - intros ->. discriminate.
Qed.

(** X12: the table name goes through the name of the file: for a statement
    the extractor gives a file, where the schema holds no [__] and does not
    end in [_] and the table holds no [__], the name the transpiler takes
    from the name of the file is the schema, a dot and the table. *)
Theorem file_name_gives_table_name
  (source_file_path utc_time statement schema table file_name text : str) :
  Split.process_statement source_file_path utc_time statement
    = Split.Emitted schema table file_name text ->
  contains (lit "__") (schema ++ lit "_") = false ->
  contains (lit "__") table = false ->
  replace (lit "__") (lit ".") (stem file_name) = schema ++ lit "." ++ table.
Proof.
  intros H Hs Ht.
  apply process_statement_emitted in H. destruct H as (_ & _ & _ & -> & _).
  apply table_name_of_file_name; assumption.
Qed.

Lemma file_name_gives_table_name_witness :
  Split.process_statement (lit "data/input/a.sql") (lit "2025") lower_case_statement
    = Split.Emitted (lit "app") (lit "account") (lit "app__account.sql")
        (lit "-- Source file: data/input/a.sql" ++ [nl] ++ lit "-- Extracted: 2025" ++
         [nl; nl] ++ lower_case_statement) /\
  contains (lit "__") (lit "app" ++ lit "_") = false /\
  contains (lit "__") (lit "account") = false /\
  replace (lit "__") (lit ".") (stem (lit "app__account.sql"))
  = lit "app" ++ lit "." ++ lit "account".
Proof.
  assert (H : Split.process_statement (lit "data/input/a.sql") (lit "2025")
                lower_case_statement
              = Split.Emitted (lit "app") (lit "account") (lit "app__account.sql")
                  (lit "-- Source file: data/input/a.sql" ++ [nl] ++
                   lit "-- Extracted: 2025" ++ [nl; nl] ++ lower_case_statement))
    by (vm_compute; reflexivity).
  assert (Hs : contains (lit "__") (lit "app" ++ lit "_") = false)
    by (vm_compute; reflexivity).
  assert (Ht : contains (lit "__") (lit "account") = false)
    by (vm_compute; reflexivity).
  split; [exact H | split; [exact Hs | split; [exact Ht|]]].
  exact (@file_name_gives_table_name _ _ _ _ _ _ _ H Hs Ht).
Defined.

Lemma startswith_strip_comment (s : str) :
  startswith (lit "--") (strip (lit "--" ++ s)) = true.
Proof.
  unfold strip, lstrip. simpl drop_while. unfold rstrip. simpl rev.
  rewrite !drop_while_snoc by reflexivity.
  rewrite !rev_app_distr. reflexivity.
Qed.

(** X13: a file of the extractor, given to the transpiler, keeps its header:
    where the path of the source and the time stamp hold no line break, the
    header lines [process_table_file] finds are the two lines the extractor
    put there, and the text it returns is these two lines, a blank line and
    the converted text. *)
Theorem extracted_file_keeps_header
  (source_file_path utc_time statement schema table file_name text : str)
  (log : list Issue) :
  Split.process_statement source_file_path utc_time statement
    = Split.Emitted schema table file_name text ->
  ~ In nl source_file_path -> ~ In nl utc_time ->
  header_lines (split nl text)
    = [lit "-- Source file: " ++ source_file_path; lit "-- Extracted: " ++ utc_time] /\
  exists converted log',
    convert_db2_to_snowflake text
      (replace (lit "__") (lit ".") (stem file_name)) log = (converted, log') /\
    process_table_file file_name text log
    = (lit "-- Source file: " ++ source_file_path ++ [nl] ++
       lit "-- Extracted: " ++ utc_time ++ [nl] ++ [nl] ++ converted, log').
Proof.
  intros H Hp Ht.
  apply process_statement_emitted in H. destruct H as (_ & _ & _ & -> & ->).
  assert (Hl : split nl
            ((lit "-- Source file: " ++ source_file_path ++ [nl] ++
              lit "-- Extracted: " ++ utc_time ++ [nl; nl]) ++ statement)
          = (lit "-- Source file: " ++ source_file_path)
            :: (lit "-- Extracted: " ++ utc_time) :: [] :: split nl statement).
  { replace ((lit "-- Source file: " ++ source_file_path ++ [nl] ++
              lit "-- Extracted: " ++ utc_time ++ [nl; nl]) ++ statement)
      with ((lit "-- Source file: " ++ source_file_path) ++ nl ::
            (lit "-- Extracted: " ++ utc_time) ++ nl :: [] ++ nl :: statement)
      by (repeat (rewrite <- ?app_assoc; simpl); reflexivity).
    rewrite split_app_line.
    2:{ intros Hi. apply in_app_or in Hi. destruct Hi as [Hi|Hi]; [|auto].
        simpl in Hi. repeat (destruct Hi as [Hi|Hi]; [discriminate|]). exact Hi. }
    rewrite split_app_line.
    2:{ intros Hi. apply in_app_or in Hi. destruct Hi as [Hi|Hi]; [|auto].
        simpl in Hi. repeat (destruct Hi as [Hi|Hi]; [discriminate|]). exact Hi. }
    rewrite split_app_line by (intros []). reflexivity. }
  assert (Hh : header_lines (split nl
            ((lit "-- Source file: " ++ source_file_path ++ [nl] ++
              lit "-- Extracted: " ++ utc_time ++ [nl; nl]) ++ statement))
          = [lit "-- Source file: " ++ source_file_path;
             lit "-- Extracted: " ++ utc_time]).
  { rewrite Hl. cbn [header_lines].
    change (lit "-- Source file: " ++ source_file_path)
      with (lit "--" ++ (lit " Source file: " ++ source_file_path)).
    change (lit "-- Extracted: " ++ utc_time)
      with (lit "--" ++ (lit " Extracted: " ++ utc_time)).
    rewrite !startswith_strip_comment. reflexivity. }
  split; [exact Hh|].
  destruct (convert_db2_to_snowflake
              ((lit "-- Source file: " ++ source_file_path ++ [nl] ++
                lit "-- Extracted: " ++ utc_time ++ [nl; nl]) ++ statement)
              (replace (lit "__") (lit ".")
                 (stem (schema ++ lit "__" ++ table ++ lit ".sql")))
              log) as [converted log'] eqn:Ec.
  exists converted, log'. split; [reflexivity|].
  unfold process_table_file, bind, ret. cbv zeta. rewrite Ec, Hh.
  cbn [concat map]. rewrite app_nil_r, <- !app_assoc. reflexivity.
Qed.

Lemma extracted_file_keeps_header_witness :
  Split.process_statement (lit "data/input/a.sql") (lit "2025") lower_case_statement
    = Split.Emitted (lit "app") (lit "account") (lit "app__account.sql")
        (lit "-- Source file: data/input/a.sql" ++ [nl] ++ lit "-- Extracted: 2025" ++
         [nl; nl] ++ lower_case_statement) /\
  ~ In nl (lit "data/input/a.sql") /\ ~ In nl (lit "2025") /\
  header_lines
    (split nl (lit "-- Source file: data/input/a.sql" ++ [nl] ++
               lit "-- Extracted: 2025" ++ [nl; nl] ++ lower_case_statement))
    = [lit "-- Source file: " ++ lit "data/input/a.sql";
       lit "-- Extracted: " ++ lit "2025"] /\
  exists converted log',
    convert_db2_to_snowflake
      (lit "-- Source file: data/input/a.sql" ++ [nl] ++ lit "-- Extracted: 2025" ++
       [nl; nl] ++ lower_case_statement)
      (replace (lit "__") (lit ".") (stem (lit "app__account.sql"))) []
      = (converted, log') /\
    process_table_file (lit "app__account.sql")
      (lit "-- Source file: data/input/a.sql" ++ [nl] ++ lit "-- Extracted: 2025" ++
       [nl; nl] ++ lower_case_statement) []
    = (lit "-- Source file: " ++ lit "data/input/a.sql" ++ [nl] ++
       lit "-- Extracted: " ++ lit "2025" ++ [nl] ++ [nl] ++ converted, log').
Proof.
  assert (H : Split.process_statement (lit "data/input/a.sql") (lit "2025")
                lower_case_statement
              = Split.Emitted (lit "app") (lit "account") (lit "app__account.sql")
                  (lit "-- Source file: data/input/a.sql" ++ [nl] ++
                   lit "-- Extracted: 2025" ++ [nl; nl] ++ lower_case_statement))
    by (vm_compute; reflexivity).
  assert (Hp : ~ In nl (lit "data/input/a.sql"))
    by (vm_compute; intuition discriminate).
  assert (Ht : ~ In nl (lit "2025")) by (vm_compute; intuition discriminate).
  split; [exact H | split; [exact Hp | split; [exact Ht|]]].
  exact (@extracted_file_keeps_header _ _ _ _ _ _ _ [] H Hp Ht).
Defined.

(* ----------------------------------------------------------------- *)
(** *** Issues and types *)

Lemma logs_with_log_issue_cut (P : Issue -> Prop) (t c i s : str) :
  P (MkIssue t c i (if 80 <? length s then firstn 80 s else s)) ->
  logs_with P (log_issue t c i s).
Proof.
  intros H. eexists _, _. split; [apply emits_log_issue | repeat constructor; exact H].
Qed.

Ltac issue_step :=
  match goal with
  | |- logs_with _ (ret _) => apply logs_with_ret
  | |- logs_with _ (bind (log_issue _ _ _ _) _) =>
      apply logs_with_bind;
      [ apply logs_with_log_issue_cut;
        split; [reflexivity | split; [simpl; tauto | apply cut_snippet]]
      | intros ]
  | |- logs_with _ (if ?b then _ else _) => destruct b
  | |- logs_with _ (match re_search ?a ?b ?c with _ => _ end) =>
      destruct (re_search a b c)
  end.

Lemma convert_data_type_issues t (db2_type column_name : str) :
  logs_with (transpiler_issue t) (convert_data_type db2_type t column_name).
Proof. unfold convert_data_type. cbv zeta. repeat issue_step. Qed.

Lemma convert_default_value_issues t (default_expr column_name : str) :
  logs_with (transpiler_issue t) (convert_default_value default_expr t column_name).
Proof. unfold convert_default_value. cbv zeta. repeat issue_step. Qed.

Lemma parse_column_issues t (column_def : str) :
  logs_with (transpiler_issue t) (parse_column column_def t).
Proof.
  unfold parse_column. cbv zeta.
  apply logs_with_bind; [apply convert_data_type_issues|]. intros ty.
  apply logs_with_bind; [|intros; apply logs_with_ret].
  destruct (re_search _ _ _); [apply convert_default_value_issues | apply logs_with_ret].
Qed.

Lemma parse_column_definition_issues t (column_def : str) :
  logs_with (transpiler_issue t) (parse_column_definition column_def t).
Proof.
  unfold parse_column_definition. cbv zeta.
  destruct (negb _); [apply logs_with_ret|].
  destruct (negb _); [apply logs_with_ret|].
  apply logs_with_bind; [apply parse_column_issues | intros; apply logs_with_ret].
Qed.

Lemma convert_lines_issues t (lines : list str) : forall st,
  logs_with (transpiler_issue t) (convert_lines t lines st).
Proof.
  induction lines as [|l lines IH]; intros st; cbn [convert_lines]; cbv zeta.
  - apply logs_with_ret.
  - repeat match goal with
    | |- logs_with _ (convert_lines _ _ _) => apply IH
    | |- logs_with _ (bind (parse_column_definition _ _) _) =>
        apply logs_with_bind; [apply parse_column_definition_issues | intros]
    | _ => issue_step
    end.
Qed.

(** X14: [convert_db2_to_snowflake] only appends to the issues, and every
    issue it appends names the table it was given, has one of the six texts
    of the transpiler and a snippet of at most 80 characters. *)
Theorem issues_appended_well_formed (content table_name : str) (log : list Issue) :
  exists text d,
    convert_db2_to_snowflake content table_name log = (text, log ++ d) /\
    Forall (transpiler_issue table_name) d.
Proof.
  destruct (convert_lines_issues table_name (split nl content) (ConvState [] false []))
    as (st & d & Hst & Hd).
  eexists _, d. split; [|exact Hd].
  unfold convert_db2_to_snowflake, bind, ret. cbv zeta.
  rewrite Hst. reflexivity.
Qed.

(** X15: [convert_data_type] ignores the case of the type and the white space
    around it. *)
Theorem convert_data_type_ignores_case_and_margin
  (db2_type table_name column_name : str) :
  convert_data_type (upper db2_type) table_name column_name
    = convert_data_type db2_type table_name column_name /\
  convert_data_type (strip db2_type) table_name column_name
    = convert_data_type db2_type table_name column_name.
Proof.
  split; apply convert_data_type_normalized.
  - rewrite strip_upper, upper_idem. reflexivity.
  - rewrite strip_idem. reflexivity.
Qed.


(** X17: [GRAPHIC] is replaced before [VARGRAPHIC] is looked for, so that a
    type that starts with [VARGRAPHIC] is returned with [VARVARCHAR] in its
    place; one issue is appended, with the first 80 characters of the type. *)
Theorem vargraphic_keeps_var (db2_type args table_name column_name : str)
  (log : list Issue) :
  upper (strip db2_type) = lit "VARGRAPHIC" ++ args ->
  contains (lit "FOR SBCS DATA") args = false ->
  contains (lit "FOR BIT DATA") args = false ->
  convert_data_type db2_type table_name column_name log
  = (lit "VARVARCHAR" ++
     replace (lit "VARGRAPHIC") (lit "VARCHAR")
       (replace (lit "GRAPHIC") (lit "VARCHAR") args),
     log ++ [MkIssue table_name column_name
               (lit "mapped (VAR)GRAPHIC to VARCHAR")
               (firstn 80 (lit "VARGRAPHIC" ++ args))]).
Proof.
  intros H Hs Hb. unfold convert_data_type. cbv zeta. rewrite H.
  assert (Es : contains (lit "FOR SBCS DATA") (lit "VARGRAPHIC" ++ args) = false).
  { unfold contains in Hs |- *. cbn. destruct (find _ args); [discriminate | reflexivity]. }
  assert (Eb : contains (lit "FOR BIT DATA") (lit "VARGRAPHIC" ++ args) = false).
  { unfold contains in Hb |- *. cbn. destruct (find _ args); [discriminate | reflexivity]. }
  rewrite Es, Eb. rewrite <- cut_firstn. reflexivity.
Qed.

Lemma vargraphic_keeps_var_witness :
  upper (strip (lit " vargraphic(10) ")) = lit "VARGRAPHIC" ++ lit "(10)" /\
  contains (lit "FOR SBCS DATA") (lit "(10)") = false /\
  contains (lit "FOR BIT DATA") (lit "(10)") = false /\
  convert_data_type (lit " vargraphic(10) ") (lit "APP.T") (lit "C") []
  = (lit "VARVARCHAR" ++
     replace (lit "VARGRAPHIC") (lit "VARCHAR")
       (replace (lit "GRAPHIC") (lit "VARCHAR") (lit "(10)")),
     [] ++ [MkIssue (lit "APP.T") (lit "C") (lit "mapped (VAR)GRAPHIC to VARCHAR")
              (firstn 80 (lit "VARGRAPHIC" ++ lit "(10)"))]).
Proof.
  assert (H : upper (strip (lit " vargraphic(10) ")) = lit "VARGRAPHIC" ++ lit "(10)")
    by (vm_compute; reflexivity).
  assert (Hs : contains (lit "FOR SBCS DATA") (lit "(10)") = false)
    by (vm_compute; reflexivity).
  assert (Hb : contains (lit "FOR BIT DATA") (lit "(10)") = false)
    by (vm_compute; reflexivity).
  split; [exact H | split; [exact Hs | split; [exact Hb|]]].
  exact (@vargraphic_keeps_var _ _ (lit "APP.T") (lit "C") [] H Hs Hb).
Defined.

(** X18: a type that starts with [DECIMAL] or [NUMERIC] and holds neither
    word again is returned with [NUMBER] in its place and what follows as it
    is, without an issue. *)
Theorem decimal_becomes_number (db2_type prefix args table_name column_name : str)
  (log : list Issue) :
  upper (strip db2_type) = prefix ++ args ->
  prefix = lit "DECIMAL" \/ prefix = lit "NUMERIC" ->
  contains (lit "FOR SBCS DATA") args = false ->
  contains (lit "FOR BIT DATA") args = false ->
  contains (lit "DECIMAL") args = false ->
  contains (lit "NUMERIC") args = false ->
  convert_data_type db2_type table_name column_name log
  = (lit "NUMBER" ++ args, log).
Proof.
  intros H Hp Hs Hb Hd Hn. unfold convert_data_type. cbv zeta. rewrite H.
  apply contains_false in Hd, Hn.
  destruct Hp as [-> | ->].
  - assert (Es : contains (lit "FOR SBCS DATA") (lit "DECIMAL" ++ args) = false).
    { unfold contains in Hs |- *. cbn. destruct (find _ args); [discriminate | reflexivity]. }
    assert (Eb : contains (lit "FOR BIT DATA") (lit "DECIMAL" ++ args) = false).
    { unfold contains in Hb |- *. cbn. destruct (find _ args); [discriminate | reflexivity]. }
    rewrite Es, Eb.
    transitivity (lit "NUMBER" ++
                  replace (lit "NUMERIC") (lit "NUMBER")
                    (replace (lit "DECIMAL") (lit "NUMBER") args), log);
      [reflexivity|].
    unfold replace. rewrite (@replace_go_none _ (lit "NUMBER") _ Hd), (@replace_go_none _ (lit "NUMBER") _ Hn). reflexivity.
  - assert (Es : contains (lit "FOR SBCS DATA") (lit "NUMERIC" ++ args) = false).
    { unfold contains in Hs |- *. cbn. destruct (find _ args); [discriminate | reflexivity]. }
    assert (Eb : contains (lit "FOR BIT DATA") (lit "NUMERIC" ++ args) = false).
    { unfold contains in Hb |- *. cbn. destruct (find _ args); [discriminate | reflexivity]. }
    rewrite Es, Eb.
    transitivity (lit "NUMBER" ++
                  replace (lit "NUMERIC") (lit "NUMBER")
                    (replace (lit "DECIMAL") (lit "NUMBER") args), log);
      [reflexivity|].
    unfold replace. rewrite (@replace_go_none _ (lit "NUMBER") _ Hd), (@replace_go_none _ (lit "NUMBER") _ Hn). reflexivity.
Qed.

Lemma decimal_becomes_number_witness :
  upper (strip (lit "decimal(18,2)")) = lit "DECIMAL" ++ lit "(18,2)" /\
  (lit "DECIMAL" = lit "DECIMAL" \/ lit "DECIMAL" = lit "NUMERIC") /\
  contains (lit "FOR SBCS DATA") (lit "(18,2)") = false /\
  contains (lit "FOR BIT DATA") (lit "(18,2)") = false /\
  contains (lit "DECIMAL") (lit "(18,2)") = false /\
  contains (lit "NUMERIC") (lit "(18,2)") = false /\
  convert_data_type (lit "decimal(18,2)") (lit "APP.T") (lit "C") []
  = (lit "NUMBER" ++ lit "(18,2)", []).
Proof.
  assert (H : upper (strip (lit "decimal(18,2)")) = lit "DECIMAL" ++ lit "(18,2)")
    by (vm_compute; reflexivity).
  assert (Hp : lit "DECIMAL" = lit "DECIMAL" \/ lit "DECIMAL" = lit "NUMERIC")
    by (left; reflexivity).
  assert (Hs : contains (lit "FOR SBCS DATA") (lit "(18,2)") = false)
    by (vm_compute; reflexivity).
  assert (Hb : contains (lit "FOR BIT DATA") (lit "(18,2)") = false)
    by (vm_compute; reflexivity).
  assert (Hd : contains (lit "DECIMAL") (lit "(18,2)") = false)
    by (vm_compute; reflexivity).
  assert (Hn : contains (lit "NUMERIC") (lit "(18,2)") = false)
    by (vm_compute; reflexivity).
  repeat (split; [assumption|]).
  exact (@decimal_becomes_number _ _ _ (lit "APP.T") (lit "C") [] H Hp Hs Hb Hd Hn).
Defined.

(* ----------------------------------------------------------------- *)
(** *** Defaults and keys *)

Lemma current_re_demands (what : string) : demands true (current_re what) (lit "CURRENT").
Proof.
  unfold current_re. apply demands_seq_r, demands_seq_l, demands_lit. reflexivity.
Qed.

Lemma user_re_demands : demands true user_re (lit "USER").
Proof.
  unfold user_re. apply demands_seq_r, demands_seq_l, demands_lit. reflexivity.
Qed.



(** X19: a default that starts with the words WITH DEFAULT in any case, with
    one space between and after them, and whose value holds neither
    [CURRENT] nor [USER] in any case, becomes [DEFAULT] and the value as it
    is written, without an issue. *)
Theorem default_value_passed_on
  (default_expr kw value table_name column_name : str) (log : list Issue) :
  strip default_expr = kw ++ value ->
  upper kw = lit "WITH DEFAULT " ->
  contains (lit "CURRENT") (upper value) = false ->
  contains (lit "USER") (upper value) = false ->
  convert_default_value default_expr table_name column_name log
  = (lit "DEFAULT " ++ value, log).
Proof.
  intros Hs Hk Hc Hu.
  assert (Hl : length kw = 13).
  { assert (Hp : upper kw = map to_upper kw)
      by (apply upper_plain; rewrite Hk; reflexivity).
    rewrite <- (length_map to_upper kw), <- Hp, Hk. reflexivity. }
  unfold convert_default_value. cbv zeta.
  assert (Hne : truthy default_expr = true).
  { destruct default_expr; [|reflexivity]. destruct kw; discriminate. }
  rewrite Hne. cbn [negb]. rewrite Hs, upper_app, Hk.
  replace (str_eqb (lit "WITH DEFAULT " ++ upper value) (lit "WITH DEFAULT")) with false
    by (unfold str_eqb; destruct (list_eq_dec _ _ _) as [E|]; [|reflexivity];
        apply (f_equal (@length ascii)) in E; rewrite length_app in E;
        simpl in E; lia).
  replace (startswith (lit "WITH DEFAULT ") (lit "WITH DEFAULT " ++ upper value))
    with true by reflexivity.
  replace (skipn 13 (kw ++ value)) with value
    by (rewrite <- Hl, skipn_app, skipn_all, Nat.sub_diag; reflexivity).
  rewrite (@re_sub_noop true (current_re "TIMESTAMP") (lit "CURRENT_TIMESTAMP") value)
    by exact (@demands_search _ _ (@current_re_demands "TIMESTAMP") value None 0 Hc).
  rewrite (@re_sub_noop true (current_re "DATE") (lit "CURRENT_DATE") value)
    by exact (@demands_search _ _ (@current_re_demands "DATE") value None 0 Hc).
  rewrite (@re_sub_noop true (current_re "TIME") (lit "CURRENT_TIME") value)
    by exact (@demands_search _ _ (@current_re_demands "TIME") value None 0 Hc).
  unfold re_search at 1.
  rewrite (@demands_search _ _ user_re_demands value None 0 Hu).
  reflexivity.
Qed.

Lemma default_value_passed_on_witness :
  strip (lit " With Default 'n/a' ") = lit "With Default " ++ lit "'n/a'" /\
  upper (lit "With Default ") = lit "WITH DEFAULT " /\
  contains (lit "CURRENT") (upper (lit "'n/a'")) = false /\
  contains (lit "USER") (upper (lit "'n/a'")) = false /\
  convert_default_value (lit " With Default 'n/a' ") (lit "APP.T") (lit "C") []
  = (lit "DEFAULT " ++ lit "'n/a'", []).
Proof.
  assert (Hs : strip (lit " With Default 'n/a' ") = lit "With Default " ++ lit "'n/a'")
    by (vm_compute; reflexivity).
  assert (Hk : upper (lit "With Default ") = lit "WITH DEFAULT ")
    by (vm_compute; reflexivity).
  assert (Hc : contains (lit "CURRENT") (upper (lit "'n/a'")) = false)
    by (vm_compute; reflexivity).
  assert (Hu : contains (lit "USER") (upper (lit "'n/a'")) = false)
    by (vm_compute; reflexivity).
  repeat (split; [assumption|]).
  exact (@default_value_passed_on _ _ _ (lit "APP.T") (lit "C") [] Hs Hk Hc Hu).
Defined.



(** A repetition of a class consumes characters of the class only. *)
Lemma matches_star_cls_all ic g p st st' :
  matches ic (Star g (Cls p)) st st' ->
  exists t, m_rest st = t ++ m_rest st' /\ Forall (fun c => p c = true) t.
Proof.
  intros H. remember (Star g (Cls p)) as r eqn:Er.
  induction H; try discriminate.
  - exists []. split; [reflexivity | constructor].
  - injection Er as -> ->.
    apply matches_cls_inv in H. destruct H as (d & rest & E & Hp & ->).
    destruct (IHmatches2 eq_refl) as (t & Et & Ht). cbn [advance m_rest] in Et.
    exists (d :: t). split; [rewrite E, Et; reflexivity | constructor; assumption].
Qed.

Lemma matches_plus_cls_all ic p st st' :
  matches ic (Plus (Cls p)) st st' ->
  exists t, m_rest st = t ++ m_rest st' /\ Forall (fun c => p c = true) t.
Proof.
  unfold Plus. intros H.
  apply matches_seq_inv in H. destruct H as (s1 & H1 & H2).
  apply matches_cls_inv in H1. destruct H1 as (d & rest & E & Hp & ->).
  apply matches_star_cls_all in H2. destruct H2 as (t & Et & Ht).
  cbn [advance m_rest] in Et.
  exists (d :: t). split; [rewrite E, Et; reflexivity | constructor; assumption].
Qed.

Lemma consumed_prefix (t : str) st st' :
  m_rest st = t ++ m_rest st' -> consumed st st' = t.
Proof.
  intros E. unfold consumed. rewrite E, length_app, Nat.add_sub.
  rewrite firstn_app, Nat.sub_diag, firstn_all. simpl. apply app_nil_r.
Qed.

(** The group of a pattern that starts with it and has no other one. *)
Lemma group_of_class (p : ascii -> bool) (r : regex) (s : str) (mt : rmatch) :
  no_grp r = true ->
  re_search true (Seq (Grp 1 (Plus (Cls p))) r) s = Some mt ->
  Forall (fun c => p c = true) (group 1 mt).
Proof.
  intros Hg H. apply search_from_some in H.
  destruct H as (prev & pos & s' & st & Hm & ->).
  unfold match_at in Hm. apply m_sound in Hm. destruct Hm as (st' & Hm & Hk).
  injection Hk as <-.
  apply matches_seq_inv in Hm. destruct Hm as (s1 & H1 & H2).
  apply matches_grp_inv in H1. destruct H1 as (s0 & H1 & ->).
  apply matches_plus_cls_all in H1. destruct H1 as (t & Et & Ht).
  pose proof (matches_caps H2 Hg) as Hc.
  unfold group, mk_match. cbn [r_caps]. rewrite Hc. cbn [set_cap m_caps lookup Nat.eqb].
  rewrite (@consumed_prefix _ _ _ Et). exact Ht.
Qed.

Lemma table_pk_re_group (s : str) (mt : rmatch) :
  re_search true table_pk_re s = Some mt ->
  Forall (fun c => negb (Ascii.eqb c ")") = true) (group 1 mt).
Proof.
  intros H. apply search_from_some in H.
  destruct H as (prev & pos & s' & st & Hm & ->).
  unfold match_at in Hm. apply m_sound in Hm. destruct Hm as (st' & Hm & Hk).
  injection Hk as <-. unfold table_pk_re in Hm.
  apply matches_seq_inv in Hm. destruct Hm as (s1 & H1 & Hm).
  apply matches_seq_inv in Hm. destruct Hm as (s2 & H2 & Hm).
  apply matches_seq_inv in Hm. destruct Hm as (s3 & H3 & Hm).
  apply matches_seq_inv in Hm. destruct Hm as (s4 & H4 & Hm).
  apply matches_seq_inv in Hm. destruct Hm as (s5 & H5 & Hm).
  apply matches_seq_inv in Hm. destruct Hm as (s6 & H6 & H7).
  apply matches_grp_inv in H6. destruct H6 as (s0 & H6 & ->).
  apply matches_plus_cls_all in H6. destruct H6 as (t & Et & Ht).
  apply matches_chr_inv in H7. destruct H7 as (d & rest & _ & _ & ->).
  unfold group, mk_match. cbn [r_caps advance set_cap m_caps lookup Nat.eqb].
  rewrite (@consumed_prefix _ _ _ Et). exact Ht.
Qed.

Lemma word_is_stripped (k : str) :
  Forall (fun c => isword c = true) k -> strip k = k.
Proof.
  intros H. unfold strip, lstrip, rstrip.
  assert (Hd : forall x : str, Forall (fun c => isword c = true) x ->
                 drop_while isspace x = x).
  { intros x Hx. destruct Hx as [|c x Hc Hx]; [reflexivity|].
    simpl. rewrite (isword_not_space _ Hc). reflexivity. }
  rewrite (Hd k H), Hd, rev_involutive; [reflexivity|].
  apply Forall_rev. exact H.
Qed.

(** X21: every primary key [extract_primary_keys] returns has no white space at
    its ends and holds neither a comma nor a closing parenthesis. *)
Theorem primary_keys_clean (statement key : str) :
  In key (extract_primary_keys statement) ->
  strip key = key /\ ~ In ","%char key /\ ~ In ")"%char key.
Proof.
  unfold extract_primary_keys.
  destruct (re_search true inline_pk_re statement) as [mt|] eqn:E1.
  - intros [<-|[]].
    apply group_of_class in E1; [|reflexivity].
    split; [apply word_is_stripped; exact E1|].
    rewrite Forall_forall in E1.
    split; intros Hin; apply E1 in Hin; discriminate Hin.
  - destruct (re_search true table_pk_re statement) as [mt|] eqn:E2; [|intros []].
    intros Hin. apply in_map_iff in Hin. destruct Hin as (part & <- & Hp).
    apply table_pk_re_group in E2. rewrite Forall_forall in E2.
    split; [apply strip_idem|]. split; intros Hin; apply strip_In in Hin.
    + pose proof (split_lines_no_sep ","%char (group 1 mt)) as Hs.
      rewrite Forall_forall in Hs. exact (Hs part Hp Hin).
    + destruct (split_In_part _ _ _ Hp) as (a & b & E).
      assert (Hg : In ")"%char (group 1 mt))
        by (rewrite E; apply in_or_app; right; apply in_or_app; left; exact Hin).
      apply E2 in Hg. discriminate Hg.
Qed.

Lemma primary_keys_clean_witness :
  In (lit "B") (extract_primary_keys (lit "CREATE TABLE T (A INT, PRIMARY KEY (A , B ))")) /\
  strip (lit "B") = lit "B" /\ ~ In ","%char (lit "B") /\ ~ In ")"%char (lit "B").
Proof.
  assert (H : In (lit "B")
     (extract_primary_keys (lit "CREATE TABLE T (A INT, PRIMARY KEY (A , B ))")))
    by (vm_compute; right; left; reflexivity).
  split; [exact H | exact (@primary_keys_clean _ _ H)].
Defined.

(* ----------------------------------------------------------------- *)
(** *** Columns *)

(** No keyword that ends the type occurs before the place found for the end
    of the type. *)
Lemma no_keyword_before_type_end (column_def keyword : str) :
  In keyword type_end_keywords ->
  find keyword (firstn (find_type_end column_def) (upper column_def)) = None.
Proof.
  intros Hk. pose proof (keyword_nonempty Hk) as Hne.
  destruct (type_end_fold column_def type_end_keywords (length column_def))
    as [_ Hf]. fold (find_type_end column_def) in Hf.
  destruct (find keyword (upper column_def)) as [p|] eqn:E.
  - specialize (Hf keyword p Hk E).
    pose proof (@find_firstn _ _ _ Hne E) as Hn.
    apply find_app_none with (b := skipn (find_type_end column_def)
                                     (firstn p (upper column_def))).
    rewrite <- (firstn_skipn (find_type_end column_def) (firstn p (upper column_def)))
      in Hn.
    rewrite firstn_firstn in Hn.
    replace (Init.Nat.min (find_type_end column_def) p)
      with (find_type_end column_def) in Hn by lia.
    exact Hn.
  - apply find_app_none with (b := skipn (find_type_end column_def) (upper column_def)).
    rewrite firstn_skipn. exact E.
Qed.

Lemma parse_column_parts (column_def table_name : str) (log : list Issue) :
  exists ty nn na dv log',
    parse_column column_def table_name log
    = (MkColumn (hd [] (split_ws column_def))
         (strip (slice (length (hd [] (split_ws column_def)))
                   (find_type_end column_def) column_def))
         (strip (skipn (find_type_end column_def) column_def))
         ty nn na dv, log').
Proof.
  unfold parse_column, bind, ret. cbv zeta.
  destruct (convert_data_type _ _ _ log) as [ty l1].
  destruct (re_search true default_re _) as [mt|].
  - destruct (convert_default_value _ _ _ l1) as [dv l2]. eauto 6.
  - eauto 6.
Qed.

(** X22: for a column definition that upper-casing leaves at its length,
    one without a sharp s, the part that is converted as its type holds none
    of the keywords that end the type, in any case. *)
Theorem type_span_holds_no_keyword
  (column_def table_name keyword : str) (log : list Issue) :
  length (upper column_def) = length column_def ->
  In keyword type_end_keywords ->
  contains keyword
    (upper (data_type_part (fst (parse_column column_def table_name log)))) = false.
Proof.
  intros Hlen Hk.
  destruct (parse_column_parts column_def table_name log)
    as (ty & nn & na & dv & log' & ->). cbn [fst data_type_part].
  apply contains_false.
  pose proof (no_keyword_before_type_end column_def Hk) as Hn.
  destruct (firstn_slice (length (hd [] (split_ws column_def)))
              (find_type_end column_def) column_def) as [l Hl].
  destruct (strip_part (slice (length (hd [] (split_ws column_def)))
              (find_type_end column_def) column_def)) as (a & b & Hs).
  assert (Hf : firstn (find_type_end column_def) (upper column_def)
               = upper (firstn (find_type_end column_def) column_def)).
  { rewrite (upper_same_length _ Hlen), firstn_map. symmetry.
    apply upper_same_length.
    rewrite <- (firstn_skipn (find_type_end column_def) column_def) in Hlen.
    apply upper_same_length_app in Hlen. apply Hlen. }
  rewrite Hf, Hl, Hs, !upper_app in Hn.
  apply find_none_suffix in Hn. apply find_none_part in Hn. exact Hn.
Qed.

Lemma type_span_holds_no_keyword_witness :
  length (upper (lit "A INT not null")) = length (lit "A INT not null") /\
  In (lit "NOT NULL") type_end_keywords /\
  contains (lit "NOT NULL")
    (upper (data_type_part
              (fst (parse_column (lit "A INT not null") (lit "APP.T") [])))) = false.
Proof.
  assert (Hl : length (upper (lit "A INT not null")) = length (lit "A INT not null"))
    by reflexivity.
  assert (H : In (lit "NOT NULL") type_end_keywords) by (left; reflexivity).
  split; [exact Hl | split; [exact H|]].
  exact (@type_span_holds_no_keyword (lit "A INT not null") (lit "APP.T") _ [] Hl H).
Defined.

(** X23: [parse_column_definition] returns the empty text for a blank
    definition and the converted column for any other one; the branch for a
    definition without a word is never taken. *)
Theorem parse_column_definition_cases (column_def table_name : str)
  (log : list Issue) :
  parse_column_definition column_def table_name log
  = if truthy (strip column_def)
    then let (c, log') := parse_column (strip column_def) table_name log in
         (render_column c, log')
    else ([], log).
Proof.
  unfold parse_column_definition. cbv zeta.
  destruct (truthy (strip column_def)) eqn:E; cbn [negb]; [|reflexivity].
  rewrite (split_ws_nonempty _ E). reflexivity.
Qed.

(* ----------------------------------------------------------------- *)
(** *** The loop over the lines of a statement *)

Lemma closes_line (line : str) :
  closes line = true ->
  truthy (strip line) = true /\
  startswith (lit "--") (strip line) = false /\
  startswith (lit "CREATE TABLE") (upper (strip line)) = false /\
  existsb (fun keyword => contains keyword (upper (strip line))) skipped_options = false /\
  (str_eqb (strip line) (lit ")") || str_eqb (strip line) (lit ");")) = true.
Proof.
  unfold closes. intros H. apply orb_true_iff in H.
  destruct H as [H|H]; apply str_eqb_eq in H; rewrite H; repeat split; reflexivity.
Qed.

(** X24: the loop of [convert_db2_to_snowflake] ends at a line that is [)] or
    [);]: the lines after it do not change what the loop returns. *)
Theorem lines_after_close_ignored (table_name : str) (before after : list str)
  (close : str) :
  closes close = true ->
  forall st log,
  convert_lines table_name (before ++ close :: after) st log
  = convert_lines table_name (before ++ [close]) st log.
Proof.
  intros Hc. apply closes_line in Hc. destruct Hc as (Q1 & Q2 & Q3 & Q4 & Q5).
  induction before as [|l before IH]; intros st log.
  - cbn [app convert_lines]. cbv zeta. rewrite Q1, Q2, Q3, Q4, Q5. reflexivity.
  - cbn [app convert_lines]. cbv zeta.
    repeat match goal with
    | |- convert_lines _ _ _ _ = convert_lines _ _ _ _ => apply IH
    | |- (if ?b then _ else _) _ = (if ?b then _ else _) _ => destruct b
    | |- (match re_search ?a ?b ?c with _ => _ end) _ = _ => destruct (re_search a b c)
    | |- bind ?c _ _ = bind ?c _ _ =>
        unfold bind; destruct (c log) as [converted_col log1]
    | |- _ => reflexivity
    end.
Qed.

Lemma lines_after_close_ignored_witness :
  closes (lit " );") = true /\
  forall st log,
    convert_lines (lit "APP.T")
      ([lit "CREATE TABLE APP.T ("; lit "A INT"] ++ lit " );" :: [lit "B INT"; lit ");"])
      st log
    = convert_lines (lit "APP.T")
        ([lit "CREATE TABLE APP.T ("; lit "A INT"] ++ [lit " );"]) st log.
Proof.
  assert (H : closes (lit " );") = true) by (vm_compute; reflexivity).
  split; [exact H|].
  exact (@lines_after_close_ignored (lit "APP.T") _ _ _ H).
Defined.

Lemma extends_refl (st : conv_state) : extends st st [] [].
Proof. unfold extends. rewrite !app_nil_r. repeat split; constructor. Qed.

Lemma extends_head (st st' : conv_state) (h : str) cols0 (heads cols : list str) :
  startswith (lit "CREATE TABLE ") h = true ->
  extends (ConvState (result_lines st ++ [h]) true cols0) st' heads cols ->
  cols0 = column_definitions st ->
  extends st st' (h :: heads) cols.
Proof.
  intros Hh (E1 & E2 & E3 & E4) ->. cbn [result_lines column_definitions] in E1, E2.
  rewrite <- app_assoc in E1. repeat split; try assumption. constructor; assumption.
Qed.

Lemma extends_col (st st' : conv_state) (c : str) b (heads cols : list str) :
  truthy (strip c) = true ->
  extends (ConvState (result_lines st) b (column_definitions st ++ [c])) st' heads cols ->
  extends st st' heads (c :: cols).
Proof.
  intros Hc (E1 & E2 & E3 & E4). cbn [result_lines column_definitions] in E1, E2.
  rewrite <- app_assoc in E2. repeat split; try assumption. constructor; assumption.
Qed.

Lemma convert_lines_run (table_name : str) (lines : list str) :
  forallb (fun line => negb (closes line)) lines = true ->
  forall st log, exists st' log' heads cols,
    convert_lines table_name lines st log = (st', log') /\
    extends st st' heads cols /\
    forall rest,
      convert_lines table_name (lines ++ rest) st log
      = convert_lines table_name rest st' log'.
Proof.
  induction lines as [|l lines IH]; intros Hn st log.
  - exists st, log, [], []. split; [reflexivity|]. split; [apply extends_refl|].
    reflexivity.
  - cbn [forallb] in Hn. apply andb_true_iff in Hn. destruct Hn as [Hl Hn].
    specialize (IH Hn). apply negb_true_iff in Hl. unfold closes in Hl.
    cbn [app convert_lines]. cbv zeta. rewrite Hl.
    destruct (negb (truthy (strip l))); [apply IH|].
    destruct (startswith (lit "--") (strip l)); [apply IH|].
    destruct (startswith (lit "CREATE TABLE") (upper (strip l))).
    { destruct (re_search true Split.schema_table_re (strip l)) as [mt|].
      - destruct (IH (ConvState (result_lines st ++
                   [lit "CREATE TABLE " ++ group 1 mt ++ lit "." ++ group 2 mt ++ lit " ("])
                   true (column_definitions st)) log)
          as (st' & log' & heads & cols & E1 & E2 & E3).
        eexists st', log', (_ :: heads), cols. split; [exact E1|]. split; [|exact E3].
        eapply extends_head; [|exact E2|]; reflexivity.
      - destruct (re_search true Split.table_re (strip l)) as [mt|]; [|apply IH].
        destruct (IH (ConvState (result_lines st ++
                   [lit "CREATE TABLE " ++ group 1 mt ++ lit " ("])
                   true (column_definitions st)) log)
          as (st' & log' & heads & cols & E1 & E2 & E3).
        eexists st', log', (_ :: heads), cols. split; [exact E1|]. split; [|exact E3].
        eapply extends_head; [|exact E2|]; reflexivity. }
    destruct (existsb _ skipped_options); [apply IH|].
    destruct (in_columns st); [|apply IH].
    destruct (existsb _ constraint_starts); [apply IH|].
    unfold bind.
    destruct (parse_column_definition _ table_name log) as [converted_col log1].
    destruct (truthy converted_col && truthy (strip converted_col)) eqn:Ec; [|apply IH].
    apply andb_true_iff in Ec. destruct Ec as [_ Ec].
    destruct (IH (ConvState (result_lines st) true
                    (column_definitions st ++ [converted_col])) log1)
      as (st' & log' & heads & cols & E1 & E2 & E3).
    exists st', log', heads, (converted_col :: cols).
    split; [exact E1|]. split; [|exact E3].
    eapply extends_col; [exact Ec | exact E2].
Qed.

(** X25: where no line of the text is [)] or [);], the converted text holds
    CREATE TABLE lines and, if a key was found, the ALTER TABLE statement,
    and nothing else: the columns collected are not put out. *)
Theorem no_close_no_columns (content table_name : str) (log : list Issue) :
  forallb (fun line => negb (closes line)) (split nl content) = true ->
  exists heads log',
    convert_db2_to_snowflake content table_name log
    = (join [nl]
         (heads ++
          if Split.nonempty (extract_primary_keys content)
          then [alter_statement table_name (extract_primary_keys content)]
          else []), log') /\
    Forall (fun h => startswith (lit "CREATE TABLE ") h = true) heads.
Proof.
  intros H.
  destruct (convert_lines_run table_name _ H (ConvState [] false []) log)
    as (st' & log' & heads & cols & E1 & (E2 & _ & E3 & _) & _).
  exists heads, log'. split; [|exact E3].
  unfold convert_db2_to_snowflake, bind, ret. cbv zeta. rewrite E1.
  cbn [result_lines app] in E2. rewrite E2.
  destruct (Split.nonempty _); [reflexivity | rewrite app_nil_r; reflexivity].
Qed.

Lemma no_close_no_columns_witness :
  forallb (fun line => negb (closes line)) (split nl unclosed_statement) = true /\
  exists heads log',
    convert_db2_to_snowflake unclosed_statement (lit "APP.T") []
    = (join [nl]
         (heads ++
          if Split.nonempty (extract_primary_keys unclosed_statement)
          then [alter_statement (lit "APP.T") (extract_primary_keys unclosed_statement)]
          else []), log') /\
    Forall (fun h => startswith (lit "CREATE TABLE ") h = true) heads.
Proof.
  assert (H : forallb (fun line => negb (closes line))
                (split nl unclosed_statement) = true)
    by (vm_compute; reflexivity).
  split; [exact H | exact (@no_close_no_columns unclosed_statement (lit "APP.T") [] H)].
Defined.

Lemma strip_cons_not_space (c : ascii) (s : str) :
  isspace c = false -> exists y, strip (c :: s) = c :: y.
Proof.
  intros H. unfold strip, lstrip. cbn [drop_while]. rewrite H.
  unfold rstrip. cbn [rev]. rewrite drop_while_snoc by exact H. rewrite rev_app_distr.
  eexists. reflexivity.
Qed.

Lemma render_column_head (c : column) :
  exists tail, render_column c = column_name c ++ lit " " ++ tail.
Proof.
  unfold render_column. cbv zeta.
  destruct (not_null c); [|destruct (null_attr c)];
    destruct (truthy (default_value c)); cbn [app join]; eexists; reflexivity.
Qed.

(** The definition of a column that is not blank is not converted to a blank
    text. *)
Lemma column_not_blank (column_def table_name : str) (log : list Issue) :
  truthy (strip column_def) = true ->
  truthy (strip (fst (parse_column_definition column_def table_name log))) = true.
Proof.
  intros H. unfold parse_column_definition. cbv zeta. rewrite H. cbn [negb].
  rewrite (split_ws_nonempty _ H). cbn [negb]. unfold bind, ret.
  destruct (parse_column_parts (strip column_def) table_name log)
    as (ty & nn & na & dv & log' & ->).
  cbn [fst].
  destruct (render_column_head
              (MkColumn (hd [] (split_ws (strip column_def)))
                 (strip (slice (length (hd [] (split_ws (strip column_def))))
                           (find_type_end (strip column_def)) (strip column_def)))
                 (strip (skipn (find_type_end (strip column_def)) (strip column_def)))
                 ty nn na dv)) as [tail ->].
  cbn [column_name]. rewrite split_ws_hd.
  pose proof (strip_head column_def) as Hh.
  destruct (strip column_def) as [|c x]; [discriminate|].
  rewrite (first_word_cons _ _ Hh). cbn [app].
  destruct (@strip_cons_not_space c
              (take_while (fun c0 => negb (isspace c0)) x ++ lit " " ++ tail) Hh)
    as [y ->].
  reflexivity.
Qed.

Lemma column_text_not_blank (line : str) :
  column_line line = true -> truthy (strip (column_text line)) = true.
Proof.
  unfold column_line, column_text. cbv zeta. intros H.
  apply andb_true_iff in H. destruct H as [H Hc].
  repeat (apply andb_true_iff in H; destruct H as [H _]).
  apply negb_true_iff in Hc.
  pose proof (strip_head line) as Hh. pose proof (strip_idem line) as Hi.
  destruct (strip line) as [|c x]; [discriminate|].
  destruct (endswith (lit ",") (c :: x)) eqn:E; [|rewrite Hi; reflexivity].
  destruct x as [|c' x].
  - exfalso. unfold endswith in E. cbn [rev app] in E.
    change (rev (lit ",")) with (lit ",") in E.
    change (lit ",") with [","%char] in E. rewrite startswith_one in E.
    apply Ascii.eqb_eq in E. subst c.
    rewrite (proj2 (str_eqb_eq _ _) eq_refl) in Hc. discriminate.
  - change (removelast (c :: c' :: x)) with (c :: removelast (c' :: x)).
    destruct (@strip_cons_not_space c (removelast (c' :: x)) Hh) as [y ->].
    reflexivity.
Qed.

(** What [convert_columns] returns for lines that hold a column: one text for
    each line, none of them blank. *)
Lemma convert_columns_not_blank (table_name : str) (lines : list str) :
  Forall (fun line => column_line line = true) lines ->
  forall log cols log',
  convert_columns table_name lines log = (cols, log') ->
  length cols = length lines /\ Forall (fun c => truthy (strip c) = true) cols.
Proof.
  induction 1 as [|l lines Hl _ IH]; intros log cols log' E.
  - injection E as <- <-. split; [reflexivity | constructor].
  - cbn [convert_columns] in E. unfold bind, ret in E.
    pose proof (@column_not_blank (column_text l) table_name log
                  (column_text_not_blank _ Hl)) as Hb.
    destruct (parse_column_definition (column_text l) table_name log) as [col log1].
    destruct (convert_columns table_name lines log1) as [cols1 log2] eqn:E1.
    injection E as <- <-. destruct (IH _ _ _ E1) as [IH1 IH2].
    split; [simpl; rewrite IH1; reflexivity | constructor; assumption].
Qed.

Lemma emit_columns_with_commas (cols : list str) :
  emit_columns cols = with_commas cols.
Proof.
  induction cols as [|c cols IH]; [reflexivity|].
  destruct cols as [|c' cols]; [reflexivity|].
  change (emit_columns (c :: c' :: cols))
    with ((lit "  " ++ c ++ lit ",") :: emit_columns (c' :: cols)).
  rewrite IH. reflexivity.
Qed.

(** The loop on the lines of the columns, up to the line that closes them. *)
Lemma convert_lines_columns (table_name : str) (body : list str) :
  forallb (fun line => negb (closes line) &&
                       negb (startswith (lit "CREATE TABLE") (upper (strip line))))
    body = true ->
  forall heads cols0 log rest,
  convert_lines table_name (body ++ rest) (ConvState heads true cols0) log
  = let (cols, log') := convert_columns table_name (filter column_line body) log in
    convert_lines table_name rest (ConvState heads true (cols0 ++ cols)) log'.
Proof.
  induction body as [|l body IH]; intros Hb heads cols0 log rest.
  - cbn [app filter convert_columns]. unfold ret. rewrite app_nil_r. reflexivity.
  - cbn [forallb] in Hb. apply andb_true_iff in Hb. destruct Hb as [Hl Hb].
    specialize (IH Hb). apply andb_true_iff in Hl. destruct Hl as [Hc Hk].
    apply negb_true_iff in Hc, Hk. unfold closes in Hc.
    cbn [app convert_lines filter]. cbv zeta. rewrite Hk, Hc.
    cbn [in_columns result_lines column_definitions].
    assert (Hline : column_line l
                    = truthy (strip l) && negb (startswith (lit "--") (strip l)) &&
                      negb (existsb (fun keyword => contains keyword (upper (strip l)))
                              skipped_options) &&
                      negb (existsb (fun p => startswith p (upper (strip l)))
                              constraint_starts) &&
                      negb (str_eqb (strip l) (lit ","))) by reflexivity.
    destruct (truthy (strip l)) eqn:Et; cbn [negb andb] in Hline |- *;
      [|rewrite Hline; apply IH].
    destruct (startswith (lit "--") (strip l)) eqn:Ed; cbn [negb andb] in Hline |- *;
      [rewrite Hline; apply IH|].
    destruct (existsb _ skipped_options) eqn:Es; cbn [negb andb] in Hline |- *;
      [rewrite Hline; apply IH|].
    destruct (existsb _ constraint_starts) eqn:Ec; cbn [negb andb] in Hline |- *;
      [rewrite Hline; apply IH|].
    change (if endswith (lit ",") (strip l) then removelast (strip l) else strip l)
      with (column_text l).
    destruct (str_eqb (strip l) (lit ",")) eqn:Ecomma; cbn [negb] in Hline;
      rewrite Hline.
    + apply str_eqb_eq in Ecomma. unfold column_text. cbv zeta. rewrite Ecomma.
      change (endswith (lit ",") (lit ",")) with true. cbv iota.
      change (removelast (lit ",")) with (@nil ascii).
      unfold bind.
      change (parse_column_definition [] table_name log) with (@nil ascii, log).
      cbn [truthy andb]. apply IH.
    + cbn [convert_columns]. unfold bind, ret.
      pose proof (@column_not_blank (column_text l) table_name log
                    (column_text_not_blank _ Hline)) as Hn.
      destruct (parse_column_definition (column_text l) table_name log)
        as [col log1].
      cbn [fst] in Hn.
      assert (Hcol : truthy col = true)
        by (destruct col; [discriminate Hn | reflexivity]).
      rewrite Hcol, Hn. cbn [andb].
      rewrite (IH heads (cols0 ++ [col]) log1 rest).
      destruct (convert_columns table_name (filter column_line body) log1)
        as [cols log2].
      rewrite <- app_assoc. reflexivity.
Qed.

(** The loop on a CREATE TABLE line with a qualified name. *)
Lemma convert_lines_head (table_name head kw1 kw2 ws schema table rest : str)
  (lines : list str) (log : list Issue) :
  strip head = kw1 ++ lit " " ++ kw2 ++ ws ++ schema ++ lit "." ++ table ++ rest ->
  upper kw1 = lit "CREATE" -> upper kw2 = lit "TABLE" ->
  ws <> [] -> forallb isspace ws = true ->
  schema <> [] -> forallb isword schema = true ->
  table <> [] -> forallb isword table = true ->
  stops isword rest = true ->
  convert_lines table_name (head :: lines) (ConvState [] false []) log
  = convert_lines table_name lines
      (ConvState [lit "CREATE TABLE " ++ schema ++ lit "." ++ table ++ lit " ("]
         true []) log.
Proof.
  intros Hh K1 K2 Nw Sw Ns Ws Nt Wt Hr.
  assert (N1 : lit " " <> []) by discriminate.
  assert (S1 : forallb isspace (lit " ") = true) by reflexivity.
  destruct (@schema_table_re_at_start kw1 (lit " ") kw2 ws schema table rest
              K1 K2 N1 S1 Nw Sw Ns Ws Nt Wt Hr) as [prev' Hm].
  assert (Hu : startswith (lit "CREATE TABLE") (upper (strip head)) = true).
  { rewrite Hh, !upper_app, K1, K2. reflexivity. }
  assert (Hd : startswith (lit "--") (strip head) = false).
  { rewrite Hh. destruct kw1 as [|c k]; [discriminate K1|].
    rewrite upper_cons in K1. cbn [app].
    destruct (Ascii.eqb "-" c) eqn:E.
    - apply Ascii.eqb_eq in E. subst c. discriminate K1.
    - change (lit "--") with ["-"%char; "-"%char]. cbn [startswith].
      rewrite E. reflexivity. }
  assert (Ht : truthy (strip head) = true).
  { rewrite Hh. destruct kw1; [discriminate K1 | reflexivity]. }
  cbn [convert_lines]. cbv zeta. rewrite Ht, Hd, Hu. cbn [negb].
  rewrite Hh. unfold re_search. rewrite (@search_from_here _ _ _ 0 _ _ Hm).
  reflexivity.
Qed.

(** X26: for a text whose first line is a CREATE TABLE line with a qualified
    name, followed by lines none of which is [)], [);] or another CREATE
    TABLE line, and then by a line [)] or [);], the converted text is the
    line [CREATE TABLE schema.table (], then one line for each line in
    between that holds a column, in their order, with two blanks and what
    [parse_column_definition] returns for the line without the comma at its
    end, a comma after each but the last, then the line [);] and, if a key
    was found, the ALTER TABLE statement for the table name given.  No
    column is blank, and the lines after the closing line count for
    nothing. *)
Theorem closed_statement_output
  (content table_name head kw1 kw2 ws schema table rest close : str)
  (body after : list str) (log : list Issue) :
  split nl content = head :: body ++ close :: after ->
  strip head = kw1 ++ lit " " ++ kw2 ++ ws ++ schema ++ lit "." ++ table ++ rest ->
  upper kw1 = lit "CREATE" -> upper kw2 = lit "TABLE" ->
  ws <> [] -> forallb isspace ws = true ->
  schema <> [] -> forallb isword schema = true ->
  table <> [] -> forallb isword table = true ->
  stops isword rest = true ->
  forallb (fun line => negb (closes line) &&
                       negb (startswith (lit "CREATE TABLE") (upper (strip line))))
    body = true ->
  closes close = true ->
  exists cols log',
    convert_columns table_name (filter column_line body) log = (cols, log') /\
    length cols = length (filter column_line body) /\
    Forall (fun c => truthy (strip c) = true) cols /\
    convert_db2_to_snowflake content table_name log
    = (join [nl]
         ([lit "CREATE TABLE " ++ schema ++ lit "." ++ table ++ lit " ("] ++
          with_commas cols ++ [lit ");"] ++
          if Split.nonempty (extract_primary_keys content)
          then [lit "ALTER TABLE " ++ table_name ++ lit " ADD PRIMARY KEY (" ++
                join (lit ", ") (extract_primary_keys content) ++ lit ");"]
          else []), log').
Proof.
  intros Hs Hh K1 K2 Nw Sw Ns Ws Nt Wt Hr Hb Hc.
  destruct (convert_columns table_name (filter column_line body) log)
    as [cols log'] eqn:Ecols.
  exists cols, log'. split; [reflexivity|].
  assert (Hcl : Forall (fun line => column_line line = true)
                  (filter column_line body)).
  { apply Forall_forall. intros l Hl. apply filter_In in Hl. tauto. }
  destruct (@convert_columns_not_blank table_name _ Hcl _ _ _ Ecols) as [Hlen Hnb].
  split; [exact Hlen|]. split; [exact Hnb|].
  unfold convert_db2_to_snowflake, bind, ret. cbv zeta. rewrite Hs.
  rewrite (@convert_lines_head table_name head kw1 kw2 ws schema table rest
             (body ++ close :: after) log Hh K1 K2 Nw Sw Ns Ws Nt Wt Hr).
  rewrite (@convert_lines_columns table_name body Hb), Ecols.
  apply closes_line in Hc. destruct Hc as (Q1 & Q2 & Q3 & Q4 & Q5).
  cbn [convert_lines]. cbv zeta. rewrite Q1, Q2, Q3, Q4, Q5. cbn [negb].
  unfold ret. cbn [result_lines column_definitions app].
  rewrite emit_columns_with_commas. unfold alter_statement.
  destruct (Split.nonempty _); repeat rewrite <- app_assoc; reflexivity.
Qed.

Lemma closed_statement_output_witness :
  split nl keyed_statement
    = lit "CREATE TABLE APP.T (" ::
      [lit "  A INT NOT NULL,"; lit "  B CHAR(3),"; lit "  PRIMARY KEY (A)"] ++
      lit ");" :: [lit "COMMIT;"] /\
  strip (lit "CREATE TABLE APP.T (")
    = lit "CREATE" ++ lit " " ++ lit "TABLE" ++ lit " " ++ lit "APP" ++ lit "." ++
      lit "T" ++ lit " (" /\
  upper (lit "CREATE") = lit "CREATE" /\ upper (lit "TABLE") = lit "TABLE" /\
  lit " " <> [] /\ forallb isspace (lit " ") = true /\
  lit "APP" <> [] /\ forallb isword (lit "APP") = true /\
  lit "T" <> [] /\ forallb isword (lit "T") = true /\
  stops isword (lit " (") = true /\
  forallb (fun line => negb (closes line) &&
                       negb (startswith (lit "CREATE TABLE") (upper (strip line))))
    [lit "  A INT NOT NULL,"; lit "  B CHAR(3),"; lit "  PRIMARY KEY (A)"] = true /\
  closes (lit ");") = true /\
  exists cols log',
    convert_columns (lit "APP.T")
      (filter column_line
         [lit "  A INT NOT NULL,"; lit "  B CHAR(3),"; lit "  PRIMARY KEY (A)"]) []
    = (cols, log') /\
    length cols
    = length (filter column_line
                [lit "  A INT NOT NULL,"; lit "  B CHAR(3),"; lit "  PRIMARY KEY (A)"]) /\
    Forall (fun c => truthy (strip c) = true) cols /\
    convert_db2_to_snowflake keyed_statement (lit "APP.T") []
    = (join [nl]
         ([lit "CREATE TABLE " ++ lit "APP" ++ lit "." ++ lit "T" ++ lit " ("] ++
          with_commas cols ++ [lit ");"] ++
          if Split.nonempty (extract_primary_keys keyed_statement)
          then [lit "ALTER TABLE " ++ lit "APP.T" ++ lit " ADD PRIMARY KEY (" ++
                join (lit ", ") (extract_primary_keys keyed_statement) ++ lit ");"]
          else []), log').
Proof.
  assert (Hs : split nl keyed_statement
               = lit "CREATE TABLE APP.T (" ::
                 [lit "  A INT NOT NULL,"; lit "  B CHAR(3),"; lit "  PRIMARY KEY (A)"] ++
                 lit ");" :: [lit "COMMIT;"])
    by (vm_compute; reflexivity).
  assert (Hh : strip (lit "CREATE TABLE APP.T (")
               = lit "CREATE" ++ lit " " ++ lit "TABLE" ++ lit " " ++ lit "APP" ++
                 lit "." ++ lit "T" ++ lit " (")
    by (vm_compute; reflexivity).
  assert (K1 : upper (lit "CREATE") = lit "CREATE") by reflexivity.
  assert (K2 : upper (lit "TABLE") = lit "TABLE") by reflexivity.
  assert (Nw : lit " " <> []) by discriminate.
  assert (Sw : forallb isspace (lit " ") = true) by reflexivity.
  assert (Ns : lit "APP" <> []) by discriminate.
  assert (Ws : forallb isword (lit "APP") = true) by reflexivity.
  assert (Nt : lit "T" <> []) by discriminate.
  assert (Wt : forallb isword (lit "T") = true) by reflexivity.
  assert (Hr : stops isword (lit " (") = true) by reflexivity.
  assert (Hb : forallb (fun line => negb (closes line) &&
                          negb (startswith (lit "CREATE TABLE") (upper (strip line))))
                 [lit "  A INT NOT NULL,"; lit "  B CHAR(3),"; lit "  PRIMARY KEY (A)"]
               = true)
    by (vm_compute; reflexivity).
  assert (Hc : closes (lit ");") = true) by (vm_compute; reflexivity).
  repeat (split; [assumption|]).
  exact (@closed_statement_output keyed_statement (lit "APP.T") _ _ _ _ _ _ _ _ _ _ []
           Hs Hh K1 K2 Nw Sw Ns Ws Nt Wt Hr Hb Hc).
Defined.
